(** * examen2-catalogo: the catalogue REST service, embedded and verified

    The development follows the layout of the repository:
    - [app/schemas.py]  request and response schemas and their field checks;
    - [app/models.py]   the three tables and their constraints;
    - [app/main.py]     the fifteen CRUD handlers, their routes and the
                        metrics middleware;
    - [app/metrics.py]  the metrics collector;
    - [app/database.py] the address of the store and the options of the
                        engine.

    Conventions of the embedding.
    - A Python [str] is the list of its code points; [len] counts code points,
      as the schema's [min_length]/[max_length] do. Strings with a lone
      surrogate are left out: no field holds one.
    - A Python [int] is a [Z], of any size. The integers of a path and of
      a query string come as decimal text, taken here without sign [+],
      leading zeros or spaces: the validation reads a text of up to 4300
      characters and answers a longer one with a 422 ([int_parsing]).
      SQLite holds integers of 64 bits: the driver raises [OverflowError]
      when a parameter of a statement is outside that range ([int64]).
    - A Python [float] is a [spec_float] (IEEE-754 value without payload).
      Python reads a JSON number with a fraction or an exponent that is too
      large for a float, such as 1e400, as an infinity, and reads the words
      NaN, Infinity and -Infinity too; it refuses to write a float that is
      not finite into the JSON text of an answer.
    - A JSON body is a record with one entry per field of the schema, each
      already decoded to the Python type of the field ([raw]). Left out are
      the keys that the schema does not declare, the strings that the
      validation would convert to a number, and the integers too large for
      a float.
    - The store is the default one of [app/database.py] (SQLite): a table is
      the list of its rows in rowid order, a fresh row takes the largest
      rowid plus one, and a query without ORDER BY scans in that order. Past
      the largest rowid, 2^63 - 1, SQLite draws rowids at random and gives
      up when it finds none free: the model takes the insert to fail there.
    - A handler is a function from the store to an outcome and a store; an
      exception leaves the store as it was (the session is closed without a
      commit). A route adds what its decorator declares: the validation of
      the body, the status code and the response model. The answer is the
      status code with the content before its encoding as JSON text; the
      encoding comes after the handler and its commit, and when it fails
      the answer is a 500 ([render]).
    - The routes are stated behind the metrics middleware, which is modelled
      on its own.
    - Three behaviours of third-party libraries are taken as parameters
      (class [Library]): the Unicode class behind the regex escape [\d], the
      e-mail normaliser behind [EmailStr], and what the serialiser of a
      response model does with a float that is not finite. *)

From Stdlib Require Import ZArith NArith List String Bool Lia.
From Stdlib Require Import Floats.SpecFloat.
From Stdlib Require DecimalFacts DecimalPos.
Import ListNotations.
Open Scope Z_scope.

Set Implicit Arguments.

(* ================================================================== *)
(** * Python values *)

Definition str := list N.

(** [cp "..."] is the [str] with the code points of an ASCII literal. *)
Definition cp (s : string) : str :=
  map Ascii.N_of_ascii (list_ascii_of_string s).

Definition len (s : str) : Z := Z.of_nat (List.length s).

Fixpoint str_eqb (s t : str) : bool :=
  match s, t with
  | [], [] => true
  | a :: s', b :: t' => N.eqb a b && str_eqb s' t'
  | _, _ => false
  end.

Definition float := spec_float.

(** [x > 0] on floats: false on NaN, on both zeros and on negatives. *)
Definition float_gt_0 (x : float) : bool := SFltb (S754_zero false) x.

(** [math.isfinite(x)]: neither an infinity nor NaN. Only such a float has
    a JSON text. *)
Definition is_finite (x : float) : bool :=
  match x with
  | S754_zero _ | S754_finite _ _ _ => true
  | S754_infinity _ | S754_nan => false
  end.

(** An integer that fits SQLite's INTEGER, 64 bits signed: what the driver
    accepts as a parameter of a statement. *)
Definition int64 (i : Z) : bool := (- 2 ^ 63 <=? i) && (i <? 2 ^ 63).

(** The number of characters of the decimal text of an integer, the minus
    sign included. *)
Definition text_length (i : Z) : nat :=
  match Z.to_int i with
  | Decimal.Pos d => Decimal.nb_digits d
  | Decimal.Neg d => S (Decimal.nb_digits d)
  end.

(** Truthiness of an optional object ([if not cliente], [if self.cloudwatch]). *)
Definition is_none {A} (o : option A) : bool :=
  match o with None => true | Some _ => false end.

(* ================================================================== *)
(** * Regular expressions of the shape used by the schema

    A pattern [^ c1{m1,n1} c2{m2,n2} ... $] is a list of bounded repetitions
    of character classes, matched against the whole string: [^] is its
    start and [$] its end. *)

Record rx_atom := Rep { rx_class : N -> bool; rx_min : nat; rx_max : nat }.

(** Strip exactly [k] characters of class [c] from the front. *)
Fixpoint rx_take (c : N -> bool) (k : nat) (s : str) : option str :=
  match k with
  | O => Some s
  | S k' =>
      match s with
      | [] => None
      | x :: s' => if c x then rx_take c k' s' else None
      end
  end.

Fixpoint rx_fullmatch (r : list rx_atom) (s : str) : bool :=
  match r with
  | [] => match s with [] => true | _ :: _ => false end
  | a :: r' =>
      existsb
        (fun k =>
           match rx_take (rx_class a) k s with
           | Some rest => rx_fullmatch r' rest
           | None => false
           end)
        (seq (rx_min a) (S (rx_max a - rx_min a)))
  end.

(* ================================================================== *)
(** * Third-party parameters *)

Class Library := {
  (** the class of the escape [\d]: the Unicode decimal digits *)
  unicode_Nd : N -> bool;
  unicode_Nd_ascii :
    forall c, (48 <=? c)%N && (c <=? 57)%N = true -> unicode_Nd c = true;
  (** [EmailStr]: [None] on an invalid address, else the normalised address *)
  validate_email : str -> option str;
  validate_email_normal :
    forall e e', validate_email e = Some e' -> validate_email e' = Some e';
  (** the serialiser of a response model, in its JSON mode: whether it
      writes a float that is not finite as [null]; otherwise it leaves the
      float to the JSON encoder of the answer, which refuses it *)
  inf_nan_as_null : bool
}.

(* ================================================================== *)
(** * app/schemas.py *)

Inductive TipoDireccion := FACTURACION | ENVIO.

Definition TipoDireccion_value (t : TipoDireccion) : str :=
  match t with
  | FACTURACION => cp "FACTURACION"
  | ENVIO => cp "ENVIO"
  end.

(** A field of a JSON body, after the decoding to the field's Python type:
    absent, [null], a value of the type, or something of another type. For
    a [float] the values are the JSON numbers, those that Python reads as
    an infinity or as NaN included. Something of another type is made of
    strings and finite numbers: it has a JSON text. *)
Inductive raw (A : Type) :=
| Missing
| Null
| Value (a : A)
| WrongType.
Arguments Missing {A}.
Arguments Null {A}.
Arguments Value {A} a.
Arguments WrongType {A}.

(** A field of an update schema ([Optional[...] = None]): left unset by the
    body, or set to [None] or to a value. *)
Inductive field (A : Type) :=
| Unset
| Set_to (v : option A).
Arguments Unset {A}.
Arguments Set_to {A} v.

Module ClienteJSON.
Record t := mk {
  razon_social : raw str;
  nombre_comercial : raw str;
  rfc : raw str;
  correo_electronico : raw str;
  telefono : raw str
}.
End ClienteJSON.

Module DomicilioJSON.
Record t := mk {
  domicilio : raw str;
  colonia : raw str;
  municipio : raw str;
  estado : raw str;
  tipo_direccion : raw str
}.
End DomicilioJSON.

Module ProductoJSON.
Record t := mk {
  nombre : raw str;
  unidad_medida : raw str;
  precio_base : raw float
}.
End ProductoJSON.

Module ClienteCreate.
Record t := mk {
  razon_social : str;
  nombre_comercial : str;
  rfc : str;
  correo_electronico : str;
  telefono : str
}.
End ClienteCreate.

Module ClienteUpdate.
Record t := mk {
  razon_social : field str;
  nombre_comercial : field str;
  rfc : field str;
  correo_electronico : field str;
  telefono : field str
}.
End ClienteUpdate.

Module ClienteResponse.
Record t := mk {
  razon_social : str;
  nombre_comercial : str;
  rfc : str;
  correo_electronico : str;
  telefono : str;
  id : Z
}.
End ClienteResponse.

Module DomicilioCreate.
Record t := mk {
  domicilio : str;
  colonia : str;
  municipio : str;
  estado : str;
  tipo_direccion : TipoDireccion
}.
End DomicilioCreate.

Module DomicilioUpdate.
Record t := mk {
  domicilio : field str;
  colonia : field str;
  municipio : field str;
  estado : field str;
  tipo_direccion : field TipoDireccion
}.
End DomicilioUpdate.

Module DomicilioResponse.
Record t := mk {
  domicilio : str;
  colonia : str;
  municipio : str;
  estado : str;
  tipo_direccion : TipoDireccion;
  id : Z;
  cliente_id : Z
}.
End DomicilioResponse.

Module ProductoCreate.
Record t := mk {
  nombre : str;
  unidad_medida : str;
  precio_base : float
}.
End ProductoCreate.

Module ProductoUpdate.
Record t := mk {
  nombre : field str;
  unidad_medida : field str;
  precio_base : field float
}.
End ProductoUpdate.

Module ProductoResponse.
Record t := mk {
  nombre : str;
  unidad_medida : str;
  precio_base : float;
  id : Z
}.
End ProductoResponse.

(** ** Field checks *)

(** [Field(min_length=lo, max_length=hi)] *)
Definition check_length (lo hi : Z) (s : str) : option str :=
  if (lo <=? len s) && (len s <=? hi) then Some s else None.

Definition upper (c : N) : bool := ((65 <=? c) && (c <=? 90))%N.

(** The first class of the pattern: [A-Z], N with tilde (U+00D1), and the
    ampersand (U+0026). *)
Definition rfc_head (c : N) : bool :=
  upper c || N.eqb c 209 || N.eqb c 38.

Section Schemas.
Context {L : Library}.

(** [[A-Z\d]] *)
Definition rfc_tail (c : N) : bool := upper c || unicode_Nd c.

(** The pattern of [ClienteBase.rfc]: three or four characters of the first
    class, six of [\d], three of [[A-Z\d]], between [^] and [$]. *)
Definition RFC_PATTERN : list rx_atom :=
  [Rep rfc_head 3 4; Rep unicode_Nd 6 6; Rep rfc_tail 3 3].

(** [Field(..., min_length=12, max_length=13, pattern=...)] of [ClienteBase] *)
Definition check_rfc (s : str) : option str :=
  match check_length 12 13 s with
  | Some s' => if rx_fullmatch RFC_PATTERN s' then Some s' else None
  | None => None
  end.

(** [Field(None, min_length=12, max_length=13)] of [ClienteUpdate] *)
Definition check_rfc_update (s : str) : option str := check_length 12 13 s.

Definition check_tipo_direccion (s : str) : option TipoDireccion :=
  if str_eqb s (TipoDireccion_value FACTURACION) then Some FACTURACION
  else if str_eqb s (TipoDireccion_value ENVIO) then Some ENVIO
  else None.

(** [Field(..., gt=0)] *)
Definition check_precio (x : float) : option float :=
  if float_gt_0 x then Some x else None.

(** A required field: only a value of the type that passes the check. *)
Definition required {A B} (check : A -> option B) (r : raw A) : option B :=
  match r with
  | Value a => check a
  | Missing | Null | WrongType => None
  end.

(** An optional field with default [None]: absent stays unset, [null] is
    accepted as [None], a value has to pass the check. *)
Definition optional {A B} (check : A -> option B) (r : raw A)
  : option (field B) :=
  match r with
  | Missing => Some Unset
  | Null => Some (Set_to None)
  | Value a =>
      match check a with
      | Some b => Some (Set_to (Some b))
      | None => None
      end
  | WrongType => None
  end.

(** The entry of the 422 body for one field: its location when it failed. *)
Definition error_at {B} (loc : string) (r : option B) : list string :=
  match r with
  | Some _ => []
  | None => [loc]
  end.

(** ** What the 422 body echoes

    Each entry of the 422 body carries the input that failed: the value of
    the field, or the whole body when a required field is missing. The body
    is then written as JSON text, which fails on a float that is not
    finite. A string always has a JSON text, so only the body of a product
    can fail that way. *)

Definition str_json (s : str) : bool := true.

(** Whether the input of a field has a JSON text. *)
Definition has_json {A} (json : A -> bool) (r : raw A) : bool :=
  match r with
  | Value a => json a
  | Missing | Null | WrongType => true
  end.

(** Whether the entry of a field, if it has one, can be written; [body]
    says whether the whole body can. *)
Definition echo {A B} (json : A -> bool) (body : bool) (r : raw A)
  (validated : option B) : bool :=
  match validated with
  | Some _ => true
  | None =>
      match r with
      | Missing => body
      | Null | Value _ | WrongType => has_json json r
      end
  end.

(** ** Request bodies *)

Definition validate_ClienteCreate (b : ClienteJSON.t)
  : list string + ClienteCreate.t :=
  let f1 := required (check_length 1 255) (ClienteJSON.razon_social b) in
  let f2 := required (check_length 1 255) (ClienteJSON.nombre_comercial b) in
  let f3 := required check_rfc (ClienteJSON.rfc b) in
  let f4 := required validate_email (ClienteJSON.correo_electronico b) in
  let f5 := required (check_length 10 20) (ClienteJSON.telefono b) in
  match f1, f2, f3, f4, f5 with
  | Some v1, Some v2, Some v3, Some v4, Some v5 =>
      inr (ClienteCreate.mk v1 v2 v3 v4 v5)
  | _, _, _, _, _ =>
      inl (error_at "razon_social" f1 ++ error_at "nombre_comercial" f2 ++
           error_at "rfc" f3 ++ error_at "correo_electronico" f4 ++
           error_at "telefono" f5)%list
  end.

Definition validate_ClienteUpdate (b : ClienteJSON.t)
  : list string + ClienteUpdate.t :=
  let f1 := optional (check_length 1 255) (ClienteJSON.razon_social b) in
  let f2 := optional (check_length 1 255) (ClienteJSON.nombre_comercial b) in
  let f3 := optional check_rfc_update (ClienteJSON.rfc b) in
  let f4 := optional validate_email (ClienteJSON.correo_electronico b) in
  let f5 := optional (check_length 10 20) (ClienteJSON.telefono b) in
  match f1, f2, f3, f4, f5 with
  | Some v1, Some v2, Some v3, Some v4, Some v5 =>
      inr (ClienteUpdate.mk v1 v2 v3 v4 v5)
  | _, _, _, _, _ =>
      inl (error_at "razon_social" f1 ++ error_at "nombre_comercial" f2 ++
           error_at "rfc" f3 ++ error_at "correo_electronico" f4 ++
           error_at "telefono" f5)%list
  end.

Definition validate_DomicilioCreate (b : DomicilioJSON.t)
  : list string + DomicilioCreate.t :=
  let f1 := required (check_length 1 500) (DomicilioJSON.domicilio b) in
  let f2 := required (check_length 1 255) (DomicilioJSON.colonia b) in
  let f3 := required (check_length 1 255) (DomicilioJSON.municipio b) in
  let f4 := required (check_length 1 255) (DomicilioJSON.estado b) in
  let f5 := required check_tipo_direccion (DomicilioJSON.tipo_direccion b) in
  match f1, f2, f3, f4, f5 with
  | Some v1, Some v2, Some v3, Some v4, Some v5 =>
      inr (DomicilioCreate.mk v1 v2 v3 v4 v5)
  | _, _, _, _, _ =>
      inl (error_at "domicilio" f1 ++ error_at "colonia" f2 ++
           error_at "municipio" f3 ++ error_at "estado" f4 ++
           error_at "tipo_direccion" f5)%list
  end.

Definition validate_DomicilioUpdate (b : DomicilioJSON.t)
  : list string + DomicilioUpdate.t :=
  let f1 := optional (check_length 1 500) (DomicilioJSON.domicilio b) in
  let f2 := optional (check_length 1 255) (DomicilioJSON.colonia b) in
  let f3 := optional (check_length 1 255) (DomicilioJSON.municipio b) in
  let f4 := optional (check_length 1 255) (DomicilioJSON.estado b) in
  let f5 := optional check_tipo_direccion (DomicilioJSON.tipo_direccion b) in
  match f1, f2, f3, f4, f5 with
  | Some v1, Some v2, Some v3, Some v4, Some v5 =>
      inr (DomicilioUpdate.mk v1 v2 v3 v4 v5)
  | _, _, _, _, _ =>
      inl (error_at "domicilio" f1 ++ error_at "colonia" f2 ++
           error_at "municipio" f3 ++ error_at "estado" f4 ++
           error_at "tipo_direccion" f5)%list
  end.

Definition validate_ProductoCreate (b : ProductoJSON.t)
  : list string + ProductoCreate.t :=
  let f1 := required (check_length 1 255) (ProductoJSON.nombre b) in
  let f2 := required (check_length 1 50) (ProductoJSON.unidad_medida b) in
  let f3 := required check_precio (ProductoJSON.precio_base b) in
  match f1, f2, f3 with
  | Some v1, Some v2, Some v3 => inr (ProductoCreate.mk v1 v2 v3)
  | _, _, _ =>
      inl (error_at "nombre" f1 ++ error_at "unidad_medida" f2 ++
           error_at "precio_base" f3)%list
  end.

Definition validate_ProductoUpdate (b : ProductoJSON.t)
  : list string + ProductoUpdate.t :=
  let f1 := optional (check_length 1 255) (ProductoJSON.nombre b) in
  let f2 := optional (check_length 1 50) (ProductoJSON.unidad_medida b) in
  let f3 := optional check_precio (ProductoJSON.precio_base b) in
  match f1, f2, f3 with
  | Some v1, Some v2, Some v3 => inr (ProductoUpdate.mk v1 v2 v3)
  | _, _, _ =>
      inl (error_at "nombre" f1 ++ error_at "unidad_medida" f2 ++
           error_at "precio_base" f3)%list
  end.

Definition ProductoJSON_json (b : ProductoJSON.t) : bool :=
  has_json str_json (ProductoJSON.nombre b) &&
  has_json str_json (ProductoJSON.unidad_medida b) &&
  has_json is_finite (ProductoJSON.precio_base b).

(** Whether the 422 body of a product that failed [ProductoCreate] can be
    written. *)
Definition ProductoCreate_echo (b : ProductoJSON.t) : bool :=
  let body := ProductoJSON_json b in
  echo str_json body (ProductoJSON.nombre b)
       (required (check_length 1 255) (ProductoJSON.nombre b)) &&
  echo str_json body (ProductoJSON.unidad_medida b)
       (required (check_length 1 50) (ProductoJSON.unidad_medida b)) &&
  echo is_finite body (ProductoJSON.precio_base b)
       (required check_precio (ProductoJSON.precio_base b)).

(** The same for [ProductoUpdate], none of whose fields is required. *)
Definition ProductoUpdate_echo (b : ProductoJSON.t) : bool :=
  let body := ProductoJSON_json b in
  echo str_json body (ProductoJSON.nombre b)
       (optional (check_length 1 255) (ProductoJSON.nombre b)) &&
  echo str_json body (ProductoJSON.unidad_medida b)
       (optional (check_length 1 50) (ProductoJSON.unidad_medida b)) &&
  echo is_finite body (ProductoJSON.precio_base b)
       (optional check_precio (ProductoJSON.precio_base b)).

End Schemas.

(* ================================================================== *)
(** * app/models.py *)

(** An attribute of a mapped object holds [None] or a value; the column's
    [nullable=False] is a constraint of the table, checked at commit. *)

Module Cliente.
Record t := mk {
  id : Z;
  razon_social : option str;
  nombre_comercial : option str;
  rfc : option str;
  correo_electronico : option str;
  telefono : option str
}.
End Cliente.

Module Domicilio.
Record t := mk {
  id : Z;
  domicilio : option str;
  colonia : option str;
  municipio : option str;
  estado : option str;
  tipo_direccion : option TipoDireccion;
  cliente_id : Z
}.
End Domicilio.

Module Producto.
Record t := mk {
  id : Z;
  nombre : option str;
  unidad_medida : option str;
  precio_base : option float
}.
End Producto.

Record DB := mkDB {
  clientes : list Cliente.t;
  domicilios : list Domicilio.t;
  productos : list Producto.t
}.

Definition empty_db : DB := mkDB [] [] [].

(** [nullable=False] on every column *)
Definition Cliente_not_null (c : Cliente.t) : bool :=
  negb (is_none (Cliente.razon_social c)) &&
  negb (is_none (Cliente.nombre_comercial c)) &&
  negb (is_none (Cliente.rfc c)) &&
  negb (is_none (Cliente.correo_electronico c)) &&
  negb (is_none (Cliente.telefono c)).

Definition Domicilio_not_null (d : Domicilio.t) : bool :=
  negb (is_none (Domicilio.domicilio d)) &&
  negb (is_none (Domicilio.colonia d)) &&
  negb (is_none (Domicilio.municipio d)) &&
  negb (is_none (Domicilio.estado d)) &&
  negb (is_none (Domicilio.tipo_direccion d)).

Definition Producto_not_null (p : Producto.t) : bool :=
  negb (is_none (Producto.nombre p)) &&
  negb (is_none (Producto.unidad_medida p)) &&
  negb (is_none (Producto.precio_base p)).

(** [unique=True] on [Cliente.rfc]: two rows clash when both hold the same
    non-null value. *)
Definition same_rfc (a b : Cliente.t) : bool :=
  match Cliente.rfc a, Cliente.rfc b with
  | Some x, Some y => str_eqb x y
  | _, _ => false
  end.

(** [autoincrement=True] on an integer primary key *)
Definition next_id (ids : list Z) : Z := 1 + fold_right Z.max 0 ids.

(** ** Table operations *)

(** The exceptions that escape a handler. *)
Inductive exn :=
| IntegrityError            (* a constraint of a table, at commit *)
| OperationalError          (* SQLite: no rowid left for an insert *)
| OverflowError             (* the driver: a parameter beyond 64 bits *)
| ResponseValidationError   (* the response model refuses the value *)
| ValueError.               (* the JSON encoder: a float that is not finite *)

(** The scan of a table for the row with primary key [i]. *)
Definition row_by_id {A} (id_of : A -> Z) (i : Z) (rows : list A)
  : option A :=
  find (fun r => id_of r =? i) rows.

(** [query(T).filter(T.id == i).first()]: [i] is bound as a parameter of the
    statement, which the driver refuses outside 64 bits. *)
Definition first_by_id {A} (id_of : A -> Z) (i : Z) (rows : list A)
  : exn + option A :=
  if int64 i then inr (row_by_id id_of i rows) else inl OverflowError.

(** [UPDATE t SET ... WHERE id = i] *)
Definition update_by_id {A} (id_of : A -> Z) (r : A) (rows : list A)
  : list A :=
  map (fun x => if id_of x =? id_of r then r else x) rows.

(** [DELETE FROM t WHERE id = i] *)
Definition delete_by_id {A} (id_of : A -> Z) (i : Z) (rows : list A)
  : list A :=
  filter (fun x => negb (id_of x =? i)) rows.

(** [OFFSET offset LIMIT limit] over a scan: skip while the offset counter is
    positive, stop when the limit counter reaches zero. A negative limit
    never reaches zero and a negative offset skips nothing, as in SQLite. *)
Fixpoint offset_limit {A} (offset limit : Z) (rows : list A) : list A :=
  match rows with
  | [] => []
  | r :: rows' =>
      if limit =? 0 then []
      else if 0 <? offset then offset_limit (offset - 1) limit rows'
      else r :: offset_limit offset (limit - 1) rows'
  end.

(** ** Commit of one pending change

    An insert raises [IntegrityError] when a constraint of the table fails,
    and [OperationalError] when the rowid after the largest one is past
    2^63 - 1. For an update, [None] is an [IntegrityError]. *)

Definition insert_Cliente (c : Cliente.t) (db : DB) : exn + DB :=
  if Cliente_not_null c && negb (existsb (same_rfc c) (clientes db))
  then if int64 (Cliente.id c)
       then inr (mkDB (clientes db ++ [c]) (domicilios db) (productos db))
       else inl OperationalError
  else inl IntegrityError.

Definition update_Cliente (c : Cliente.t) (db : DB) : option DB :=
  if Cliente_not_null c &&
     negb (existsb
             (fun r => negb (Cliente.id r =? Cliente.id c) && same_rfc c r)
             (clientes db))
  then Some (mkDB (update_by_id Cliente.id c (clientes db))
                  (domicilios db) (productos db))
  else None.

(** [relationship(..., cascade="all, delete-orphan")]: the addresses of the
    client are loaded and each is deleted by its primary key, then the
    client's row. *)
Definition delete_Cliente (c : Cliente.t) (db : DB) : DB :=
  let loaded :=
    filter (fun d => Domicilio.cliente_id d =? Cliente.id c) (domicilios db) in
  mkDB (delete_by_id Cliente.id (Cliente.id c) (clientes db))
       (fold_left (fun rows d => delete_by_id Domicilio.id (Domicilio.id d) rows)
                  loaded (domicilios db))
       (productos db).

Definition insert_Domicilio (d : Domicilio.t) (db : DB) : exn + DB :=
  if Domicilio_not_null d
  then if int64 (Domicilio.id d)
       then inr (mkDB (clientes db) (domicilios db ++ [d]) (productos db))
       else inl OperationalError
  else inl IntegrityError.

Definition update_Domicilio (d : Domicilio.t) (db : DB) : option DB :=
  if Domicilio_not_null d
  then Some (mkDB (clientes db)
                  (update_by_id Domicilio.id d (domicilios db))
                  (productos db))
  else None.

Definition delete_Domicilio (d : Domicilio.t) (db : DB) : DB :=
  mkDB (clientes db)
       (delete_by_id Domicilio.id (Domicilio.id d) (domicilios db))
       (productos db).

Definition insert_Producto (p : Producto.t) (db : DB) : exn + DB :=
  if Producto_not_null p
  then if int64 (Producto.id p)
       then inr (mkDB (clientes db) (domicilios db) (productos db ++ [p]))
       else inl OperationalError
  else inl IntegrityError.

Definition update_Producto (p : Producto.t) (db : DB) : option DB :=
  if Producto_not_null p
  then Some (mkDB (clientes db) (domicilios db)
                  (update_by_id Producto.id p (productos db)))
  else None.

Definition delete_Producto (p : Producto.t) (db : DB) : DB :=
  mkDB (clientes db) (domicilios db)
       (delete_by_id Producto.id (Producto.id p) (productos db)).

(* ================================================================== *)
(** * app/main.py: the handlers *)

(** What a handler does: return a value, raise [HTTPException], or let
    another exception escape. *)
Inductive Outcome (A : Type) :=
| Return (a : A)
| HTTPException (status_code : Z) (detail : string)
| Raise (e : exn).
Arguments Return {A} a.
Arguments HTTPException {A} status_code detail.
Arguments Raise {A} e.

(** ** The items of [model_dump(exclude_unset=True)] and [setattr] *)

Inductive ClienteItem :=
| Item_razon_social (value : option str)
| Item_nombre_comercial (value : option str)
| Item_rfc (value : option str)
| Item_correo_electronico (value : option str)
| Item_telefono (value : option str).

Inductive DomicilioItem :=
| Item_domicilio (value : option str)
| Item_colonia (value : option str)
| Item_municipio (value : option str)
| Item_estado (value : option str)
| Item_tipo_direccion (value : option TipoDireccion).

Inductive ProductoItem :=
| Item_nombre (value : option str)
| Item_unidad_medida (value : option str)
| Item_precio_base (value : option float).

Definition item {A I} (key : option A -> I) (f : field A) : list I :=
  match f with
  | Unset => []
  | Set_to v => [key v]
  end.

Definition ClienteUpdate_items (u : ClienteUpdate.t) : list ClienteItem :=
  item Item_razon_social (ClienteUpdate.razon_social u) ++
  item Item_nombre_comercial (ClienteUpdate.nombre_comercial u) ++
  item Item_rfc (ClienteUpdate.rfc u) ++
  item Item_correo_electronico (ClienteUpdate.correo_electronico u) ++
  item Item_telefono (ClienteUpdate.telefono u).

Definition DomicilioUpdate_items (u : DomicilioUpdate.t) : list DomicilioItem :=
  item Item_domicilio (DomicilioUpdate.domicilio u) ++
  item Item_colonia (DomicilioUpdate.colonia u) ++
  item Item_municipio (DomicilioUpdate.municipio u) ++
  item Item_estado (DomicilioUpdate.estado u) ++
  item Item_tipo_direccion (DomicilioUpdate.tipo_direccion u).

Definition ProductoUpdate_items (u : ProductoUpdate.t) : list ProductoItem :=
  item Item_nombre (ProductoUpdate.nombre u) ++
  item Item_unidad_medida (ProductoUpdate.unidad_medida u) ++
  item Item_precio_base (ProductoUpdate.precio_base u).

Definition setattr_Cliente (o : Cliente.t) (kv : ClienteItem) : Cliente.t :=
  match kv with
  | Item_razon_social v =>
      Cliente.mk (Cliente.id o) v (Cliente.nombre_comercial o) (Cliente.rfc o)
                 (Cliente.correo_electronico o) (Cliente.telefono o)
  | Item_nombre_comercial v =>
      Cliente.mk (Cliente.id o) (Cliente.razon_social o) v (Cliente.rfc o)
                 (Cliente.correo_electronico o) (Cliente.telefono o)
  | Item_rfc v =>
      Cliente.mk (Cliente.id o) (Cliente.razon_social o)
                 (Cliente.nombre_comercial o) v
                 (Cliente.correo_electronico o) (Cliente.telefono o)
  | Item_correo_electronico v =>
      Cliente.mk (Cliente.id o) (Cliente.razon_social o)
                 (Cliente.nombre_comercial o) (Cliente.rfc o) v
                 (Cliente.telefono o)
  | Item_telefono v =>
      Cliente.mk (Cliente.id o) (Cliente.razon_social o)
                 (Cliente.nombre_comercial o) (Cliente.rfc o)
                 (Cliente.correo_electronico o) v
  end.

Definition setattr_Domicilio (o : Domicilio.t) (kv : DomicilioItem)
  : Domicilio.t :=
  match kv with
  | Item_domicilio v =>
      Domicilio.mk (Domicilio.id o) v (Domicilio.colonia o)
                   (Domicilio.municipio o) (Domicilio.estado o)
                   (Domicilio.tipo_direccion o) (Domicilio.cliente_id o)
  | Item_colonia v =>
      Domicilio.mk (Domicilio.id o) (Domicilio.domicilio o) v
                   (Domicilio.municipio o) (Domicilio.estado o)
                   (Domicilio.tipo_direccion o) (Domicilio.cliente_id o)
  | Item_municipio v =>
      Domicilio.mk (Domicilio.id o) (Domicilio.domicilio o)
                   (Domicilio.colonia o) v (Domicilio.estado o)
                   (Domicilio.tipo_direccion o) (Domicilio.cliente_id o)
  | Item_estado v =>
      Domicilio.mk (Domicilio.id o) (Domicilio.domicilio o)
                   (Domicilio.colonia o) (Domicilio.municipio o) v
                   (Domicilio.tipo_direccion o) (Domicilio.cliente_id o)
  | Item_tipo_direccion v =>
      Domicilio.mk (Domicilio.id o) (Domicilio.domicilio o)
                   (Domicilio.colonia o) (Domicilio.municipio o)
                   (Domicilio.estado o) v (Domicilio.cliente_id o)
  end.

Definition setattr_Producto (o : Producto.t) (kv : ProductoItem)
  : Producto.t :=
  match kv with
  | Item_nombre v =>
      Producto.mk (Producto.id o) v (Producto.unidad_medida o)
                  (Producto.precio_base o)
  | Item_unidad_medida v =>
      Producto.mk (Producto.id o) (Producto.nombre o) v
                  (Producto.precio_base o)
  | Item_precio_base v =>
      Producto.mk (Producto.id o) (Producto.nombre o)
                  (Producto.unidad_medida o) v
  end.

(** ** CRUD clientes *)

(** The [Cliente] built from [cliente.model_dump()]; the id is the one the
    commit assigns. *)
Definition Cliente_new (i : Z) (cliente : ClienteCreate.t) : Cliente.t :=
  Cliente.mk i
    (Some (ClienteCreate.razon_social cliente))
    (Some (ClienteCreate.nombre_comercial cliente))
    (Some (ClienteCreate.rfc cliente))
    (Some (ClienteCreate.correo_electronico cliente))
    (Some (ClienteCreate.telefono cliente)).

Definition crear_cliente (cliente : ClienteCreate.t) (db : DB)
  : Outcome Cliente.t * DB :=
  let db_cliente :=
    Cliente_new (next_id (map Cliente.id (clientes db))) cliente in
  match insert_Cliente db_cliente db with
  | inr db' => (Return db_cliente, db')
  | inl e => (Raise e, db)
  end.

(** [skip] and [limit] are bound as the parameters of OFFSET and LIMIT. *)
Definition listar_clientes (skip limit : Z) (db : DB)
  : Outcome (list Cliente.t) * DB :=
  if int64 skip && int64 limit
  then (Return (offset_limit skip limit (clientes db)), db)
  else (Raise OverflowError, db).

Definition obtener_cliente (cliente_id : Z) (db : DB)
  : Outcome Cliente.t * DB :=
  match first_by_id Cliente.id cliente_id (clientes db) with
  | inl e => (Raise e, db)
  | inr None => (HTTPException 404 "Cliente no encontrado", db)
  | inr (Some cliente) => (Return cliente, db)
  end.

Definition actualizar_cliente (cliente_id : Z) (cliente : ClienteUpdate.t)
  (db : DB) : Outcome Cliente.t * DB :=
  match first_by_id Cliente.id cliente_id (clientes db) with
  | inl e => (Raise e, db)
  | inr None => (HTTPException 404 "Cliente no encontrado", db)
  | inr (Some db_cliente) =>
      let db_cliente' :=
        fold_left setattr_Cliente (ClienteUpdate_items cliente) db_cliente in
      match update_Cliente db_cliente' db with
      | Some db' => (Return db_cliente', db')
      | None => (Raise IntegrityError, db)
      end
  end.

Definition eliminar_cliente (cliente_id : Z) (db : DB) : Outcome unit * DB :=
  match first_by_id Cliente.id cliente_id (clientes db) with
  | inl e => (Raise e, db)
  | inr None => (HTTPException 404 "Cliente no encontrado", db)
  | inr (Some db_cliente) => (Return tt, delete_Cliente db_cliente db)
  end.

(** ** CRUD domicilios *)

(** The [Domicilio] built from [domicilio.model_dump()] and [cliente_id] *)
Definition Domicilio_new (i : Z) (domicilio : DomicilioCreate.t)
  (cliente_id : Z) : Domicilio.t :=
  Domicilio.mk i
    (Some (DomicilioCreate.domicilio domicilio))
    (Some (DomicilioCreate.colonia domicilio))
    (Some (DomicilioCreate.municipio domicilio))
    (Some (DomicilioCreate.estado domicilio))
    (Some (DomicilioCreate.tipo_direccion domicilio))
    cliente_id.

Definition crear_domicilio (cliente_id : Z) (domicilio : DomicilioCreate.t)
  (db : DB) : Outcome Domicilio.t * DB :=
  match first_by_id Cliente.id cliente_id (clientes db) with
  | inl e => (Raise e, db)
  | inr None => (HTTPException 404 "Cliente no encontrado", db)
  | inr (Some _) =>
      let db_domicilio :=
        Domicilio_new (next_id (map Domicilio.id (domicilios db)))
                      domicilio cliente_id in
      match insert_Domicilio db_domicilio db with
      | inr db' => (Return db_domicilio, db')
      | inl e => (Raise e, db)
      end
  end.

(** [cliente_id] is bound as the parameter of the filter. *)
Definition listar_domicilios (cliente_id : Z) (db : DB)
  : Outcome (list Domicilio.t) * DB :=
  if int64 cliente_id
  then (Return (filter (fun d => Domicilio.cliente_id d =? cliente_id)
                       (domicilios db)), db)
  else (Raise OverflowError, db).

Definition obtener_domicilio (domicilio_id : Z) (db : DB)
  : Outcome Domicilio.t * DB :=
  match first_by_id Domicilio.id domicilio_id (domicilios db) with
  | inl e => (Raise e, db)
  | inr None => (HTTPException 404 "Domicilio no encontrado", db)
  | inr (Some domicilio) => (Return domicilio, db)
  end.

Definition actualizar_domicilio (domicilio_id : Z)
  (domicilio : DomicilioUpdate.t) (db : DB) : Outcome Domicilio.t * DB :=
  match first_by_id Domicilio.id domicilio_id (domicilios db) with
  | inl e => (Raise e, db)
  | inr None => (HTTPException 404 "Domicilio no encontrado", db)
  | inr (Some db_domicilio) =>
      let db_domicilio' :=
        fold_left setattr_Domicilio (DomicilioUpdate_items domicilio)
                  db_domicilio in
      match update_Domicilio db_domicilio' db with
      | Some db' => (Return db_domicilio', db')
      | None => (Raise IntegrityError, db)
      end
  end.

Definition eliminar_domicilio (domicilio_id : Z) (db : DB)
  : Outcome unit * DB :=
  match first_by_id Domicilio.id domicilio_id (domicilios db) with
  | inl e => (Raise e, db)
  | inr None => (HTTPException 404 "Domicilio no encontrado", db)
  | inr (Some db_domicilio) => (Return tt, delete_Domicilio db_domicilio db)
  end.

(** ** CRUD productos *)

(** The [Producto] built from [producto.model_dump()] *)
Definition Producto_new (i : Z) (producto : ProductoCreate.t) : Producto.t :=
  Producto.mk i
    (Some (ProductoCreate.nombre producto))
    (Some (ProductoCreate.unidad_medida producto))
    (Some (ProductoCreate.precio_base producto)).

Definition crear_producto (producto : ProductoCreate.t) (db : DB)
  : Outcome Producto.t * DB :=
  let db_producto :=
    Producto_new (next_id (map Producto.id (productos db))) producto in
  match insert_Producto db_producto db with
  | inr db' => (Return db_producto, db')
  | inl e => (Raise e, db)
  end.

Definition listar_productos (skip limit : Z) (db : DB)
  : Outcome (list Producto.t) * DB :=
  if int64 skip && int64 limit
  then (Return (offset_limit skip limit (productos db)), db)
  else (Raise OverflowError, db).

Definition obtener_producto (producto_id : Z) (db : DB)
  : Outcome Producto.t * DB :=
  match first_by_id Producto.id producto_id (productos db) with
  | inl e => (Raise e, db)
  | inr None => (HTTPException 404 "Producto no encontrado", db)
  | inr (Some producto) => (Return producto, db)
  end.

Definition actualizar_producto (producto_id : Z) (producto : ProductoUpdate.t)
  (db : DB) : Outcome Producto.t * DB :=
  match first_by_id Producto.id producto_id (productos db) with
  | inl e => (Raise e, db)
  | inr None => (HTTPException 404 "Producto no encontrado", db)
  | inr (Some db_producto) =>
      let db_producto' :=
        fold_left setattr_Producto (ProductoUpdate_items producto)
                  db_producto in
      match update_Producto db_producto' db with
      | Some db' => (Return db_producto', db')
      | None => (Raise IntegrityError, db)
      end
  end.

Definition eliminar_producto (producto_id : Z) (db : DB)
  : Outcome unit * DB :=
  match first_by_id Producto.id producto_id (productos db) with
  | inl e => (Raise e, db)
  | inr None => (HTTPException 404 "Producto no encontrado", db)
  | inr (Some db_producto) => (Return tt, delete_Producto db_producto db)
  end.

(* ================================================================== *)
(** * app/main.py: the routes *)

(** What the client receives. *)
Inductive Response (A : Type) :=
| JSONResponse (status : Z) (content : A)
| ErrorResponse (status : Z) (detail : string)
| UnprocessableEntity (detail : list string)
| InternalServerError (e : exn).
Arguments JSONResponse {A} status content.
Arguments ErrorResponse {A} status detail.
Arguments UnprocessableEntity {A} detail.
Arguments InternalServerError {A} e.

Definition status_code {A} (r : Response A) : Z :=
  match r with
  | JSONResponse status _ => status
  | ErrorResponse status _ => status
  | UnprocessableEntity _ => 422
  | InternalServerError _ => 500
  end.

(** The query string of a request; a route binds the parameters its handler
    declares and ignores the others. *)
Record Query := mkQuery { skip : option Z; limit : option Z }.

Definition default {A} (d : A) (o : option A) : A :=
  match o with
  | Some a => a
  | None => d
  end.

(** Reading an attribute into a response field ([from_attributes = True]). *)
Definition attribute {A B} (check : A -> option B) (a : option A) : option B :=
  match a with
  | Some x => check x
  | None => None
  end.

Fixpoint validate_list {A B} (response_model : A -> option B) (l : list A)
  : option (list B) :=
  match l with
  | [] => Some []
  | a :: l' =>
      match response_model a, validate_list response_model l' with
      | Some b, Some bs => Some (b :: bs)
      | _, _ => None
      end
  end.

(** The decorator of a route: the status code of a returned value and the
    [response_model] the value is validated against. *)
Definition serialize_response {A B} (status : Z)
  (response_model : A -> option B) (o : Outcome A) : Response B :=
  match o with
  | Return a =>
      match response_model a with
      | Some b => JSONResponse status b
      | None => InternalServerError ResponseValidationError
      end
  | HTTPException status' detail => ErrorResponse status' detail
  | Raise e => InternalServerError e
  end.

Definition respond {A B} (status : Z) (response_model : A -> option B)
  (r : Outcome A * DB) : Response B * DB :=
  (serialize_response status response_model (fst r), snd r).

(** The content of an answer is written as JSON text when the handler is
    done, and so after its commit. [json] says whether the content has a
    text; the encoder raises [ValueError] when it has none. Strings and
    integers always have one, so only the answers with a price go through
    this step here. *)
Definition render {B} (json : B -> bool) (r : Response B * DB)
  : Response B * DB :=
  match fst r with
  | JSONResponse _ content =>
      if json content then r else (InternalServerError ValueError, snd r)
  | ErrorResponse _ _ | UnprocessableEntity _ | InternalServerError _ => r
  end.

(** The handler of a body that failed its validation: the 422 body with the
    entries, when it can be written ([echo]). *)
Definition request_validation_error {B} (echo : bool) (errors : list string)
  : Response B :=
  if echo then UnprocessableEntity errors else InternalServerError ValueError.

(** An [int] parameter of a path or of a query string is read from its
    text, which may have up to 4300 characters; a longer text is refused
    ([int_parsing_size]). *)
Definition int_parsing (i : Z) : bool := (text_length i <=? 4300)%nat.

(** The entries of the 422 body for the parameter [loc]. *)
Definition int_error (loc : string) (i : Z) : list string :=
  if int_parsing i then [] else [loc].

Section Routes.
Context {L : Library}.

(** [ClienteResponse(ClienteBase)] *)
Definition ClienteResponse_validate (c : Cliente.t)
  : option ClienteResponse.t :=
  match attribute (check_length 1 255) (Cliente.razon_social c),
        attribute (check_length 1 255) (Cliente.nombre_comercial c),
        attribute check_rfc (Cliente.rfc c),
        attribute validate_email (Cliente.correo_electronico c),
        attribute (check_length 10 20) (Cliente.telefono c) with
  | Some v1, Some v2, Some v3, Some v4, Some v5 =>
      Some (ClienteResponse.mk v1 v2 v3 v4 v5 (Cliente.id c))
  | _, _, _, _, _ => None
  end.

(** [DomicilioResponse(DomicilioBase)] *)
Definition DomicilioResponse_validate (d : Domicilio.t)
  : option DomicilioResponse.t :=
  match attribute (check_length 1 500) (Domicilio.domicilio d),
        attribute (check_length 1 255) (Domicilio.colonia d),
        attribute (check_length 1 255) (Domicilio.municipio d),
        attribute (check_length 1 255) (Domicilio.estado d),
        Domicilio.tipo_direccion d with
  | Some v1, Some v2, Some v3, Some v4, Some v5 =>
      Some (DomicilioResponse.mk v1 v2 v3 v4 v5 (Domicilio.id d)
                                 (Domicilio.cliente_id d))
  | _, _, _, _, _ => None
  end.

(** [ProductoResponse(ProductoBase)] *)
Definition ProductoResponse_validate (p : Producto.t)
  : option ProductoResponse.t :=
  match attribute (check_length 1 255) (Producto.nombre p),
        attribute (check_length 1 50) (Producto.unidad_medida p),
        attribute check_precio (Producto.precio_base p) with
  | Some v1, Some v2, Some v3 =>
      Some (ProductoResponse.mk v1 v2 v3 (Producto.id p))
  | _, _, _ => None
  end.

(** The price of an answer has a JSON text when it is finite, or when the
    serialiser of the response model has written it as [null]. *)
Definition ProductoResponse_json (r : ProductoResponse.t) : bool :=
  is_finite (ProductoResponse.precio_base r) || inf_nan_as_null.

(** [@app.post("/clientes", response_model=ClienteResponse, status_code=201)] *)
Definition POST_clientes (body : ClienteJSON.t) (db : DB)
  : Response ClienteResponse.t * DB :=
  match validate_ClienteCreate body with
  | inl errors => (UnprocessableEntity errors, db)
  | inr cliente =>
      respond 201 ClienteResponse_validate (crear_cliente cliente db)
  end.

(** [@app.get("/clientes", response_model=list[ClienteResponse])] *)
Definition GET_clientes (q : Query) (db : DB)
  : Response (list ClienteResponse.t) * DB :=
  match int_error "skip" (default 0 (skip q))
        ++ int_error "limit" (default 100 (limit q)) with
  | [] =>
      respond 200 (validate_list ClienteResponse_validate)
              (listar_clientes (default 0 (skip q)) (default 100 (limit q)) db)
  | errors => (UnprocessableEntity errors, db)
  end.

(** [@app.get("/clientes/{cliente_id}", response_model=ClienteResponse)] *)
Definition GET_cliente (cliente_id : Z) (db : DB)
  : Response ClienteResponse.t * DB :=
  match int_error "cliente_id" cliente_id with
  | [] => respond 200 ClienteResponse_validate (obtener_cliente cliente_id db)
  | errors => (UnprocessableEntity errors, db)
  end.

(** [@app.put("/clientes/{cliente_id}", response_model=ClienteResponse)] *)
Definition PUT_cliente (cliente_id : Z) (body : ClienteJSON.t) (db : DB)
  : Response ClienteResponse.t * DB :=
  match validate_ClienteUpdate body with
  | inl errors =>
      (UnprocessableEntity (int_error "cliente_id" cliente_id ++ errors), db)
  | inr cliente =>
      match int_error "cliente_id" cliente_id with
      | [] =>
          respond 200 ClienteResponse_validate
                  (actualizar_cliente cliente_id cliente db)
      | errors => (UnprocessableEntity errors, db)
      end
  end.

(** [@app.delete("/clientes/{cliente_id}", status_code=204)] *)
Definition DELETE_cliente (cliente_id : Z) (db : DB) : Response unit * DB :=
  match int_error "cliente_id" cliente_id with
  | [] => respond 204 Some (eliminar_cliente cliente_id db)
  | errors => (UnprocessableEntity errors, db)
  end.

(** [@app.post("/clientes/{cliente_id}/domicilios",
               response_model=DomicilioResponse, status_code=201)] *)
Definition POST_domicilios (cliente_id : Z) (body : DomicilioJSON.t) (db : DB)
  : Response DomicilioResponse.t * DB :=
  match validate_DomicilioCreate body with
  | inl errors =>
      (UnprocessableEntity (int_error "cliente_id" cliente_id ++ errors), db)
  | inr domicilio =>
      match int_error "cliente_id" cliente_id with
      | [] =>
          respond 201 DomicilioResponse_validate
                  (crear_domicilio cliente_id domicilio db)
      | errors => (UnprocessableEntity errors, db)
      end
  end.

(** [@app.get("/clientes/{cliente_id}/domicilios",
              response_model=list[DomicilioResponse])]; the handler declares
    no query parameter. *)
Definition GET_domicilios (cliente_id : Z) (q : Query) (db : DB)
  : Response (list DomicilioResponse.t) * DB :=
  match int_error "cliente_id" cliente_id with
  | [] =>
      respond 200 (validate_list DomicilioResponse_validate)
              (listar_domicilios cliente_id db)
  | errors => (UnprocessableEntity errors, db)
  end.

(** [@app.get("/domicilios/{domicilio_id}", response_model=DomicilioResponse)] *)
Definition GET_domicilio (domicilio_id : Z) (db : DB)
  : Response DomicilioResponse.t * DB :=
  match int_error "domicilio_id" domicilio_id with
  | [] =>
      respond 200 DomicilioResponse_validate
              (obtener_domicilio domicilio_id db)
  | errors => (UnprocessableEntity errors, db)
  end.

(** [@app.put("/domicilios/{domicilio_id}", response_model=DomicilioResponse)] *)
Definition PUT_domicilio (domicilio_id : Z) (body : DomicilioJSON.t) (db : DB)
  : Response DomicilioResponse.t * DB :=
  match validate_DomicilioUpdate body with
  | inl errors =>
      (UnprocessableEntity (int_error "domicilio_id" domicilio_id ++ errors),
       db)
  | inr domicilio =>
      match int_error "domicilio_id" domicilio_id with
      | [] =>
          respond 200 DomicilioResponse_validate
                  (actualizar_domicilio domicilio_id domicilio db)
      | errors => (UnprocessableEntity errors, db)
      end
  end.

(** [@app.delete("/domicilios/{domicilio_id}", status_code=204)] *)
Definition DELETE_domicilio (domicilio_id : Z) (db : DB)
  : Response unit * DB :=
  match int_error "domicilio_id" domicilio_id with
  | [] => respond 204 Some (eliminar_domicilio domicilio_id db)
  | errors => (UnprocessableEntity errors, db)
  end.

(** [@app.post("/productos", response_model=ProductoResponse, status_code=201)] *)
Definition POST_productos (body : ProductoJSON.t) (db : DB)
  : Response ProductoResponse.t * DB :=
  match validate_ProductoCreate body with
  | inl errors =>
      (request_validation_error (ProductoCreate_echo body) errors, db)
  | inr producto =>
      render ProductoResponse_json
             (respond 201 ProductoResponse_validate
                      (crear_producto producto db))
  end.

(** [@app.get("/productos", response_model=list[ProductoResponse])] *)
Definition GET_productos (q : Query) (db : DB)
  : Response (list ProductoResponse.t) * DB :=
  match int_error "skip" (default 0 (skip q))
        ++ int_error "limit" (default 100 (limit q)) with
  | [] =>
      render (forallb ProductoResponse_json)
             (respond 200 (validate_list ProductoResponse_validate)
                      (listar_productos (default 0 (skip q))
                                        (default 100 (limit q)) db))
  | errors => (UnprocessableEntity errors, db)
  end.

(** [@app.get("/productos/{producto_id}", response_model=ProductoResponse)] *)
Definition GET_producto (producto_id : Z) (db : DB)
  : Response ProductoResponse.t * DB :=
  match int_error "producto_id" producto_id with
  | [] =>
      render ProductoResponse_json
             (respond 200 ProductoResponse_validate
                      (obtener_producto producto_id db))
  | errors => (UnprocessableEntity errors, db)
  end.

(** [@app.put("/productos/{producto_id}", response_model=ProductoResponse)] *)
Definition PUT_producto (producto_id : Z) (body : ProductoJSON.t) (db : DB)
  : Response ProductoResponse.t * DB :=
  match validate_ProductoUpdate body with
  | inl errors =>
      (request_validation_error (ProductoUpdate_echo body)
         (int_error "producto_id" producto_id ++ errors), db)
  | inr producto =>
      match int_error "producto_id" producto_id with
      | [] =>
          render ProductoResponse_json
                 (respond 200 ProductoResponse_validate
                          (actualizar_producto producto_id producto db))
      | errors => (UnprocessableEntity errors, db)
      end
  end.

(** [@app.delete("/productos/{producto_id}", status_code=204)] *)
Definition DELETE_producto (producto_id : Z) (db : DB)
  : Response unit * DB :=
  match int_error "producto_id" producto_id with
  | [] => respond 204 Some (eliminar_producto producto_id db)
  | errors => (UnprocessableEntity errors, db)
  end.

(** ** The service as a transition system over the store *)

Inductive Request :=
| Post_clientes (body : ClienteJSON.t)
| Get_clientes (q : Query)
| Get_cliente (cliente_id : Z)
| Put_cliente (cliente_id : Z) (body : ClienteJSON.t)
| Delete_cliente (cliente_id : Z)
| Post_domicilios (cliente_id : Z) (body : DomicilioJSON.t)
| Get_domicilios (cliente_id : Z) (q : Query)
| Get_domicilio (domicilio_id : Z)
| Put_domicilio (domicilio_id : Z) (body : DomicilioJSON.t)
| Delete_domicilio (domicilio_id : Z)
| Post_productos (body : ProductoJSON.t)
| Get_productos (q : Query)
| Get_producto (producto_id : Z)
| Put_producto (producto_id : Z) (body : ProductoJSON.t)
| Delete_producto (producto_id : Z).

Definition outcome {A} (r : Response A * DB) : Z * DB :=
  (status_code (fst r), snd r).

(** Status code and store after one request. *)
Definition app (r : Request) (db : DB) : Z * DB :=
  match r with
  | Post_clientes body => outcome (POST_clientes body db)
  | Get_clientes q => outcome (GET_clientes q db)
  | Get_cliente i => outcome (GET_cliente i db)
  | Put_cliente i body => outcome (PUT_cliente i body db)
  | Delete_cliente i => outcome (DELETE_cliente i db)
  | Post_domicilios i body => outcome (POST_domicilios i body db)
  | Get_domicilios i q => outcome (GET_domicilios i q db)
  | Get_domicilio i => outcome (GET_domicilio i db)
  | Put_domicilio i body => outcome (PUT_domicilio i body db)
  | Delete_domicilio i => outcome (DELETE_domicilio i db)
  | Post_productos body => outcome (POST_productos body db)
  | Get_productos q => outcome (GET_productos q db)
  | Get_producto i => outcome (GET_producto i db)
  | Put_producto i body => outcome (PUT_producto i body db)
  | Delete_producto i => outcome (DELETE_producto i db)
  end.

(** The store after a sequence of requests. *)
Definition serve (rs : list Request) (db : DB) : DB :=
  fold_left (fun db r => snd (app r db)) rs db.

(** A store the service can be in: the empty tables of [create_all] followed
    by any requests. *)
Definition reachable (db : DB) : Prop :=
  exists rs, serve rs empty_db = db.

End Routes.

(* ================================================================== *)
(** * app/metrics.py *)

(** The exceptions of the AWS client library that matter here. Only
    [ClientError] is the class the recorders catch; the others derive from
    [BotoCoreError], a sibling of [ClientError] under [Exception]. *)
Inductive Exception :=
| ClientError               (* the service answered with an error *)
| NoCredentialsError        (* no credentials could be located *)
| EndpointConnectionError   (* the endpoint could not be reached *)
| OtherException.

Definition isinstance_ClientError (e : Exception) : bool :=
  match e with
  | ClientError => true
  | NoCredentialsError | EndpointConnectionError | OtherException => false
  end.

Definition isinstance_NoCredentialsError (e : Exception) : bool :=
  match e with
  | NoCredentialsError => true
  | ClientError | EndpointConnectionError | OtherException => false
  end.

Record MetricDatum := mkDatum {
  MetricName : string;
  Dimensions : list (string * string);
  Timestamp : Z;
  Value_ : float + Z;
  Unit_ : string;
  StorageResolution : Z
}.

(** The CloudWatch client: a call either returns ([None]) or raises. *)
Record CloudWatch := mkCloudWatch {
  put_metric_data : string -> list MetricDatum -> option Exception
}.

Inductive Level := INFO | WARNING | ERROR.

Inductive Message :=
| Client_initialized (region : string)
| Credentials_not_found
| Could_not_initialize (e : Exception)
| CloudWatch_disabled
| Metric_latency (endpoint : string) (latency_ms : float) (env : string)
| Metric_http_status (endpoint : string) (status_code : Z)
                     (status_range : string) (env : string)
| Error_sending_latency (e : Exception)
| Error_sending_http_status (e : Exception).

Definition Log := list (Level * Message).

Record MetricsCollector := mkCollector {
  namespace : string;
  environment : string;
  region : string;
  cloudwatch : option CloudWatch
}.

(** [os.getenv] of the three variables the constructor reads *)
Record Environ := mkEnviron {
  AWS_ACCESS_KEY_ID : option string;
  AWS_SECRET_ACCESS_KEY : option string;
  AWS_PROFILE : option string
}.

(** Truth value of [None] or a string *)
Definition truthy (o : option string) : bool :=
  match o with
  | Some s => negb (String.eqb s "")
  | None => false
  end.

(** [x or None] *)
Definition or_None (o : option string) : option string :=
  if truthy o then o else None.

(** [MetricsCollector.__init__]; [boto3_client region key secret] stands for
    [boto3.client('cloudwatch', ...)], which returns a client or raises. *)
Definition MetricsCollector_init
  (environ : Environ)
  (boto3_client : string -> option string -> option string
                  -> Exception + CloudWatch)
  (namespace environment region : string) (log : Log)
  : MetricsCollector * Log :=
  let aws_key := AWS_ACCESS_KEY_ID environ in
  let aws_secret := AWS_SECRET_ACCESS_KEY environ in
  let aws_profile := AWS_PROFILE environ in
  if (truthy aws_key && truthy aws_secret) || truthy aws_profile then
    match boto3_client region (or_None aws_key) (or_None aws_secret) with
    | inr client =>
        (mkCollector namespace environment region (Some client),
         log ++ [(INFO, Client_initialized region)])
    | inl e =>
        (mkCollector namespace environment region None,
         log ++ [(WARNING,
                  if isinstance_NoCredentialsError e
                  then Credentials_not_found
                  else Could_not_initialize e)])
    end
  else
    (mkCollector namespace environment region None,
     log ++ [(INFO, CloudWatch_disabled)]).

Definition _get_http_status_range (status_code : Z) : string :=
  if (200 <=? status_code) && (status_code <? 300) then "2xx"
  else if (400 <=? status_code) && (status_code <? 500) then "4xx"
  else if (500 <=? status_code) && (status_code <? 600) then "5xx"
  else "other".

(** A recorder returns [None], or the exception that escapes it. [utcnow]
    is the reading of the clock for the datum's timestamp. *)
Definition record_latency (self : MetricsCollector) (utcnow : Z)
  (endpoint : string) (latency_ms : float) (log : Log)
  : option Exception * Log :=
  let dimensions :=
    [("Environment", environment self); ("Endpoint", endpoint)]%string in
  let log := log ++ [(INFO, Metric_latency endpoint latency_ms
                                           (environment self))] in
  match cloudwatch self with
  | Some cw =>
      match put_metric_data cw (namespace self)
              [mkDatum "RequestLatency" dimensions utcnow (inl latency_ms)
                       "Milliseconds" 60] with
      | None => (None, log)
      | Some e =>
          if isinstance_ClientError e
          then (None, log ++ [(ERROR, Error_sending_latency e)])
          else (Some e, log)
      end
  | None => (None, log)
  end.

Definition record_http_status (self : MetricsCollector) (utcnow : Z)
  (endpoint : string) (status_code : Z) (log : Log)
  : option Exception * Log :=
  let status_range := _get_http_status_range status_code in
  let dimensions :=
    [("Environment", environment self); ("Endpoint", endpoint);
     ("StatusRange", status_range)]%string in
  let log := log ++ [(INFO, Metric_http_status endpoint status_code
                                               status_range
                                               (environment self))] in
  match cloudwatch self with
  | Some cw =>
      match put_metric_data cw (namespace self)
              [mkDatum "HTTPStatusCount" dimensions utcnow (inr 1)
                       "Count" 60] with
      | None => (None, log)
      | Some e =>
          if isinstance_ClientError e
          then (None, log ++ [(ERROR, Error_sending_http_status e)])
          else (Some e, log)
      end
  | None => (None, log)
  end.

(** ** app/main.py: the middleware *)

Record HTTPRequest := mkRequest { method : string; path : string }.

(** [metrics_middleware]: the response of [call_next], or the exception that
    escapes the middleware. [duration] is the measured time in milliseconds
    and [utcnow] the clock read by the recorders. *)
Definition metrics_middleware {R} (metrics : MetricsCollector)
  (response_status : R -> Z) (duration : float) (utcnow : Z)
  (request : HTTPRequest) (call_next : HTTPRequest -> R) (log : Log)
  : (Exception + R) * Log :=
  let response := call_next request in
  let endpoint := (method request ++ " " ++ path request)%string in
  let status_code := response_status response in
  match record_latency metrics utcnow endpoint duration log with
  | (Some e, log1) => (inl e, log1)
  | (None, log1) =>
      match record_http_status metrics utcnow endpoint status_code log1 with
      | (Some e, log2) => (inl e, log2)
      | (None, log2) => (inr response, log2)
      end
  end.

(* ================================================================== *)
(** * app/database.py *)

(** [s.startswith(prefix)] *)
Fixpoint startswith (s prefix : str) : bool :=
  match prefix with
  | [] => true
  | p :: prefix' =>
      match s with
      | [] => false
      | c :: s' => N.eqb c p && startswith s' prefix'
      end
  end.

(** [s.replace(old, new, 1)]: the leftmost occurrence of [old] gives way to
    [new]; without an occurrence the string is returned as it is. *)
Fixpoint replace_first (old new s : str) : str :=
  if startswith s old then new ++ skipn (List.length old) s
  else
    match s with
    | [] => []
    | c :: s' => c :: replace_first old new s'
    end.

(** [os.getenv("DATABASE_URL", "sqlite:///./catalogos.db")], then the rewrite
    of the scheme; [environ] is the value of the variable, if it is set. *)
Definition DATABASE_URL (environ : option str) : str :=
  let url := default (cp "sqlite:///./catalogos.db") environ in
  if startswith url (cp "postgres://")
  then replace_first (cp "postgres://") (cp "postgresql://") url
  else url.

(** The arguments [create_engine] is called with. *)
Record Engine := mkEngine {
  engine_url : str;
  check_same_thread : option bool;   (* [connect_args], when given *)
  pool_pre_ping : bool
}.

Definition engine (environ : option str) : Engine :=
  let url := DATABASE_URL environ in
  if startswith url (cp "sqlite")
  then mkEngine url (Some false) false
  else mkEngine url None true.

(* ================================================================== *)
(** * A concrete library and the data of the test suite *)

Definition ascii_digit (c : N) : bool := ((48 <=? c) && (c <=? 57))%N.

(** A stand-in for the e-mail normaliser: an address is any string with an
    at sign (U+0040), and is its own normal form. *)
Definition simple_email (e : str) : option str :=
  if existsb (N.eqb 64) e then Some e else None.

Lemma simple_email_normal :
  forall e e', simple_email e = Some e' -> simple_email e' = Some e'.
Proof.
  unfold simple_email. intros e e' H.
  destruct (existsb (N.eqb 64) e) eqn:E; [|discriminate].
  injection H as <-. now rewrite E.
Qed.

Definition ascii_library : Library :=
  {| unicode_Nd := ascii_digit;
     unicode_Nd_ascii := fun c H => H;
     validate_email := simple_email;
     validate_email_normal := simple_email_normal;
     inf_nan_as_null := false |}.

(** [tests/test_catalogos.py]: the client, address and product the tests post *)
Definition cliente_test : ClienteJSON.t :=
  ClienteJSON.mk (Value (cp "Empresa Test SA de CV"))
                 (Value (cp "Test Company"))
                 (Value (cp "TEST123456ABC"))
                 (Value (cp "test@empresa.com"))
                 (Value (cp "5551234567")).

Definition domicilio_test : DomicilioJSON.t :=
  DomicilioJSON.mk (Value (cp "Calle Test 123"))
                   (Value (cp "Centro"))
                   (Value (cp "Guadalajara"))
                   (Value (cp "Jalisco"))
                   (Value (cp "FACTURACION")).

(** 100.50 as a binary64 *)
Definition f100_50 : float := S754_finite false 7072058789855232 (-46).

Definition producto_test : ProductoJSON.t :=
  ProductoJSON.mk (Value (cp "Producto Test")) (Value (cp "PZA"))
                  (Value f100_50).

(** The store after the three posts, and after a second address. *)
Definition db_test : DB :=
  serve (L := ascii_library)
        [Post_clientes cliente_test; Post_domicilios 1 domicilio_test;
         Post_productos producto_test]
        empty_db.

Definition db_test2 : DB :=
  serve (L := ascii_library) [Post_domicilios 1 domicilio_test] db_test.

(** 250.0 as a binary64 *)
Definition f250 : float := S754_finite false 8796093022208000 (-45).

(** A second client, with the generic tax id, after the test store. *)
Definition cliente_otro : ClienteJSON.t :=
  ClienteJSON.mk (Value (cp "Otra Empresa SA de CV"))
                 (Value (cp "Otra"))
                 (Value (cp "XAXX010101000"))
                 (Value (cp "otra@empresa.com"))
                 (Value (cp "5557654321")).

Definition db_test3 : DB :=
  serve (L := ascii_library) [Post_clientes cliente_otro] db_test.

(** Three more products after the test store. *)
Definition db_test4 : DB :=
  serve (L := ascii_library)
        [Post_productos producto_test; Post_productos producto_test;
         Post_productos producto_test]
        db_test.

(** A collector whose sink cannot be reached, and the health request. *)
Definition unreachable_sink : CloudWatch :=
  mkCloudWatch (fun _ _ => Some EndpointConnectionError).

Definition metrics_test : MetricsCollector :=
  mkCollector "CatalogosAPI" "local" "us-east-1" (Some unreachable_sink).

Definition health_request : HTTPRequest := mkRequest "GET" "/health".

(* ================================================================== *)
(** * Notions used by the statements *)

(** What holds of the [clientes] and [domicilios] tables in every store the
    service builds: the primary key and the tax id of a client are unique,
    no column of a client is null, and the [cliente_id] of an address is the
    id of a client. *)
Record db_ok (db : DB) : Prop := mk_db_ok {
  pk_clientes : NoDup (map Cliente.id (clientes db));
  not_null_clientes :
    Forall (fun c => Cliente_not_null c = true) (clientes db);
  unique_rfc : NoDup (map Cliente.rfc (clientes db));
  fk_cliente_id :
    forall d, In d (domicilios db) ->
              In (Domicilio.cliente_id d) (map Cliente.id (clientes db))
}.

(** The value of a column after a partial update: the old value when the
    body left the field unset, the supplied value otherwise. *)
Definition merged {A} (f : field A) (old : option A) : option A :=
  match f with
  | Unset => old
  | Set_to v => v
  end.

(** The body did not set the field to [null]. *)
Definition not_null {A} (f : field A) : Prop := f <> Set_to None.

(** The row a partial update is to leave in the table: every column merged,
    the keys untouched. *)
Definition Cliente_merged (u : ClienteUpdate.t) (c : Cliente.t) : Cliente.t :=
  Cliente.mk (Cliente.id c)
    (merged (ClienteUpdate.razon_social u) (Cliente.razon_social c))
    (merged (ClienteUpdate.nombre_comercial u) (Cliente.nombre_comercial c))
    (merged (ClienteUpdate.rfc u) (Cliente.rfc c))
    (merged (ClienteUpdate.correo_electronico u)
            (Cliente.correo_electronico c))
    (merged (ClienteUpdate.telefono u) (Cliente.telefono c)).

Definition Domicilio_merged (u : DomicilioUpdate.t) (d : Domicilio.t)
  : Domicilio.t :=
  Domicilio.mk (Domicilio.id d)
    (merged (DomicilioUpdate.domicilio u) (Domicilio.domicilio d))
    (merged (DomicilioUpdate.colonia u) (Domicilio.colonia d))
    (merged (DomicilioUpdate.municipio u) (Domicilio.municipio d))
    (merged (DomicilioUpdate.estado u) (Domicilio.estado d))
    (merged (DomicilioUpdate.tipo_direccion u) (Domicilio.tipo_direccion d))
    (Domicilio.cliente_id d).

Definition Producto_merged (u : ProductoUpdate.t) (p : Producto.t)
  : Producto.t :=
  Producto.mk (Producto.id p)
    (merged (ProductoUpdate.nombre u) (Producto.nombre p))
    (merged (ProductoUpdate.unidad_medida u) (Producto.unidad_medida p))
    (merged (ProductoUpdate.precio_base u) (Producto.precio_base p)).

(** The zero a price is compared with. *)
Definition zero : float := S754_zero false.

(** A table in good order: the primary key is unique and a rowid, from 1 to
    2^63 - 1, and every row satisfies [P]. *)
Definition table_ok {A} (id_of : A -> Z) (P : A -> Prop) (rows : list A)
  : Prop :=
  NoDup (map id_of rows) /\
  (forall r, In r rows -> 1 <= id_of r < 2 ^ 63) /\
  Forall P rows.

Section Notions.
Context {L : Library}.

(** A stored client passes every check of [ClienteUpdate], that is all of
    [ClienteBase] but the pattern of the tax id, and its e-mail address is in
    normal form. *)
Definition Cliente_stored_ok (c : Cliente.t) : Prop :=
  attribute (check_length 1 255) (Cliente.razon_social c) <> None /\
  attribute (check_length 1 255) (Cliente.nombre_comercial c) <> None /\
  attribute check_rfc_update (Cliente.rfc c) <> None /\
  (exists e, Cliente.correo_electronico c = Some e /\
             validate_email e = Some e) /\
  attribute (check_length 10 20) (Cliente.telefono c) <> None.

(** The store in good order: the constraints of [db_ok], the three tables in
    good order, every address and every product fit for its response
    model. *)
Definition db_wf (db : DB) : Prop :=
  db_ok db /\
  table_ok Cliente.id Cliente_stored_ok (clientes db) /\
  table_ok Domicilio.id (fun d => DomicilioResponse_validate d <> None)
           (domicilios db) /\
  table_ok Producto.id (fun p => ProductoResponse_validate p <> None)
           (productos db).

(** The requests that only read. *)
Definition is_read (r : Request) : bool :=
  match r with
  | Get_clientes _ | Get_cliente _ | Get_domicilios _ _ | Get_domicilio _
  | Get_productos _ | Get_producto _ => true
  | _ => false
  end.

End Notions.

(** What a pattern denotes: the strings that split into one run per atom, of
    a length within the bounds of the atom and of characters of its
    class. *)
Inductive rx_matches : list rx_atom -> str -> Prop :=
| rx_matches_end : rx_matches [] []
| rx_matches_rep : forall a r w rest,
    (rx_min a <= List.length w <= rx_max a)%nat ->
    Forall (fun c => rx_class a c = true) w ->
    rx_matches r rest ->
    rx_matches (a :: r) (w ++ rest).

(** A field of a validated update, when set to a value, passes [check]. *)
Definition field_ok {B C} (check : B -> option C) (f : field B) : Prop :=
  forall b, f = Set_to (Some b) -> check b <> None.

(** A handler changes the store only when it returns. *)
Definition returns_or_keeps {A} (db : DB) (r : Outcome A * DB) : Prop :=
  (exists a, fst r = Return a) \/ snd r = db.


(* ================================================================== *)
(** * Properties *)

Unset Implicit Arguments.

(** ** Strings, lookups and pagination *)

Lemma str_eqb_eq : forall s t, str_eqb s t = true <-> s = t.
Proof.
  induction s as [|a s IH]; destruct t as [|b t]; simpl; split;
    try discriminate; try reflexivity.
  - intros H. apply andb_true_iff in H as [Hab Hst].
    apply N.eqb_eq in Hab. apply IH in Hst. congruence.
  - intros H. injection H as -> ->.
    apply andb_true_iff. split; [apply N.eqb_refl | now apply IH].
Qed.

Lemma str_eqb_refl : forall s, str_eqb s s = true.
Proof. intros s. now apply str_eqb_eq. Qed.

Section Lookup.
Variable A : Type.
Variable id_of : A -> Z.

Lemma row_by_id_absent : forall i rows,
  ~ In i (map id_of rows) -> row_by_id id_of i rows = None.
Proof.
  intros i rows. induction rows as [|r rows IH]; simpl; intros H.
  - reflexivity.
  - destruct (id_of r =? i) eqn:E.
    + apply Z.eqb_eq in E. exfalso. apply H. now left.
    + apply IH. intros Hin. apply H. now right.
Qed.

Lemma row_by_id_found : forall i rows r,
  row_by_id id_of i rows = Some r -> In r rows /\ id_of r = i.
Proof.
  intros i rows r H. apply find_some in H as [Hin E].
  apply Z.eqb_eq in E. now split.
Qed.

Lemma row_by_id_present : forall i rows,
  In i (map id_of rows) -> exists r, row_by_id id_of i rows = Some r.
Proof.
  intros i rows Hin.
  destruct (row_by_id id_of i rows) as [r|] eqn:E; [now exists r|].
  exfalso. apply in_map_iff in Hin as [r [Hr Hin]].
  unfold row_by_id in E.
  apply (find_none _ _ E) in Hin. simpl in Hin.
  rewrite Hr, Z.eqb_refl in Hin. discriminate.
Qed.

Lemma first_by_id_int64 : forall i rows,
  int64 i = true -> first_by_id id_of i rows = inr (row_by_id id_of i rows).
Proof. intros i rows H. unfold first_by_id. now rewrite H. Qed.

Lemma first_by_id_overflow : forall i rows,
  int64 i = false -> first_by_id id_of i rows = inl OverflowError.
Proof. intros i rows H. unfold first_by_id. now rewrite H. Qed.

Lemma first_by_id_inr : forall i rows o,
  first_by_id id_of i rows = inr o ->
  int64 i = true /\ row_by_id id_of i rows = o.
Proof.
  intros i rows o H. unfold first_by_id in H.
  destruct (int64 i); [|discriminate]. injection H as <-. now split.
Qed.

Lemma offset_limit_spec : forall (rows : list A) offset limit,
  0 <= offset -> 0 <= limit ->
  offset_limit offset limit rows
  = firstn (Z.to_nat limit) (skipn (Z.to_nat offset) rows).
Proof.
  induction rows as [|r rows IH]; intros offset limit Ho Hl; simpl.
  - now rewrite skipn_nil, firstn_nil.
  - destruct (limit =? 0) eqn:E0.
    + apply Z.eqb_eq in E0. subst limit. reflexivity.
    + apply Z.eqb_neq in E0. destruct (0 <? offset) eqn:Eo.
      * apply Z.ltb_lt in Eo. rewrite IH by lia.
        replace (Z.to_nat offset) with (S (Z.to_nat (offset - 1))) by lia.
        reflexivity.
      * apply Z.ltb_ge in Eo. assert (offset = 0) by lia. subst offset.
        rewrite IH by lia. simpl.
        replace (Z.to_nat limit) with (S (Z.to_nat (limit - 1))) by lia.
        reflexivity.
Qed.

Lemma offset_limit_length : forall (rows : list A) offset limit,
  0 <= offset -> 0 <= limit ->
  Z.of_nat (List.length (offset_limit offset limit rows)) <= limit.
Proof.
  intros rows offset limit Ho Hl. rewrite offset_limit_spec by assumption.
  pose proof (firstn_le_length (Z.to_nat limit)
                               (skipn (Z.to_nat offset) rows)). lia.
Qed.

End Lookup.

(** ** The status buckets of the metrics collector *)

(** C10. [_get_http_status_range] is defined on every integer and its result
    is one of the four labels; each label is returned on exactly its range:
    "2xx" on 200..299, "4xx" on 400..499, "5xx" on 500..599, and "other"
    on everything else, that is below 200, on 300..399 and from 600 on. *)
Theorem http_status_range_total : forall status_code : Z,
  In (_get_http_status_range status_code)
     ["2xx"; "4xx"; "5xx"; "other"]%string /\
  (_get_http_status_range status_code = "2xx"%string
   <-> 200 <= status_code < 300) /\
  (_get_http_status_range status_code = "4xx"%string
   <-> 400 <= status_code < 500) /\
  (_get_http_status_range status_code = "5xx"%string
   <-> 500 <= status_code < 600) /\
  (_get_http_status_range status_code = "other"%string
   <-> status_code < 200 \/ 300 <= status_code < 400 \/ 600 <= status_code).
Proof.
  intros c. unfold _get_http_status_range.
  repeat match goal with
         | |- context [?a <=? ?b] => destruct (Z.leb_spec a b); simpl
         | |- context [?a <? ?b] => destruct (Z.ltb_spec a b); simpl
         end;
    (split; [simpl; auto 6|]);
    repeat split; intros; try discriminate; try lia.
Qed.

(** ** Deleting rows *)

Lemma delete_by_id_In : forall A (id_of : A -> Z) i rows r,
  In r (delete_by_id id_of i rows) <-> In r rows /\ id_of r <> i.
Proof.
  intros A id_of i rows r. unfold delete_by_id. rewrite filter_In.
  rewrite negb_true_iff, Z.eqb_neq. reflexivity.
Qed.

Lemma delete_each_In : forall A (id_of : A -> Z) loaded rows r,
  In r (fold_left (fun rows d => delete_by_id id_of (id_of d) rows)
                  loaded rows)
  <-> In r rows /\ ~ In (id_of r) (map id_of loaded).
Proof.
  intros A id_of loaded.
  induction loaded as [|d loaded IH]; intros rows r; simpl.
  - tauto.
  - rewrite IH, delete_by_id_In. intuition congruence.
Qed.

Lemma delete_Cliente_domicilios : forall c db d,
  In d (domicilios (delete_Cliente c db)) ->
  In d (domicilios db) /\ Domicilio.cliente_id d <> Cliente.id c.
Proof.
  intros c db d. unfold delete_Cliente. simpl. rewrite delete_each_In.
  intros [Hin Hnot]. split; [assumption|]. intros Heq. apply Hnot.
  apply in_map. apply filter_In. split; [assumption|].
  now apply Z.eqb_eq.
Qed.

Lemma attribute_some : forall A B (check : A -> option B) a b,
  attribute check a = Some b -> is_none a = false.
Proof.
  intros A B check [x|] b H; [reflexivity | discriminate].
Qed.

(** Case analysis on the attributes a response model reads, in a hypothesis
    that says the model was built. *)
Ltac built H :=
  repeat match type of H with
         | match ?x with Some _ => _ | None => _ end = _ =>
             destruct x; [|discriminate]
         end.

(** The binding of an id to a query: in range, or the handler raises. *)
Ltac bound i :=
  unfold first_by_id; destruct (int64 i) eqn:?; cbv beta iota.

(** The rowid of an insert: in range, or the insert fails. *)
Ltac rowid :=
  match goal with
  | |- context [int64 ?x] => destruct (int64 x) eqn:?
  end.

Lemma snd_render : forall B (json : B -> bool) (r : Response B * DB),
  snd (render json r) = snd r.
Proof.
  intros B json [[s c|s d|d|e] db]; unfold render; simpl;
    try reflexivity.
  now destruct (json c).
Qed.

Lemma int64_spec : forall i, int64 i = true <-> - 2 ^ 63 <= i < 2 ^ 63.
Proof.
  intros i. unfold int64. rewrite andb_true_iff, Z.leb_le, Z.ltb_lt.
  reflexivity.
Qed.

(** ** The text of an integer *)

Lemma of_uint_acc_ge : forall d acc,
  Z.pos acc * 10 ^ Z.of_nat (Decimal.nb_digits d)
  <= Z.pos (Pos.of_uint_acc d acc).
Proof.
  induction d as [|d IH|d IH|d IH|d IH|d IH|d IH|d IH|d IH|d IH|d IH];
    intros acc; cbn [Pos.of_uint_acc Decimal.nb_digits];
    [simpl; lia| | | | | | | | | |];
    rewrite Nat2Z.inj_succ, Z.pow_succ_r by lia;
    (eapply Z.le_trans; [|apply IH]);
    assert (0 < 10 ^ Z.of_nat (Decimal.nb_digits d))
      by (apply Z.pow_pos_nonneg; lia);
    nia.
Qed.

(** The decimal text of a positive number has no leading zero. *)
Lemma to_uint_head : forall p,
  10 ^ (Z.of_nat (Decimal.nb_digits (Pos.to_uint p)) - 1) <= Z.pos p.
Proof.
  intros p.
  pose proof (DecimalPos.Unsigned.of_to p) as Hof.
  pose proof (DecimalPos.Unsigned.to_of (Pos.to_uint p)) as Hto.
  rewrite Hof in Hto. simpl in Hto.
  pose proof (DecimalPos.Unsigned.to_uint_nonzero p) as Hnz.
  assert (Hhead : Decimal.nzhead (Pos.to_uint p) = Pos.to_uint p).
  { rewrite Hto at 2. symmetry. apply DecimalFacts.unorm_nzhead.
    intros E. apply Hnz. rewrite Hto. now apply DecimalFacts.unorm_0. }
  pose proof (DecimalFacts.nzhead_nonzero (Pos.to_uint p)) as H0.
  rewrite Hhead in H0.
  destruct (Pos.to_uint p) as [|d|d|d|d|d|d|d|d|d|d] eqn:E;
    [discriminate Hof | now elim (H0 d) | | | | | | | | |];
    cbn [Pos.of_uint] in Hof; injection Hof as <-;
    cbn [Decimal.nb_digits]; rewrite Nat2Z.inj_succ;
    replace (Z.succ (Z.of_nat (Decimal.nb_digits d)) - 1)
      with (Z.of_nat (Decimal.nb_digits d)) by lia;
    (eapply Z.le_trans; [|apply of_uint_acc_ge]);
    assert (0 < 10 ^ Z.of_nat (Decimal.nb_digits d))
      by (apply Z.pow_pos_nonneg; lia);
    nia.
Qed.

(** An integer below 10^n in absolute value has a text of at most n
    characters, and a sign. *)
Lemma text_length_bound : forall i n,
  0 <= n -> Z.abs i < 10 ^ n -> Z.of_nat (text_length i) <= n + 1.
Proof.
  intros i n Hn Hi. unfold text_length.
  assert (Hp : forall p, Z.pos p < 10 ^ n ->
                         Z.of_nat (Decimal.nb_digits (Pos.to_uint p)) <= n).
  { intros p Hlt. pose proof (to_uint_head p) as Hh.
    assert (Hpow : 10 ^ (Z.of_nat (Decimal.nb_digits (Pos.to_uint p)) - 1)
                   < 10 ^ n) by lia.
    apply Z.pow_lt_mono_r_iff in Hpow; lia. }
  destruct i as [|p|p]; simpl.
  - lia.
  - specialize (Hp p Hi). lia.
  - specialize (Hp p Hi). lia.
Qed.

(** An integer that fits 64 bits has a text of at most 20 characters: the
    validation reads it. *)
Lemma int_parsing_int64 : forall i, int64 i = true -> int_parsing i = true.
Proof.
  intros i H. apply int64_spec in H.
  unfold int_parsing. apply Nat.leb_le.
  assert (Hb : Z.of_nat (text_length i) <= 19 + 1)
    by (apply text_length_bound; lia).
  lia.
Qed.

Lemma int_error_parsing : forall loc i,
  int_parsing i = true -> int_error loc i = [].
Proof.
  intros loc i H. unfold int_error. now rewrite H.
Qed.

Lemma int_error_int64 : forall loc i, int64 i = true -> int_error loc i = [].
Proof.
  intros loc i H. apply int_error_parsing. now apply int_parsing_int64.
Qed.

Lemma int_error_size : forall loc i,
  int_parsing i = false -> int_error loc i = [loc].
Proof.
  intros loc i H. unfold int_error. now rewrite H.
Qed.

(** The reading of the parameters that fit 64 bits. *)
Ltac path :=
  repeat match goal with
         | H : int64 ?i = true |- context [int_error ?loc ?i] =>
             rewrite (int_error_int64 loc i H)
         | H : int_parsing ?i = true |- context [int_error ?loc ?i] =>
             rewrite (int_error_parsing loc i H)
         end;
  cbv iota.

(** Case analysis on the reading of the parameters. *)
Ltac parsing :=
  unfold int_error;
  repeat match goal with
         | |- context [int_parsing ?i] => destruct (int_parsing i) eqn:?
         end;
  cbn [Datatypes.app]; cbv iota.

(** A hypothesis on the answer of a route that has read its parameters. *)
Ltac parsed H :=
  match type of H with
  | context [int_error ?loc ?i] =>
      let E := fresh "Hparsed" in
      destruct (int_error loc i) eqn:E; [|discriminate H]
  end.

Ltac built_not_null H :=
  repeat match type of H with
         | match attribute ?f ?x with Some _ => _ | None => _ end = _ =>
             let E := fresh "E" in
             destruct (attribute f x) eqn:E; [|discriminate];
             apply attribute_some in E; rewrite E
         end.

Section Properties.
Context {L : Library}.

(** ** Reading a row that does not exist *)

(** C7, as the code has it. For each of the three resources, fetching an id
    that fits 64 bits and that no row of the table has answers 404 with the
    short message of the resource, and leaves the store as it was. An id
    beyond 64 bits, which no row can have, is refused by the driver when the
    query is run: the answer is the 500 of an unhandled [OverflowError],
    and the store is left as it was too. An id whose text is too long to be
    read does not reach the handler: the answer is a 422 that names the
    parameter. *)
Theorem obtener_inexistente_404 : forall (db : DB) (i : Z),
  (int64 i = true ->
   (~ In i (map Cliente.id (clientes db)) ->
    GET_cliente i db = (ErrorResponse 404 "Cliente no encontrado", db)) /\
   (~ In i (map Domicilio.id (domicilios db)) ->
    GET_domicilio i db
    = (ErrorResponse 404 "Domicilio no encontrado", db)) /\
   (~ In i (map Producto.id (productos db)) ->
    GET_producto i db
    = (ErrorResponse 404 "Producto no encontrado", db))) /\
  (int64 i = false -> int_parsing i = true ->
   GET_cliente i db = (InternalServerError OverflowError, db) /\
   GET_domicilio i db = (InternalServerError OverflowError, db) /\
   GET_producto i db = (InternalServerError OverflowError, db)) /\
  (int_parsing i = false ->
   GET_cliente i db = (UnprocessableEntity ["cliente_id"%string], db) /\
   GET_domicilio i db = (UnprocessableEntity ["domicilio_id"%string], db) /\
   GET_producto i db = (UnprocessableEntity ["producto_id"%string], db)).
Proof.
  intros db i. split; [|split].
  - intros Hi. split; [|split]; intros H.
    + unfold GET_cliente, obtener_cliente. path.
      now rewrite first_by_id_int64, (row_by_id_absent _ _ _ _ H).
    + unfold GET_domicilio, obtener_domicilio. path.
      now rewrite first_by_id_int64, (row_by_id_absent _ _ _ _ H).
    + unfold GET_producto, obtener_producto. path.
      now rewrite first_by_id_int64, (row_by_id_absent _ _ _ _ H).
  - intros Hi Hp. split; [|split].
    + unfold GET_cliente, obtener_cliente. path.
      now rewrite first_by_id_overflow.
    + unfold GET_domicilio, obtener_domicilio. path.
      now rewrite first_by_id_overflow.
    + unfold GET_producto, obtener_producto. path.
      now rewrite first_by_id_overflow.
  - intros Hp. unfold GET_cliente, GET_domicilio, GET_producto.
    now rewrite !int_error_size by assumption.
Qed.

(** ** Deleting a client *)

(** C5. Deleting a client that is in the store answers 204; afterwards the
    client is gone and no address whose [cliente_id] is the client's id
    remains. Nothing is added to the addresses and the products are left as
    they were. The id of a stored client is a rowid, which fits 64 bits. *)
Theorem eliminar_cliente_cascada : forall (db : DB) (i : Z),
  int64 i = true ->
  In i (map Cliente.id (clientes db)) ->
  exists db',
    DELETE_cliente i db = (JSONResponse 204 tt, db') /\
    ~ In i (map Cliente.id (clientes db')) /\
    (forall d, In d (domicilios db') -> Domicilio.cliente_id d <> i) /\
    incl (domicilios db') (domicilios db) /\
    productos db' = productos db.
Proof.
  intros db i Hi Hin.
  destruct (row_by_id_present _ Cliente.id i (clientes db) Hin) as [c Hc].
  destruct (row_by_id_found _ _ _ _ _ Hc) as [_ Hid].
  exists (delete_Cliente c db).
  unfold DELETE_cliente, eliminar_cliente. path.
  rewrite first_by_id_int64 by assumption. rewrite Hc.
  split; [reflexivity|]. split; [|split; [|split]].
  - simpl. intros Hi'. apply in_map_iff in Hi' as [c' [Hc' Hin']].
    apply delete_by_id_In in Hin' as [_ Hne]. congruence.
  - intros d Hd. apply delete_Cliente_domicilios in Hd. now rewrite <- Hid.
  - intros d Hd. now apply delete_Cliente_domicilios in Hd.
  - reflexivity.
Qed.

(** ** The constraints of the store are invariant *)

Create HintDb catalogo.

Lemma next_id_fresh : forall ids, ~ In (next_id ids) ids.
Proof.
  intros ids Hin.
  assert (Hle : forall x, In x ids -> x <= fold_right Z.max 0 ids).
  { clear Hin. induction ids as [|y ids IH]; simpl; intros x [].
    - subst. lia.
    - specialize (IH x H). lia. }
  apply Hle in Hin. unfold next_id in Hin. lia.
Qed.

Lemma NoDup_map_filter : forall A B (f : A -> B) (p : A -> bool) l,
  NoDup (map f l) -> NoDup (map f (filter p l)).
Proof.
  intros A B f p l. induction l as [|a l IH]; simpl; intros H.
  - constructor.
  - apply NoDup_cons_iff in H as [Hnot Hl]. destruct (p a); simpl; auto.
    constructor; auto. intros Hin. apply Hnot.
    apply in_map_iff in Hin as [b [Hb Hin]]. apply filter_In in Hin as [Hin _].
    rewrite <- Hb. now apply in_map.
Qed.

Lemma NoDup_map_snoc : forall A B (f : A -> B) l a,
  NoDup (map f l) -> ~ In (f a) (map f l) -> NoDup (map f (l ++ [a])).
Proof.
  intros A B f l a Hl Ha. rewrite map_app. apply NoDup_app; simpl; auto.
  - constructor; [tauto | constructor].
  - intros b Hb [Heq|[]]. subst b. contradiction.
Qed.

Lemma update_by_id_ids : forall A (id_of : A -> Z) r rows,
  map id_of (update_by_id id_of r rows) = map id_of rows.
Proof.
  intros A id_of r rows. unfold update_by_id. rewrite map_map.
  apply map_ext. intros x. destruct (id_of x =? id_of r) eqn:E; auto.
  apply Z.eqb_eq in E. congruence.
Qed.

Lemma update_by_id_In : forall A (id_of : A -> Z) r rows x,
  In x (update_by_id id_of r rows) ->
  x = r \/ (In x rows /\ id_of x <> id_of r).
Proof.
  intros A id_of r rows x Hin. unfold update_by_id in Hin.
  apply in_map_iff in Hin as [y [Hy Hin]].
  destruct (id_of y =? id_of r) eqn:E.
  - now left.
  - right. subst y. apply Z.eqb_neq in E. now split.
Qed.

Lemma update_by_id_absent : forall A (id_of : A -> Z) r rows,
  ~ In (id_of r) (map id_of rows) -> update_by_id id_of r rows = rows.
Proof.
  intros A id_of r rows. induction rows as [|x rows IH]; simpl; intros H.
  - reflexivity.
  - destruct (id_of x =? id_of r) eqn:E.
    + apply Z.eqb_eq in E. exfalso. apply H. now left.
    + f_equal. apply IH. tauto.
Qed.

Lemma setattr_Cliente_id : forall items c,
  Cliente.id (fold_left setattr_Cliente items c) = Cliente.id c.
Proof.
  induction items as [|kv items IH]; intros c; simpl; [reflexivity|].
  rewrite IH. now destruct kv.
Qed.

Lemma setattr_Domicilio_ids : forall items d,
  Domicilio.id (fold_left setattr_Domicilio items d) = Domicilio.id d /\
  Domicilio.cliente_id (fold_left setattr_Domicilio items d)
  = Domicilio.cliente_id d.
Proof.
  induction items as [|kv items IH]; intros d; simpl; [now split|].
  destruct (IH (setattr_Domicilio d kv)) as [-> ->]. now destruct kv.
Qed.

Lemma setattr_Producto_id : forall items p,
  Producto.id (fold_left setattr_Producto items p) = Producto.id p.
Proof.
  induction items as [|kv items IH]; intros p; simpl; [reflexivity|].
  rewrite IH. now destruct kv.
Qed.

(** Two rows that pass the null check and do not clash hold different tax
    ids. *)
Lemma same_rfc_false : forall a b,
  Cliente_not_null a = true -> same_rfc a b = false ->
  Cliente.rfc b <> Cliente.rfc a.
Proof.
  intros a b Ha Hs Heq. unfold same_rfc in Hs. rewrite Heq in Hs.
  unfold Cliente_not_null in Ha.
  destruct (Cliente.rfc a) as [x|].
  - now rewrite str_eqb_refl in Hs.
  - rewrite !andb_true_iff in Ha. simpl in Ha. intuition discriminate.
Qed.

Lemma unique_rfc_update : forall c rows,
  NoDup (map Cliente.id rows) -> NoDup (map Cliente.rfc rows) ->
  (forall r, In r rows -> Cliente.id r <> Cliente.id c ->
             Cliente.rfc r <> Cliente.rfc c) ->
  NoDup (map Cliente.rfc (update_by_id Cliente.id c rows)).
Proof.
  intros c rows. induction rows as [|r rows IH]; simpl; intros Hid Hrfc Hc.
  - constructor.
  - apply NoDup_cons_iff in Hid as [Hid1 Hid2].
    apply NoDup_cons_iff in Hrfc as [Hrfc1 Hrfc2].
    destruct (Cliente.id r =? Cliente.id c) eqn:E.
    + apply Z.eqb_eq in E. rewrite update_by_id_absent by congruence.
      constructor; [|assumption]. intros Hin.
      apply in_map_iff in Hin as [r' [Heq Hin]].
      apply (Hc r'); [now right | | assumption].
      intros Heq'. apply Hid1. rewrite E, <- Heq'. now apply in_map.
    + apply Z.eqb_neq in E. constructor.
      * intros Hin. apply in_map_iff in Hin as [r' [Heq Hin]].
        apply update_by_id_In in Hin as [->|[Hin _]].
        -- apply (Hc r); [now left | assumption | now symmetry].
        -- apply Hrfc1. rewrite <- Heq. now apply in_map.
      * apply IH; auto.
Qed.

Lemma db_ok_same : forall db db',
  clientes db' = clientes db -> domicilios db' = domicilios db ->
  db_ok db -> db_ok db'.
Proof.
  intros db db' Hc Hd [H1 H2 H3 H4].
  constructor; rewrite ?Hc, ?Hd; assumption.
Qed.

Lemma crear_cliente_ok : forall cliente db,
  db_ok db -> db_ok (snd (crear_cliente cliente db)).
Proof.
  intros cliente db Hok. unfold crear_cliente, insert_Cliente.
  set (c := Cliente_new _ cliente).
  destruct (Cliente_not_null c && _) eqn:E; simpl; [|assumption].
  rowid; simpl; [|assumption].
  apply andb_true_iff in E as [Hnn Hex]. apply negb_true_iff in Hex.
  destruct Hok as [H1 H2 H3 H4]. constructor; simpl.
  - apply NoDup_map_snoc; [assumption|]. apply next_id_fresh.
  - apply Forall_app. split; [assumption|]. now constructor.
  - apply NoDup_map_snoc; [assumption|]. intros Hin.
    apply in_map_iff in Hin as [r [Heq Hin]].
    apply (same_rfc_false c r); [assumption| |assumption].
    destruct (same_rfc c r) eqn:Es; [|reflexivity].
    rewrite <- Hex. symmetry. apply existsb_exists. now exists r.
  - intros d Hd. rewrite map_app. apply in_or_app. left. now apply H4.
Qed.

Lemma actualizar_cliente_ok : forall i cliente db,
  db_ok db -> db_ok (snd (actualizar_cliente i cliente db)).
Proof.
  intros i cliente db Hok. unfold actualizar_cliente.
  bound i; [|assumption].
  destruct (row_by_id Cliente.id i (clientes db)) as [c0|] eqn:E0;
    [|assumption].
  set (c := fold_left setattr_Cliente _ c0). unfold update_Cliente.
  destruct (Cliente_not_null c && _) eqn:E; simpl; [|assumption].
  apply andb_true_iff in E as [Hnn Hex]. apply negb_true_iff in Hex.
  destruct Hok as [H1 H2 H3 H4]. constructor; simpl.
  - now rewrite update_by_id_ids.
  - apply Forall_forall. intros x Hx.
    apply update_by_id_In in Hx as [->|[Hx _]]; [assumption|].
    now apply (proj1 (Forall_forall _ _) H2).
  - apply unique_rfc_update; try assumption. intros r Hr Hne.
    apply same_rfc_false; [assumption|].
    destruct (same_rfc c r) eqn:Es; [|reflexivity].
    rewrite <- Hex. symmetry. apply existsb_exists. exists r.
    split; [assumption|]. rewrite Es, andb_true_r.
    now apply negb_true_iff, Z.eqb_neq.
  - intros d Hd. rewrite update_by_id_ids. now apply H4.
Qed.

Lemma eliminar_cliente_ok : forall i db,
  db_ok db -> db_ok (snd (eliminar_cliente i db)).
Proof.
  intros i db Hok. unfold eliminar_cliente.
  bound i; [|assumption].
  destruct (row_by_id Cliente.id i (clientes db)) as [c|] eqn:E0;
    [|assumption].
  destruct Hok as [H1 H2 H3 H4]. constructor.
  - simpl. now apply NoDup_map_filter.
  - simpl. apply Forall_forall. intros x Hx.
    apply delete_by_id_In in Hx as [Hx _].
    now apply (proj1 (Forall_forall _ _) H2).
  - simpl. now apply NoDup_map_filter.
  - intros d Hd. apply delete_Cliente_domicilios in Hd as [Hd Hne].
    apply H4 in Hd. apply in_map_iff in Hd as [r [Heq Hr]].
    simpl. rewrite <- Heq. apply in_map. apply delete_by_id_In.
    split; [assumption | congruence].
Qed.

Lemma crear_domicilio_ok : forall i domicilio db,
  db_ok db -> db_ok (snd (crear_domicilio i domicilio db)).
Proof.
  intros i domicilio db Hok. unfold crear_domicilio.
  bound i; [|assumption].
  destruct (row_by_id Cliente.id i (clientes db)) as [c|] eqn:E0;
    [|assumption].
  unfold insert_Domicilio. destruct (Domicilio_not_null _); [|assumption].
  rowid; [|assumption].
  destruct Hok as [H1 H2 H3 H4]. constructor; simpl; try assumption.
  intros d Hd. apply in_app_or in Hd as [Hd|[<-|[]]]; [now apply H4|].
  simpl. apply row_by_id_found in E0 as [Hc <-]. now apply in_map.
Qed.

Lemma actualizar_domicilio_ok : forall i domicilio db,
  db_ok db -> db_ok (snd (actualizar_domicilio i domicilio db)).
Proof.
  intros i domicilio db Hok. unfold actualizar_domicilio.
  bound i; [|assumption].
  destruct (row_by_id Domicilio.id i (domicilios db)) as [d0|] eqn:E0;
    [|assumption].
  unfold update_Domicilio. destruct (Domicilio_not_null _); [|assumption].
  destruct Hok as [H1 H2 H3 H4]. constructor; simpl; try assumption.
  intros d Hd. apply update_by_id_In in Hd as [->|[Hd _]]; [|now apply H4].
  destruct (setattr_Domicilio_ids (DomicilioUpdate_items domicilio) d0)
    as [_ ->].
  apply H4. now apply row_by_id_found in E0.
Qed.

Lemma eliminar_domicilio_ok : forall i db,
  db_ok db -> db_ok (snd (eliminar_domicilio i db)).
Proof.
  intros i db Hok. unfold eliminar_domicilio.
  bound i; [|assumption].
  destruct (row_by_id Domicilio.id i (domicilios db)) as [d0|] eqn:E0;
    [|assumption].
  destruct Hok as [H1 H2 H3 H4]. constructor; simpl; try assumption.
  intros d Hd. apply delete_by_id_In in Hd as [Hd _]. now apply H4.
Qed.

Lemma crear_producto_ok : forall producto db,
  db_ok db -> db_ok (snd (crear_producto producto db)).
Proof.
  intros producto db. unfold crear_producto, insert_Producto.
  destruct (Producto_not_null _); simpl; [|trivial].
  rowid; simpl; [|trivial].
  now apply db_ok_same.
Qed.

Lemma actualizar_producto_ok : forall i producto db,
  db_ok db -> db_ok (snd (actualizar_producto i producto db)).
Proof.
  intros i producto db. unfold actualizar_producto, update_Producto.
  bound i; [|trivial].
  destruct (row_by_id _ _ _); [|trivial].
  destruct (Producto_not_null _); simpl; [|trivial].
  now apply db_ok_same.
Qed.

Lemma eliminar_producto_ok : forall i db,
  db_ok db -> db_ok (snd (eliminar_producto i db)).
Proof.
  intros i db. unfold eliminar_producto.
  bound i; [|trivial].
  destruct (row_by_id _ _ _); [|trivial]. now apply db_ok_same.
Qed.

Lemma obtener_cliente_ok : forall i db,
  db_ok db -> db_ok (snd (obtener_cliente i db)).
Proof.
  intros i db. unfold obtener_cliente. bound i; [|trivial].
  now destruct (row_by_id _ _ _).
Qed.

Lemma obtener_domicilio_ok : forall i db,
  db_ok db -> db_ok (snd (obtener_domicilio i db)).
Proof.
  intros i db. unfold obtener_domicilio. bound i; [|trivial].
  now destruct (row_by_id _ _ _).
Qed.

Lemma obtener_producto_ok : forall i db,
  db_ok db -> db_ok (snd (obtener_producto i db)).
Proof.
  intros i db. unfold obtener_producto. bound i; [|trivial].
  now destruct (row_by_id _ _ _).
Qed.

#[local] Hint Resolve crear_cliente_ok actualizar_cliente_ok
  eliminar_cliente_ok obtener_cliente_ok crear_domicilio_ok
  actualizar_domicilio_ok eliminar_domicilio_ok obtener_domicilio_ok
  crear_producto_ok actualizar_producto_ok eliminar_producto_ok
  obtener_producto_ok : catalogo.

Lemma app_ok : forall r db, db_ok db -> db_ok (snd (app r db)).
Proof.
  intros r db Hok. destruct r; unfold app, outcome;
    unfold POST_clientes, GET_clientes, GET_cliente, PUT_cliente,
           DELETE_cliente, POST_domicilios, GET_domicilios, GET_domicilio,
           PUT_domicilio, DELETE_domicilio, POST_productos, GET_productos,
           GET_producto, PUT_producto, DELETE_producto;
    repeat match goal with
           | |- context [match ?v with inl _ => _ | inr _ => _ end] =>
               destruct v
           end;
    parsing;
    cbn [fst snd]; rewrite ?snd_render; unfold respond; cbn [fst snd];
    auto with catalogo;
    unfold listar_clientes, listar_domicilios, listar_productos;
    match goal with
    | |- context [if ?b then _ else _] => now destruct b
    end.
Qed.

Lemma empty_db_ok : db_ok empty_db.
Proof.
  constructor; simpl; try constructor. intros d [].
Qed.

Lemma serve_ok : forall rs db, db_ok db -> db_ok (serve rs db).
Proof.
  induction rs as [|r rs IH]; intros db Hok; simpl; [assumption|].
  apply IH. now apply app_ok.
Qed.

(** Every store the service can be in satisfies the constraints. *)
Lemma reachable_ok : forall db, reachable db -> db_ok db.
Proof.
  intros db [rs <-]. apply serve_ok, empty_db_ok.
Qed.

(** ** Addresses of a client that does not exist *)

Lemma filter_none : forall A (p : A -> bool) l,
  (forall x, In x l -> p x = false) -> filter p l = [].
Proof.
  intros A p l. induction l as [|a l IH]; simpl; intros H; [reflexivity|].
  rewrite (H a) by now left. apply IH. intros x Hx. apply H. now right.
Qed.

(** C9, as the code has it. In a store the service has built, listing the
    addresses of a client id that fits 64 bits and that no client has
    answers 200 with the empty list, not 404, whatever the query string; the
    store is left as it was. A client id beyond 64 bits is refused by the
    driver when the query is run: the answer is the 500 of an unhandled
    [OverflowError], not a 404 either, and the store is left as it was. A
    client id whose text is too long to be read is answered with a 422 that
    names the parameter. *)
Theorem listar_domicilios_cliente_inexistente :
  forall (db : DB) (i : Z) (q : Query),
  reachable db ->
  ~ In i (map Cliente.id (clientes db)) ->
  (int64 i = true -> GET_domicilios i q db = (JSONResponse 200 [], db)) /\
  (int64 i = false -> int_parsing i = true ->
   GET_domicilios i q db = (InternalServerError OverflowError, db)) /\
  (int_parsing i = false ->
   GET_domicilios i q db = (UnprocessableEntity ["cliente_id"%string], db)).
Proof.
  intros db i q Hreach Hi. apply reachable_ok in Hreach.
  unfold GET_domicilios, listar_domicilios, respond.
  split; [|split].
  - intros Hr. path. rewrite Hr. simpl.
    rewrite filter_none; [reflexivity|].
    intros d Hd. apply Z.eqb_neq. intros Heq. apply Hi. rewrite <- Heq.
    now apply (fk_cliente_id Hreach).
  - intros Hr Hp. path. now rewrite Hr.
  - intros Hp. now rewrite int_error_size.
Qed.

(** ** Tax ids *)

(** C2, as the code has it. In every store the service has built the tax ids
    of the clients are pairwise different. A create whose body passes the
    validation and whose tax id is that of a client of the store is refused
    by the unique constraint at commit: nothing is inserted, and the answer
    is the generic 500 of an unhandled [IntegrityError], not a 422. *)
Theorem rfc_unico_y_duplicado_500 :
  (forall db, reachable db -> NoDup (map Cliente.rfc (clientes db))) /\
  (forall db body cliente c,
     validate_ClienteCreate body = inr cliente ->
     In c (clientes db) ->
     Cliente.rfc c = Some (ClienteCreate.rfc cliente) ->
     POST_clientes body db = (InternalServerError IntegrityError, db)).
Proof.
  split.
  - intros db Hreach. exact (unique_rfc (reachable_ok db Hreach)).
  - intros db body cliente c Hval Hin Hrfc.
    unfold POST_clientes. rewrite Hval.
    unfold respond, crear_cliente, insert_Cliente.
    set (new := Cliente_new _ cliente).
    assert (Hex : existsb (same_rfc new) (clientes db) = true).
    { apply existsb_exists. exists c. split; [assumption|].
      unfold same_rfc. rewrite Hrfc. simpl. apply str_eqb_refl. }
    rewrite Hex, andb_false_r. reflexivity.
Qed.

(** C1. On create the pattern is enforced: a body whose tax id does not
    match it is answered with 422, with an entry for [rfc], and the store is
    left as it was; a create that passes the validation carries a tax id
    that matches. The update does not check the pattern: the body that sets
    only [rfc] to "abcdefghijkl", twelve lower-case letters, passes the
    validation of [ClienteUpdate], the handler writes it to client 1 of the
    test store, and the answer is the 500 of the response model, which does
    check the pattern, and not a 422. *)
Theorem rfc_pattern_on_create_not_on_update :
  (forall body db v,
     ClienteJSON.rfc body = Value v ->
     rx_fullmatch RFC_PATTERN v = false ->
     exists errors,
       POST_clientes body db = (UnprocessableEntity errors, db) /\
       In "rfc"%string errors) /\
  (forall body cliente,
     validate_ClienteCreate body = inr cliente ->
     rx_fullmatch RFC_PATTERN (ClienteCreate.rfc cliente) = true) /\
  (let rfc := cp "abcdefghijkl" in
   let body := ClienteJSON.mk Missing Missing (Value rfc) Missing Missing in
   rx_fullmatch RFC_PATTERN rfc = false /\
   validate_ClienteUpdate body
   = inr (ClienteUpdate.mk Unset Unset (Set_to (Some rfc)) Unset Unset) /\
   fst (PUT_cliente 1 body db_test)
   = InternalServerError ResponseValidationError /\
   map Cliente.rfc (clientes db_test) = [Some (cp "TEST123456ABC")] /\
   map Cliente.rfc (clientes (snd (PUT_cliente 1 body db_test)))
   = [Some rfc]).
Proof.
  split; [|split].
  - intros body db v Hrfc Hpat.
    assert (Hnone : required check_rfc (ClienteJSON.rfc body) = None).
    { rewrite Hrfc. simpl. unfold check_rfc, check_length.
      destruct ((12 <=? len v) && (len v <=? 13)); [|reflexivity].
      now rewrite Hpat. }
    unfold POST_clientes, validate_ClienteCreate. rewrite Hnone.
    destruct (required (check_length 1 255) (ClienteJSON.razon_social body)),
             (required (check_length 1 255)
                       (ClienteJSON.nombre_comercial body)),
             (required validate_email (ClienteJSON.correo_electronico body)),
             (required (check_length 10 20) (ClienteJSON.telefono body));
      eexists; (split; [reflexivity|]); simpl; auto.
  - intros body cliente H. unfold validate_ClienteCreate in H.
    destruct (required (check_length 1 255) (ClienteJSON.razon_social body));
      [|discriminate].
    destruct (required (check_length 1 255)
                       (ClienteJSON.nombre_comercial body));
      [|discriminate].
    destruct (required check_rfc (ClienteJSON.rfc body)) as [v|] eqn:E;
      [|discriminate].
    destruct (required validate_email (ClienteJSON.correo_electronico body));
      [|discriminate].
    destruct (required (check_length 10 20) (ClienteJSON.telefono body));
      [|discriminate].
    injection H as <-. simpl.
    destruct (ClienteJSON.rfc body) as [| |a|]; try discriminate.
    simpl in E. unfold check_rfc in E.
    destruct (check_length 12 13 a) as [s'|]; [|discriminate].
    destruct (rx_fullmatch RFC_PATTERN s') eqn:Em; [|discriminate].
    now injection E as <-.
  - cbv zeta. repeat split; vm_compute; reflexivity.
Qed.

(** ** Creating a product *)



Lemma has_json_str : forall r : raw str, has_json str_json r = true.
Proof. now intros [| |a|]. Qed.

Lemma echo_str : forall B (r : raw str) (v : option B),
  echo str_json true r v = true.
Proof. intros B [| |a|] [b|]; reflexivity. Qed.


Lemma ProductoUpdate_echo_finite : forall b,
  has_json is_finite (ProductoJSON.precio_base b) = true ->
  ProductoUpdate_echo b = true.
Proof.
  intros b H. unfold ProductoUpdate_echo, ProductoJSON_json.
  rewrite !has_json_str, H. simpl. rewrite !echo_str. simpl.
  destruct (optional check_precio (ProductoJSON.precio_base b));
    [reflexivity|].
  unfold echo. now destruct (ProductoJSON.precio_base b).
Qed.


(** ** Listing *)

Lemma validate_list_map : forall A B C (f : A -> option B)
  (g : B -> C) (h : A -> C),
  (forall a b, f a = Some b -> g b = h a) ->
  forall l l', validate_list f l = Some l' -> map g l' = map h l.
Proof.
  intros A B C f g h Hf. induction l as [|a l IH]; simpl; intros l' H.
  - now injection H as <-.
  - destruct (f a) as [b|] eqn:E; [|discriminate].
    destruct (validate_list f l) as [bs|]; [|discriminate].
    injection H as <-. simpl. f_equal; [now apply Hf | now apply IH].
Qed.

Lemma validate_list_length : forall A B (f : A -> option B) l l',
  validate_list f l = Some l' -> List.length l' = List.length l.
Proof.
  intros A B f l l' H.
  rewrite <- (length_map (fun _ => tt) l'), <- (length_map (fun _ => tt) l).
  f_equal. now apply (validate_list_map _ _ _ f (fun _ => tt) (fun _ => tt)).
Qed.

Lemma ClienteResponse_validate_id : forall c r,
  ClienteResponse_validate c = Some r -> ClienteResponse.id r = Cliente.id c.
Proof.
  intros c r H. unfold ClienteResponse_validate in H.
  built H.
  now injection H as <-.
Qed.

Lemma DomicilioResponse_validate_id : forall d r,
  DomicilioResponse_validate d = Some r ->
  DomicilioResponse.id r = Domicilio.id d.
Proof.
  intros d r H. unfold DomicilioResponse_validate in H.
  built H.
  now injection H as <-.
Qed.

Lemma ProductoResponse_validate_id : forall p r,
  ProductoResponse_validate p = Some r ->
  ProductoResponse.id r = Producto.id p.
Proof.
  intros p r H. unfold ProductoResponse_validate in H.
  built H.
  now injection H as <-.
Qed.

Lemma forallb_ProductoResponse_json : forall content,
  Forall (fun r => is_finite (ProductoResponse.precio_base r) = true)
         content ->
  forallb ProductoResponse_json content = true.
Proof.
  intros content H. apply forallb_forall. intros r Hr.
  rewrite Forall_forall in H. unfold ProductoResponse_json.
  now rewrite (H r Hr).
Qed.

(** C3, as the code has it. The lists of clients and of products read
    [skip] (default 0) and [limit] (default 100) from the query string. For
    values that are not negative and fit 64 bits, and a page whose rows pass
    the response model (with finite prices, for products), the answer is 200
    with the rows after the first [skip], at most [limit] of them, in table
    order. A [skip] or a [limit] beyond 64 bits, both read from the query
    string, is refused by the driver when the query is run: the answer is
    the 500 of an unhandled [OverflowError]. One whose text is too long to
    be read is answered with a 422. The list of the addresses of a client
    reads no parameter of the query string: whatever it holds, the answer
    has all the addresses of the client, for a client id that fits 64
    bits. *)
Theorem listar_paginado : forall (db : DB) (q : Query),
  let s := default 0 (skip q) in
  let l := default 100 (limit q) in
  (0 <= s < 2 ^ 63 -> 0 <= l < 2 ^ 63 ->
   (forall content,
      validate_list ClienteResponse_validate
        (firstn (Z.to_nat l) (skipn (Z.to_nat s) (clientes db)))
      = Some content ->
      GET_clientes q db = (JSONResponse 200 content, db) /\
      map ClienteResponse.id content
      = firstn (Z.to_nat l)
               (skipn (Z.to_nat s) (map Cliente.id (clientes db))) /\
      Z.of_nat (List.length content) <= l) /\
   (forall content,
      validate_list ProductoResponse_validate
        (firstn (Z.to_nat l) (skipn (Z.to_nat s) (productos db)))
      = Some content ->
      Forall (fun r => is_finite (ProductoResponse.precio_base r) = true)
             content ->
      GET_productos q db = (JSONResponse 200 content, db) /\
      map ProductoResponse.id content
      = firstn (Z.to_nat l)
               (skipn (Z.to_nat s) (map Producto.id (productos db))) /\
      Z.of_nat (List.length content) <= l)) /\
  (2 ^ 63 <= s \/ 2 ^ 63 <= l ->
   int_parsing s = true -> int_parsing l = true ->
   GET_clientes q db = (InternalServerError OverflowError, db) /\
   GET_productos q db = (InternalServerError OverflowError, db)) /\
  (int_parsing s = false \/ int_parsing l = false ->
   exists errors,
     GET_clientes q db = (UnprocessableEntity errors, db) /\
     GET_productos q db = (UnprocessableEntity errors, db)) /\
  (forall cliente_id content,
     int64 cliente_id = true ->
     validate_list DomicilioResponse_validate
       (filter (fun d => Domicilio.cliente_id d =? cliente_id)
               (domicilios db))
     = Some content ->
     GET_domicilios cliente_id q db = (JSONResponse 200 content, db) /\
     map DomicilioResponse.id content
     = map Domicilio.id
           (filter (fun d => Domicilio.cliente_id d =? cliente_id)
                   (domicilios db))).
Proof.
  intros db q s l. split; [intros Hs Hl; split|split; [|split]].
  - assert (Hs' : int64 s = true) by (apply int64_spec; lia).
    assert (Hl' : int64 l = true) by (apply int64_spec; lia).
    intros content H. split; [|split].
    + unfold GET_clientes, listar_clientes, respond. fold s l. path.
      rewrite Hs', Hl'. simpl.
      rewrite offset_limit_spec by lia. now rewrite H.
    + rewrite (validate_list_map _ _ _ _ _ _ ClienteResponse_validate_id _ _ H).
      now rewrite skipn_map, firstn_map.
    + rewrite (validate_list_length _ _ _ _ _ H).
      pose proof (firstn_le_length (Z.to_nat l)
                    (skipn (Z.to_nat s) (clientes db))). lia.
  - assert (Hs' : int64 s = true) by (apply int64_spec; lia).
    assert (Hl' : int64 l = true) by (apply int64_spec; lia).
    intros content H Hfin. split; [|split].
    + unfold GET_productos, listar_productos, respond. fold s l. path.
      rewrite Hs', Hl'. simpl.
      rewrite offset_limit_spec by lia. rewrite H.
      unfold render. simpl.
      now rewrite forallb_ProductoResponse_json.
    + rewrite (validate_list_map _ _ _ _ _ _ ProductoResponse_validate_id _ _ H).
      now rewrite skipn_map, firstn_map.
    + rewrite (validate_list_length _ _ _ _ _ H).
      pose proof (firstn_le_length (Z.to_nat l)
                    (skipn (Z.to_nat s) (productos db))). lia.
  - intros Hbig Hs Hl.
    assert (Hb : int64 s && int64 l = false).
    { apply andb_false_iff.
      destruct Hbig as [Hbig|Hbig]; [left|right];
        apply not_true_is_false; rewrite int64_spec; lia. }
    unfold GET_clientes, GET_productos, listar_clientes, listar_productos,
      respond.
    fold s l. path. rewrite Hb. now split.
  - intros Hlong. unfold GET_clientes, GET_productos. fold s l.
    unfold int_error.
    destruct (int_parsing s), (int_parsing l);
      try (eexists; split; reflexivity).
    now destruct Hlong.
  - intros i content Hi H. split.
    + unfold GET_domicilios, listar_domicilios, respond. path.
      rewrite Hi. simpl. now rewrite H.
    + exact (validate_list_map _ _ _ _ _ _ DomicilioResponse_validate_id _ _ H).
Qed.

(** ** Partial updates *)

Lemma setattr_Cliente_merged : forall u c,
  fold_left setattr_Cliente (ClienteUpdate_items u) c = Cliente_merged u c.
Proof.
  intros [[|v1] [|v2] [|v3] [|v4] [|v5]] []; reflexivity.
Qed.

Lemma setattr_Domicilio_merged : forall u d,
  fold_left setattr_Domicilio (DomicilioUpdate_items u) d
  = Domicilio_merged u d.
Proof.
  intros [[|v1] [|v2] [|v3] [|v4] [|v5]] []; reflexivity.
Qed.

Lemma setattr_Producto_merged : forall u p,
  fold_left setattr_Producto (ProductoUpdate_items u) p = Producto_merged u p.
Proof.
  intros [[|v1] [|v2] [|v3]] []; reflexivity.
Qed.

Lemma row_by_id_update_same : forall A (id_of : A -> Z) r rows c,
  row_by_id id_of (id_of r) rows = Some c ->
  row_by_id id_of (id_of r) (update_by_id id_of r rows) = Some r.
Proof.
  intros A id_of r rows c. induction rows as [|x rows IH]; simpl.
  - discriminate.
  - destruct (id_of x =? id_of r) eqn:E.
    + intros _. now rewrite Z.eqb_refl.
    + rewrite E. exact IH.
Qed.

Lemma row_by_id_update_other : forall A (id_of : A -> Z) r rows j,
  j <> id_of r ->
  row_by_id id_of j (update_by_id id_of r rows) = row_by_id id_of j rows.
Proof.
  intros A id_of r rows j Hj. induction rows as [|x rows IH]; simpl.
  - reflexivity.
  - destruct (id_of x =? id_of r) eqn:E.
    + apply Z.eqb_eq in E.
      assert (E1 : (id_of r =? j) = false) by (apply Z.eqb_neq; congruence).
      assert (E2 : (id_of x =? j) = false) by (apply Z.eqb_neq; congruence).
      rewrite E1, E2. exact IH.
    + destruct (id_of x =? j); [reflexivity | exact IH].
Qed.

Lemma ClienteResponse_validate_not_null : forall c r,
  ClienteResponse_validate c = Some r -> Cliente_not_null c = true.
Proof.
  intros c r H. unfold ClienteResponse_validate in H.
  unfold Cliente_not_null.
  built_not_null H.
  reflexivity.
Qed.

Lemma DomicilioResponse_validate_not_null : forall d r,
  DomicilioResponse_validate d = Some r -> Domicilio_not_null d = true.
Proof.
  intros d r H. unfold DomicilioResponse_validate in H.
  unfold Domicilio_not_null.
  built_not_null H.
  now destruct (Domicilio.tipo_direccion d).
Qed.

Lemma ProductoResponse_validate_not_null : forall p r,
  ProductoResponse_validate p = Some r -> Producto_not_null p = true.
Proof.
  intros p r H. unfold ProductoResponse_validate in H.
  unfold Producto_not_null.
  built_not_null H.
  reflexivity.
Qed.

Lemma same_rfc_true : forall a b,
  same_rfc a b = true -> Cliente.rfc b = Cliente.rfc a.
Proof.
  intros a b H. unfold same_rfc in H.
  destruct (Cliente.rfc a) as [x|], (Cliente.rfc b) as [y|];
    try discriminate.
  apply str_eqb_eq in H. congruence.
Qed.

(** C6, as the code has it. Take a row that the query by id finds and a
    body that passes the validation of the update schema. When the merged
    row, the supplied values over the stored ones, passes the response model
    (with a finite price, for a product) and, for a client, no other client
    holds its tax id, the answer is 200 with that row; the query by id then
    finds the merged row, in which every field the body left unset has its
    old value, and every other row of the store is as it was. *)
Theorem actualizar_parcial :
  (forall db i body u c content,
     validate_ClienteUpdate body = inr u ->
     first_by_id Cliente.id i (clientes db) = inr (Some c) ->
     (forall c', In c' (clientes db) -> Cliente.id c' <> i ->
                 Cliente.rfc c' <> Cliente.rfc (Cliente_merged u c)) ->
     ClienteResponse_validate (Cliente_merged u c) = Some content ->
     exists db',
       PUT_cliente i body db = (JSONResponse 200 content, db') /\
       first_by_id Cliente.id i (clientes db')
       = inr (Some (Cliente_merged u c)) /\
       (forall j, j <> i -> first_by_id Cliente.id j (clientes db')
                            = first_by_id Cliente.id j (clientes db)) /\
       domicilios db' = domicilios db /\ productos db' = productos db) /\
  (forall db i body u d content,
     validate_DomicilioUpdate body = inr u ->
     first_by_id Domicilio.id i (domicilios db) = inr (Some d) ->
     DomicilioResponse_validate (Domicilio_merged u d) = Some content ->
     exists db',
       PUT_domicilio i body db = (JSONResponse 200 content, db') /\
       first_by_id Domicilio.id i (domicilios db')
       = inr (Some (Domicilio_merged u d)) /\
       (forall j, j <> i -> first_by_id Domicilio.id j (domicilios db')
                            = first_by_id Domicilio.id j (domicilios db)) /\
       clientes db' = clientes db /\ productos db' = productos db) /\
  (forall db i body u p content,
     validate_ProductoUpdate body = inr u ->
     first_by_id Producto.id i (productos db) = inr (Some p) ->
     ProductoResponse_validate (Producto_merged u p) = Some content ->
     is_finite (ProductoResponse.precio_base content) = true ->
     exists db',
       PUT_producto i body db = (JSONResponse 200 content, db') /\
       first_by_id Producto.id i (productos db')
       = inr (Some (Producto_merged u p)) /\
       (forall j, j <> i -> first_by_id Producto.id j (productos db')
                            = first_by_id Producto.id j (productos db)) /\
       clientes db' = clientes db /\ domicilios db' = domicilios db).
Proof.
  assert (Hframe : forall A (id_of : A -> Z) r rows j,
             j <> id_of r ->
             first_by_id id_of j (update_by_id id_of r rows)
             = first_by_id id_of j rows).
  { intros A id_of r rows j Hj. unfold first_by_id.
    destruct (int64 j); [|reflexivity].
    now rewrite row_by_id_update_other. }
  split; [|split].
  - intros db i body u c content Hval Hc Huniq Hresp.
    apply first_by_id_inr in Hc as [Hi Hc].
    destruct (row_by_id_found _ _ _ _ _ Hc) as [_ Hid].
    assert (Hid' : Cliente.id (Cliente_merged u c) = i) by exact Hid.
    unfold PUT_cliente. rewrite Hval. path. unfold respond, actualizar_cliente.
    rewrite (first_by_id_int64 _ _ _ _ Hi).
    rewrite Hc, setattr_Cliente_merged. unfold update_Cliente.
    rewrite (ClienteResponse_validate_not_null _ _ Hresp).
    assert (Hex : existsb
                    (fun r => negb (Cliente.id r
                                    =? Cliente.id (Cliente_merged u c))
                              && same_rfc (Cliente_merged u c) r)
                    (clientes db) = false).
    { destruct (existsb _ (clientes db)) eqn:E; [|reflexivity].
      apply existsb_exists in E as [r [Hr E]].
      apply andb_true_iff in E as [E1 E2].
      apply negb_true_iff, Z.eqb_neq in E1. apply same_rfc_true in E2.
      exfalso. apply (Huniq r Hr); congruence. }
    rewrite Hex. simpl. rewrite Hresp. eexists. split; [reflexivity|].
    simpl. split; [|split; [|split]]; try reflexivity.
    + rewrite (first_by_id_int64 _ _ _ _ Hi). f_equal. rewrite <- Hid'.
      apply row_by_id_update_same with (c := c). now rewrite Hid'.
    + intros j Hj. apply Hframe. congruence.
  - intros db i body u d content Hval Hd Hresp.
    apply first_by_id_inr in Hd as [Hi Hd].
    destruct (row_by_id_found _ _ _ _ _ Hd) as [_ Hid].
    assert (Hid' : Domicilio.id (Domicilio_merged u d) = i) by exact Hid.
    unfold PUT_domicilio. rewrite Hval. path. unfold respond, actualizar_domicilio.
    rewrite (first_by_id_int64 _ _ _ _ Hi).
    rewrite Hd, setattr_Domicilio_merged. unfold update_Domicilio.
    rewrite (DomicilioResponse_validate_not_null _ _ Hresp).
    simpl. rewrite Hresp. eexists. split; [reflexivity|].
    simpl. split; [|split; [|split]]; try reflexivity.
    + rewrite (first_by_id_int64 _ _ _ _ Hi). f_equal. rewrite <- Hid'.
      apply row_by_id_update_same with (c := d). now rewrite Hid'.
    + intros j Hj. apply Hframe. congruence.
  - intros db i body u p content Hval Hp Hresp Hfin.
    apply first_by_id_inr in Hp as [Hi Hp].
    destruct (row_by_id_found _ _ _ _ _ Hp) as [_ Hid].
    assert (Hid' : Producto.id (Producto_merged u p) = i) by exact Hid.
    unfold PUT_producto. rewrite Hval. path. unfold respond, actualizar_producto.
    rewrite (first_by_id_int64 _ _ _ _ Hi).
    rewrite Hp, setattr_Producto_merged. unfold update_Producto.
    rewrite (ProductoResponse_validate_not_null _ _ Hresp).
    simpl. rewrite Hresp. unfold render, ProductoResponse_json. simpl.
    rewrite Hfin. simpl. eexists. split; [reflexivity|].
    simpl. split; [|split; [|split]]; try reflexivity.
    + rewrite (first_by_id_int64 _ _ _ _ Hi). f_equal. rewrite <- Hid'.
      apply row_by_id_update_same with (c := p). now rewrite Hid'.
    + intros j Hj. apply Hframe. congruence.
Qed.

(** ** Metrics *)

(** C4. Without credentials in the environment the collector holds no
    client, and a collector without client only logs: the middleware then
    returns the response of the handler. With a client, an error answer of
    the service ([ClientError]) is logged and swallowed too. A sink that
    cannot be reached raises [EndpointConnectionError], which the recorders
    do not catch: it escapes [record_latency] and the middleware, and the
    request fails although the handler had produced its response. *)
Theorem metrics_middleware_outcomes :
  (forall environ boto3_client ns env reg log,
     (truthy (AWS_ACCESS_KEY_ID environ)
      && truthy (AWS_SECRET_ACCESS_KEY environ))
     || truthy (AWS_PROFILE environ) = false ->
     MetricsCollector_init environ boto3_client ns env reg log
     = (mkCollector ns env reg None, log ++ [(INFO, CloudWatch_disabled)])) /\
  (forall (R : Type) (status : R -> Z) metrics duration utcnow request
          (call_next : HTTPRequest -> R) log,
     cloudwatch metrics = None ->
     let endpoint := (method request ++ " " ++ path request)%string in
     let code := status (call_next request) in
     metrics_middleware metrics status duration utcnow request call_next log
     = (inr (call_next request),
        (log ++ [(INFO, Metric_latency endpoint duration
                                       (environment metrics))])
        ++ [(INFO, Metric_http_status endpoint code
                                      (_get_http_status_range code)
                                      (environment metrics))])) /\
  (forall (R : Type) (status : R -> Z) metrics cw duration utcnow request
          (call_next : HTTPRequest -> R) log,
     cloudwatch metrics = Some cw ->
     (forall n d, put_metric_data cw n d = None
                  \/ put_metric_data cw n d = Some ClientError) ->
     fst (metrics_middleware metrics status duration utcnow request
                             call_next log)
     = inr (call_next request)) /\
  (forall (R : Type) (status : R -> Z) metrics cw duration utcnow request
          (call_next : HTTPRequest -> R) log,
     cloudwatch metrics = Some cw ->
     (forall n d, put_metric_data cw n d = Some EndpointConnectionError) ->
     fst (metrics_middleware metrics status duration utcnow request
                             call_next log)
     = inl EndpointConnectionError).
Proof.
  split; [|split; [|split]].
  - intros environ boto3_client ns env reg log H.
    unfold MetricsCollector_init. now rewrite H.
  - intros R status metrics duration utcnow request call_next log H.
    unfold metrics_middleware, record_latency, record_http_status.
    now rewrite H.
  - intros R status metrics cw duration utcnow request call_next log H Hput.
    unfold metrics_middleware, record_latency, record_http_status.
    rewrite H.
    match goal with
    | |- context [put_metric_data cw ?n ?d] =>
        destruct (Hput n d) as [-> | ->]
    end; simpl;
    match goal with
    | |- context [put_metric_data cw ?n ?d] =>
        destruct (Hput n d) as [-> | ->]
    end; reflexivity.
  - intros R status metrics cw duration utcnow request call_next log H Hput.
    unfold metrics_middleware, record_latency.
    rewrite H, Hput. reflexivity.
Qed.

(** ** When the merged row passes the response model *)

Lemma optional_value : forall A B (check : A -> option B) r b,
  optional check r = Some (Set_to (Some b)) -> exists a, check a = Some b.
Proof.
  intros A B check [| |a|] b H; simpl in H; try discriminate.
  destruct (check a) as [b'|] eqn:E; [|discriminate].
  injection H as <-. now exists a.
Qed.

Lemma check_length_idem : forall lo hi a b,
  check_length lo hi a = Some b -> check_length lo hi b = Some b.
Proof.
  unfold check_length. intros lo hi a b H.
  destruct ((lo <=? len a) && (len a <=? hi)) eqn:E; [|discriminate].
  injection H as <-. now rewrite E.
Qed.

Lemma attribute_merged : forall B C (check : B -> option C)
  (f : field B) (old : option B),
  not_null f ->
  (forall b, f = Set_to (Some b) -> check b <> None) ->
  attribute check old <> None ->
  attribute check (merged f old) <> None.
Proof.
  intros B C check [|[b|]] old Hnn Hset Hold; simpl.
  - exact Hold.
  - now apply Hset.
  - now elim Hnn.
Qed.

(** A stored client that passes the response model still passes it after a
    validated update that sets no field to [null] and, if it sets the tax
    id, sets one that matches the pattern. *)
Lemma Cliente_merged_valid : forall body u c,
  validate_ClienteUpdate body = inr u ->
  ClienteResponse_validate c <> None ->
  not_null (ClienteUpdate.razon_social u) ->
  not_null (ClienteUpdate.nombre_comercial u) ->
  not_null (ClienteUpdate.rfc u) ->
  not_null (ClienteUpdate.correo_electronico u) ->
  not_null (ClienteUpdate.telefono u) ->
  (forall v, ClienteUpdate.rfc u = Set_to (Some v) ->
             rx_fullmatch RFC_PATTERN v = true) ->
  ClienteResponse_validate (Cliente_merged u c) <> None.
Proof.
  intros body u c Hval Hc N1 N2 N3 N4 N5 Hpat.
  unfold validate_ClienteUpdate in Hval.
  destruct (optional (check_length 1 255) (ClienteJSON.razon_social body))
    as [f1|] eqn:E1; [|discriminate].
  destruct (optional (check_length 1 255)
                     (ClienteJSON.nombre_comercial body))
    as [f2|] eqn:E2; [|discriminate].
  destruct (optional check_rfc_update (ClienteJSON.rfc body))
    as [f3|] eqn:E3; [|discriminate].
  destruct (optional validate_email (ClienteJSON.correo_electronico body))
    as [f4|] eqn:E4; [|discriminate].
  destruct (optional (check_length 10 20) (ClienteJSON.telefono body))
    as [f5|] eqn:E5; [|discriminate].
  injection Hval as <-.
  cbn [ClienteUpdate.razon_social ClienteUpdate.nombre_comercial
       ClienteUpdate.rfc ClienteUpdate.correo_electronico
       ClienteUpdate.telefono] in N1, N2, N3, N4, N5, Hpat.
  unfold ClienteResponse_validate in Hc |- *.
  cbn [Cliente_merged Cliente.razon_social Cliente.nombre_comercial
       Cliente.rfc Cliente.correo_electronico Cliente.telefono
       ClienteUpdate.razon_social ClienteUpdate.nombre_comercial
       ClienteUpdate.rfc ClienteUpdate.correo_electronico
       ClienteUpdate.telefono].
  assert (A1 : attribute (check_length 1 255)
                 (merged f1 (Cliente.razon_social c)) <> None).
  { apply attribute_merged; [assumption| |].
    - intros b ->. apply optional_value in E1 as [a Ha].
      now rewrite (check_length_idem _ _ _ _ Ha).
    - now destruct (attribute _ (Cliente.razon_social c)). }
  assert (A2 : attribute (check_length 1 255)
                 (merged f2 (Cliente.nombre_comercial c)) <> None).
  { apply attribute_merged; [assumption| |].
    - intros b ->. apply optional_value in E2 as [a Ha].
      now rewrite (check_length_idem _ _ _ _ Ha).
    - destruct (attribute _ (Cliente.razon_social c)); [|now elim Hc].
      now destruct (attribute _ (Cliente.nombre_comercial c)). }
  assert (A3 : attribute check_rfc (merged f3 (Cliente.rfc c)) <> None).
  { apply attribute_merged; [assumption| |].
    - intros b ->. specialize (Hpat b eq_refl).
      apply optional_value in E3 as [a Ha]. unfold check_rfc.
      rewrite (check_length_idem _ _ _ _ Ha), Hpat. discriminate.
    - destruct (attribute _ (Cliente.razon_social c)); [|now elim Hc].
      destruct (attribute _ (Cliente.nombre_comercial c)); [|now elim Hc].
      now destruct (attribute check_rfc (Cliente.rfc c)). }
  assert (A4 : attribute validate_email
                 (merged f4 (Cliente.correo_electronico c)) <> None).
  { apply attribute_merged; [assumption| |].
    - intros b ->. apply optional_value in E4 as [a Ha].
      now rewrite (@validate_email_normal L _ _ Ha).
    - destruct (attribute _ (Cliente.razon_social c)); [|now elim Hc].
      destruct (attribute _ (Cliente.nombre_comercial c)); [|now elim Hc].
      destruct (attribute check_rfc (Cliente.rfc c)); [|now elim Hc].
      now destruct (attribute validate_email
                              (Cliente.correo_electronico c)). }
  assert (A5 : attribute (check_length 10 20)
                 (merged f5 (Cliente.telefono c)) <> None).
  { apply attribute_merged; [assumption| |].
    - intros b ->. apply optional_value in E5 as [a Ha].
      now rewrite (check_length_idem _ _ _ _ Ha).
    - destruct (attribute _ (Cliente.razon_social c)); [|now elim Hc].
      destruct (attribute _ (Cliente.nombre_comercial c)); [|now elim Hc].
      destruct (attribute check_rfc (Cliente.rfc c)); [|now elim Hc].
      destruct (attribute validate_email (Cliente.correo_electronico c));
        [|now elim Hc].
      now destruct (attribute _ (Cliente.telefono c)). }
  destruct (attribute _ (merged f1 _)); [|now elim A1].
  destruct (attribute _ (merged f2 _)); [|now elim A2].
  destruct (attribute check_rfc (merged f3 _)); [|now elim A3].
  destruct (attribute validate_email (merged f4 _)); [|now elim A4].
  destruct (attribute _ (merged f5 _)); [|now elim A5].
  discriminate.
Qed.

Lemma check_precio_idem : forall a b,
  check_precio a = Some b -> check_precio b = Some b.
Proof.
  unfold check_precio. intros a b H.
  destruct (float_gt_0 a) eqn:E; [|discriminate].
  injection H as <-. now rewrite E.
Qed.

(** The same for an address and for a product, whose update schemas repeat
    the checks of their response models. *)
Lemma Domicilio_merged_valid : forall body u d,
  validate_DomicilioUpdate body = inr u ->
  DomicilioResponse_validate d <> None ->
  not_null (DomicilioUpdate.domicilio u) ->
  not_null (DomicilioUpdate.colonia u) ->
  not_null (DomicilioUpdate.municipio u) ->
  not_null (DomicilioUpdate.estado u) ->
  not_null (DomicilioUpdate.tipo_direccion u) ->
  DomicilioResponse_validate (Domicilio_merged u d) <> None.
Proof.
  intros body u d Hval Hd N1 N2 N3 N4 N5.
  unfold validate_DomicilioUpdate in Hval.
  destruct (optional (check_length 1 500) (DomicilioJSON.domicilio body))
    as [f1|] eqn:E1; [|discriminate].
  destruct (optional (check_length 1 255) (DomicilioJSON.colonia body))
    as [f2|] eqn:E2; [|discriminate].
  destruct (optional (check_length 1 255) (DomicilioJSON.municipio body))
    as [f3|] eqn:E3; [|discriminate].
  destruct (optional (check_length 1 255) (DomicilioJSON.estado body))
    as [f4|] eqn:E4; [|discriminate].
  destruct (optional check_tipo_direccion
                     (DomicilioJSON.tipo_direccion body))
    as [f5|] eqn:E5; [|discriminate].
  injection Hval as <-.
  cbn [DomicilioUpdate.domicilio DomicilioUpdate.colonia
       DomicilioUpdate.municipio DomicilioUpdate.estado
       DomicilioUpdate.tipo_direccion] in N1, N2, N3, N4, N5.
  unfold DomicilioResponse_validate in Hd |- *.
  cbn [Domicilio_merged Domicilio.domicilio Domicilio.colonia
       Domicilio.municipio Domicilio.estado Domicilio.tipo_direccion
       DomicilioUpdate.domicilio DomicilioUpdate.colonia
       DomicilioUpdate.municipio DomicilioUpdate.estado
       DomicilioUpdate.tipo_direccion].
  destruct (attribute (check_length 1 500) (Domicilio.domicilio d)) eqn:O1;
    [|now elim Hd].
  destruct (attribute (check_length 1 255) (Domicilio.colonia d)) eqn:O2;
    [|now elim Hd].
  destruct (attribute (check_length 1 255) (Domicilio.municipio d)) eqn:O3;
    [|now elim Hd].
  destruct (attribute (check_length 1 255) (Domicilio.estado d)) eqn:O4;
    [|now elim Hd].
  destruct (Domicilio.tipo_direccion d) as [t|] eqn:O5; [|now elim Hd].
  assert (A1 : attribute (check_length 1 500)
                 (merged f1 (Domicilio.domicilio d)) <> None).
  { apply attribute_merged; [assumption| |now rewrite O1].
    intros b ->. apply optional_value in E1 as [a Ha].
    now rewrite (check_length_idem _ _ _ _ Ha). }
  assert (A2 : attribute (check_length 1 255)
                 (merged f2 (Domicilio.colonia d)) <> None).
  { apply attribute_merged; [assumption| |now rewrite O2].
    intros b ->. apply optional_value in E2 as [a Ha].
    now rewrite (check_length_idem _ _ _ _ Ha). }
  assert (A3 : attribute (check_length 1 255)
                 (merged f3 (Domicilio.municipio d)) <> None).
  { apply attribute_merged; [assumption| |now rewrite O3].
    intros b ->. apply optional_value in E3 as [a Ha].
    now rewrite (check_length_idem _ _ _ _ Ha). }
  assert (A4 : attribute (check_length 1 255)
                 (merged f4 (Domicilio.estado d)) <> None).
  { apply attribute_merged; [assumption| |now rewrite O4].
    intros b ->. apply optional_value in E4 as [a Ha].
    now rewrite (check_length_idem _ _ _ _ Ha). }
  destruct (attribute _ (merged f1 _)); [|now elim A1].
  destruct (attribute _ (merged f2 _)); [|now elim A2].
  destruct (attribute _ (merged f3 _)); [|now elim A3].
  destruct (attribute _ (merged f4 _)); [|now elim A4].
  destruct f5 as [|[t'|]]; simpl; [discriminate | discriminate | now elim N5].
Qed.

Lemma Producto_merged_valid : forall body u p,
  validate_ProductoUpdate body = inr u ->
  ProductoResponse_validate p <> None ->
  not_null (ProductoUpdate.nombre u) ->
  not_null (ProductoUpdate.unidad_medida u) ->
  not_null (ProductoUpdate.precio_base u) ->
  ProductoResponse_validate (Producto_merged u p) <> None.
Proof.
  intros body u p Hval Hp N1 N2 N3.
  unfold validate_ProductoUpdate in Hval.
  destruct (optional (check_length 1 255) (ProductoJSON.nombre body))
    as [f1|] eqn:E1; [|discriminate].
  destruct (optional (check_length 1 50) (ProductoJSON.unidad_medida body))
    as [f2|] eqn:E2; [|discriminate].
  destruct (optional check_precio (ProductoJSON.precio_base body))
    as [f3|] eqn:E3; [|discriminate].
  injection Hval as <-.
  cbn [ProductoUpdate.nombre ProductoUpdate.unidad_medida
       ProductoUpdate.precio_base] in N1, N2, N3.
  unfold ProductoResponse_validate in Hp |- *.
  cbn [Producto_merged Producto.nombre Producto.unidad_medida
       Producto.precio_base ProductoUpdate.nombre
       ProductoUpdate.unidad_medida ProductoUpdate.precio_base].
  destruct (attribute (check_length 1 255) (Producto.nombre p)) eqn:O1;
    [|now elim Hp].
  destruct (attribute (check_length 1 50) (Producto.unidad_medida p)) eqn:O2;
    [|now elim Hp].
  destruct (attribute check_precio (Producto.precio_base p)) eqn:O3;
    [|now elim Hp].
  assert (A1 : attribute (check_length 1 255)
                 (merged f1 (Producto.nombre p)) <> None).
  { apply attribute_merged; [assumption| |now rewrite O1].
    intros b ->. apply optional_value in E1 as [a Ha].
    now rewrite (check_length_idem _ _ _ _ Ha). }
  assert (A2 : attribute (check_length 1 50)
                 (merged f2 (Producto.unidad_medida p)) <> None).
  { apply attribute_merged; [assumption| |now rewrite O2].
    intros b ->. apply optional_value in E2 as [a Ha].
    now rewrite (check_length_idem _ _ _ _ Ha). }
  assert (A3 : attribute check_precio
                 (merged f3 (Producto.precio_base p)) <> None).
  { apply attribute_merged; [assumption| |now rewrite O3].
    intros b ->. apply optional_value in E3 as [a Ha].
    now rewrite (check_precio_idem _ _ Ha). }
  destruct (attribute _ (merged f1 _)); [|now elim A1].
  destruct (attribute _ (merged f2 _)); [|now elim A2].
  destruct (attribute check_precio (merged f3 _)); [|now elim A3].
  discriminate.
Qed.

(** The tax id of the test suite matches the pattern whatever the digits of
    the library beyond the ASCII ones. *)
Lemma rfc_test_matches :
  rx_fullmatch RFC_PATTERN (cp "TEST123456ABC") = true.
Proof.
  pose proof (fun c => @unicode_Nd_ascii L c) as D.
  unfold RFC_PATTERN.
  destruct (unicode_Nd 84) eqn:E; cbn;
    rewrite ?E, ?(D 49%N eq_refl), ?(D 50%N eq_refl), ?(D 51%N eq_refl),
            ?(D 52%N eq_refl), ?(D 53%N eq_refl), ?(D 54%N eq_refl); cbn;
    rewrite ?orb_true_r; reflexivity.
Qed.

End Properties.





(* ================================================================== *)
(** * The statements at the data of the test suite *)

Lemma db_test_reachable : reachable (L := ascii_library) db_test.
Proof.
  exists [Post_clientes cliente_test; Post_domicilios 1 domicilio_test;
          Post_productos producto_test].
  reflexivity.
Qed.

Lemma not_in_ids : forall i ids,
  forallb (fun j => negb (j =? i)) ids = true -> ~ In i ids.
Proof.
  intros i ids H Hin. rewrite forallb_forall in H. apply H in Hin.
  now rewrite Z.eqb_refl in Hin.
Qed.

Lemma obtener_inexistente_404_witness :
  GET_cliente (L := ascii_library) 999999 db_test
  = (ErrorResponse 404 "Cliente no encontrado", db_test) /\
  GET_domicilio 999999 db_test
  = (ErrorResponse 404 "Domicilio no encontrado", db_test) /\
  GET_producto (L := ascii_library) 999999 db_test
  = (ErrorResponse 404 "Producto no encontrado", db_test).
Proof.
  destruct (proj1 (@obtener_inexistente_404 ascii_library db_test 999999)
                  eq_refl)
    as [H1 [H2 H3]].
  split; [apply H1 | split; [apply H2 | apply H3]];
    apply not_in_ids; reflexivity.
Defined.

(** An id of 4301 digits is not read: the answer is a 422. *)
Lemma obtener_texto_largo_422 :
  GET_cliente (L := ascii_library) (10 ^ 4300) db_test
  = (UnprocessableEntity ["cliente_id"%string], db_test).
Proof.
  vm_compute. reflexivity.
Qed.

(** C7, the stated 404 does not always occur: no client has the id 2^63,
    and fetching it is answered with 500. *)
Lemma obtener_fuera_de_rango_500 :
  ~ In (2 ^ 63) (map Cliente.id (clientes db_test)) /\
  GET_cliente (L := ascii_library) (2 ^ 63) db_test
  = (InternalServerError OverflowError, db_test).
Proof.
  split; [apply not_in_ids|]; reflexivity.
Qed.

Lemma eliminar_cliente_cascada_witness :
  exists db',
    DELETE_cliente 1 db_test2 = (JSONResponse 204 tt, db') /\
    ~ In 1 (map Cliente.id (clientes db')) /\
    (forall d, In d (domicilios db') -> Domicilio.cliente_id d <> 1) /\
    incl (domicilios db') (domicilios db_test2) /\
    productos db' = productos db_test2.
Proof.
  apply (eliminar_cliente_cascada db_test2 1); [reflexivity|].
  simpl. now left.
Defined.

Lemma listar_domicilios_cliente_inexistente_witness :
  GET_domicilios 999999 (mkQuery None None) db_test
  = (JSONResponse 200 [], db_test).
Proof.
  apply (@listar_domicilios_cliente_inexistente ascii_library).
  - exact db_test_reachable.
  - apply not_in_ids. reflexivity.
  - reflexivity.
Defined.

(** C9, the stated 200 does not always occur: no client has the id 2^63,
    and listing its addresses is answered with 500. *)
Lemma listar_domicilios_fuera_de_rango_500 :
  ~ In (2 ^ 63) (map Cliente.id (clientes db_test)) /\
  GET_domicilios (2 ^ 63) (mkQuery None None) db_test
  = (InternalServerError OverflowError, db_test).
Proof.
  split; [apply not_in_ids|]; reflexivity.
Qed.

Lemma rfc_unico_y_duplicado_500_witness :
  NoDup (map Cliente.rfc (clientes db_test)) /\
  POST_clientes (L := ascii_library) cliente_test db_test
  = (InternalServerError IntegrityError, db_test).
Proof.
  destruct (@rfc_unico_y_duplicado_500 ascii_library) as [H1 H2]. split.
  - apply H1. exact db_test_reachable.
  - eapply H2.
    + reflexivity.
    + simpl. left. reflexivity.
    + reflexivity.
Defined.

(** C2, the stated 422 does not occur: posting the test client a second time
    is answered with 500, although its tax id is in the store. *)
Lemma duplicate_rfc_is_not_422 :
  In (Some (cp "TEST123456ABC")) (map Cliente.rfc (clientes db_test)) /\
  status_code (fst (POST_clientes (L := ascii_library) cliente_test db_test))
  = 500 /\
  status_code (fst (POST_clientes (L := ascii_library) cliente_test db_test))
  <> 422.
Proof.
  split; [|split].
  - simpl. now left.
  - reflexivity.
  - vm_compute. discriminate.
Qed.

Lemma rfc_pattern_on_create_witness :
  (exists errors,
     POST_clientes (L := ascii_library)
       (ClienteJSON.mk (Value (cp "Empresa Test SA de CV"))
                       (Value (cp "Test Company"))
                       (Value (cp "abcdefghijkl"))
                       (Value (cp "test@empresa.com"))
                       (Value (cp "5551234567")))
       empty_db
     = (UnprocessableEntity errors, empty_db) /\
     In "rfc"%string errors) /\
  rx_fullmatch (RFC_PATTERN (L := ascii_library)) (cp "TEST123456ABC") = true.
Proof.
  destruct (@rfc_pattern_on_create_not_on_update ascii_library)
    as [H1 [H2 _]].
  split.
  - apply (H1 _ empty_db (cp "abcdefghijkl")); reflexivity.
  - apply (H2 cliente_test
              (ClienteCreate.mk (cp "Empresa Test SA de CV")
                                (cp "Test Company") (cp "TEST123456ABC")
                                (cp "test@empresa.com") (cp "5551234567"))).
    reflexivity.
Defined.

(** C3, the stated bound does not hold for addresses: with [limit=1] in the
    query string the list of the addresses of client 1 still holds both. *)
Lemma listar_domicilios_ignora_limit :
  exists content,
    GET_domicilios 1 (mkQuery (Some 0) (Some 1)) db_test2
    = (JSONResponse 200 content, db_test2) /\
    map DomicilioResponse.id content = [1; 2] /\
    Z.of_nat (List.length content) > 1.
Proof.
  eexists. split; [reflexivity|]. split; [reflexivity|]. simpl. lia.
Qed.

Lemma listar_paginado_witness :
  exists content,
    GET_productos (L := ascii_library) (mkQuery (Some 1) (Some 2)) db_test4
    = (JSONResponse 200 content, db_test4) /\
    map ProductoResponse.id content = [2; 3] /\
    Z.of_nat (List.length content) <= 2.
Proof.
  pose proof (@listar_paginado ascii_library db_test4
                (mkQuery (Some 1) (Some 2))) as H.
  cbv zeta in H. simpl default in H.
  destruct H as [H _].
  destruct (H ltac:(split; [lia | reflexivity])
              ltac:(split; [lia | reflexivity])) as [_ Hp].
  eexists. apply Hp; [reflexivity|]. repeat constructor.
Defined.



(** C6, the stated 200 does not always occur: setting the tax id of client 2
    to the one client 1 holds is a valid body for an existing row, and the
    answer is 500 with the store as it was. *)
Lemma actualizar_rfc_duplicado_500 :
  map Cliente.id (clientes db_test3) = [1; 2] /\
  PUT_cliente (L := ascii_library) 2
    (ClienteJSON.mk Missing Missing (Value (cp "TEST123456ABC"))
                    Missing Missing)
    db_test3
  = (InternalServerError IntegrityError, db_test3).
Proof.
  split; reflexivity.
Qed.

Lemma actualizar_parcial_witness :
  (exists content db',
     PUT_cliente (L := ascii_library) 1
       (ClienteJSON.mk Missing (Value (cp "Updated Company")) Missing
                       Missing Missing)
       db_test
     = (JSONResponse 200 content, db') /\
     first_by_id Cliente.id 1 (clientes db')
     = inr (Some (Cliente.mk 1 (Some (cp "Empresa Test SA de CV"))
                             (Some (cp "Updated Company"))
                             (Some (cp "TEST123456ABC"))
                             (Some (cp "test@empresa.com"))
                             (Some (cp "5551234567"))))) /\
  (exists content db',
     PUT_domicilio 1
       (DomicilioJSON.mk Missing (Value (cp "Americana")) Missing Missing
                         Missing)
       db_test
     = (JSONResponse 200 content, db') /\
     first_by_id Domicilio.id 1 (domicilios db')
     = inr (Some (Domicilio.mk 1 (Some (cp "Calle Test 123"))
                               (Some (cp "Americana"))
                               (Some (cp "Guadalajara"))
                               (Some (cp "Jalisco")) (Some FACTURACION)
                               1))) /\
  (exists content db',
     PUT_producto (L := ascii_library) 1
       (ProductoJSON.mk Missing Missing (Value f250)) db_test
     = (JSONResponse 200 content, db') /\
     first_by_id Producto.id 1 (productos db')
     = inr (Some (Producto.mk 1 (Some (cp "Producto Test"))
                              (Some (cp "PZA")) (Some f250)))).
Proof.
  destruct (@actualizar_parcial ascii_library) as [Hc [Hd Hp]].
  split; [|split].
  - edestruct (Hc db_test 1
                 (ClienteJSON.mk Missing (Value (cp "Updated Company"))
                                 Missing Missing Missing))
      as [db' [H1 [H2 _]]];
      [reflexivity | reflexivity | | reflexivity | ].
    + intros c' [<-|[]] Hne. exfalso. now apply Hne.
    + eexists. exists db'. split; [exact H1 | exact H2].
  - edestruct (Hd db_test 1
                 (DomicilioJSON.mk Missing (Value (cp "Americana")) Missing
                                   Missing Missing))
      as [db' [H1 [H2 _]]];
      [reflexivity | reflexivity | reflexivity | ].
    eexists. exists db'. split; [exact H1 | exact H2].
  - edestruct (Hp db_test 1
                 (ProductoJSON.mk Missing Missing (Value f250)))
      as [db' [H1 [H2 _]]];
      [reflexivity | reflexivity | reflexivity | reflexivity | ].
    eexists. exists db'. split; [exact H1 | exact H2].
Defined.

Lemma metrics_middleware_outcomes_witness :
  fst (metrics_middleware metrics_test (fun code : Z => code) zero 0
                          health_request (fun _ => 200) [])
  = inl EndpointConnectionError.
Proof.
  apply (proj2 (proj2 (proj2 metrics_middleware_outcomes))
               Z (fun code => code) metrics_test unreachable_sink).
  - reflexivity.
  - intros n d. reflexivity.
Defined.

(* ================================================================== *)
(** * Further properties *)

(** ** Tables in good order *)

Lemma next_id_ge_1 : forall ids,
  (forall i, In i ids -> 1 <= i) -> 1 <= next_id ids.
Proof.
  intros ids H. unfold next_id.
  assert (0 <= fold_right Z.max 0 ids); [|lia].
  clear H. induction ids as [|i ids IH]; simpl; lia.
Qed.

Section Tables.
Variable A : Type.
Variable id_of : A -> Z.
Variable P : A -> Prop.

Lemma table_ok_nil : table_ok id_of P [].
Proof.
  split; [constructor | split; [intros r [] | constructor]].
Qed.

Lemma table_ok_insert : forall rows r,
  table_ok id_of P rows ->
  id_of r = next_id (map id_of rows) -> int64 (id_of r) = true -> P r ->
  table_ok id_of P (rows ++ [r]).
Proof.
  intros rows r [Hpk [Hpos HP]] Hid Hfit Hr. split; [|split].
  - apply NoDup_map_snoc; [assumption|]. rewrite Hid. apply next_id_fresh.
  - intros x Hx. apply in_app_or in Hx as [Hx|[<-|[]]]; [now apply Hpos|].
    apply int64_spec in Hfit. split; [|lia].
    rewrite Hid. apply next_id_ge_1. intros i Hi.
    apply in_map_iff in Hi as [y [<- Hy]]. now apply Hpos.
  - apply Forall_app. split; [assumption | now constructor].
Qed.

Lemma table_ok_update : forall rows r,
  table_ok id_of P rows -> 1 <= id_of r < 2 ^ 63 -> P r ->
  table_ok id_of P (update_by_id id_of r rows).
Proof.
  intros rows r [Hpk [Hpos HP]] Hid Hr. split; [|split].
  - now rewrite update_by_id_ids.
  - intros x Hx. apply update_by_id_In in Hx as [->|[Hx _]]; auto.
  - apply Forall_forall. intros x Hx.
    apply update_by_id_In in Hx as [->|[Hx _]]; [assumption|].
    now apply (proj1 (Forall_forall _ _) HP).
Qed.

Lemma table_ok_delete : forall rows i,
  table_ok id_of P rows -> table_ok id_of P (delete_by_id id_of i rows).
Proof.
  intros rows i [Hpk [Hpos HP]]. split; [|split].
  - now apply NoDup_map_filter.
  - intros x Hx. apply delete_by_id_In in Hx as [Hx _]. now apply Hpos.
  - apply Forall_forall. intros x Hx. apply delete_by_id_In in Hx as [Hx _].
    now apply (proj1 (Forall_forall _ _) HP).
Qed.

Lemma table_ok_delete_each : forall loaded rows,
  table_ok id_of P rows ->
  table_ok id_of P
    (fold_left (fun rows d => delete_by_id id_of (id_of d) rows) loaded rows).
Proof.
  induction loaded as [|d loaded IH]; intros rows H; simpl; [assumption|].
  apply IH. now apply table_ok_delete.
Qed.

Lemma table_ok_found : forall rows i r,
  table_ok id_of P rows -> row_by_id id_of i rows = Some r ->
  1 <= i < 2 ^ 63 /\ P r.
Proof.
  intros rows i r [_ [Hpos HP]] H.
  apply row_by_id_found in H as [Hin <-]. split; [now apply Hpos|].
  now apply (proj1 (Forall_forall _ _) HP).
Qed.

End Tables.

(** ** What the validation establishes *)

Lemma required_value : forall A B (check : A -> option B) r b,
  required check r = Some b -> exists a, r = Value a /\ check a = Some b.
Proof.
  intros A B check [| |a|] b H; simpl in H; try discriminate. now exists a.
Qed.

Lemma check_length_same : forall lo hi a b,
  check_length lo hi a = Some b -> b = a /\ lo <= len a <= hi.
Proof.
  unfold check_length. intros lo hi a b H.
  destruct ((lo <=? len a) && (len a <=? hi)) eqn:E; [|discriminate].
  injection H as <-. apply andb_true_iff in E as [E1 E2].
  apply Z.leb_le in E1, E2. auto.
Qed.

Lemma check_precio_same : forall a b,
  check_precio a = Some b -> b = a /\ float_gt_0 a = true.
Proof.
  unfold check_precio. intros a b H.
  destruct (float_gt_0 a); [|discriminate]. injection H as <-. auto.
Qed.

Lemma optional_field_ok : forall A B C (check : A -> option B)
  (check' : B -> option C) r f,
  (forall a b, check a = Some b -> check' b <> None) ->
  optional check r = Some f -> field_ok check' f.
Proof.
  intros A B C check check' r f Hidem H b ->.
  apply optional_value in H as [a Ha]. now apply (Hidem a).
Qed.

Lemma merged_not_null : forall B (f : field B) old,
  is_none (merged f old) = false -> not_null f.
Proof.
  intros B f old H ->. discriminate.
Qed.

Lemma attribute_merged_ok : forall B C (check : B -> option C) f old,
  field_ok check f ->
  attribute check old <> None ->
  is_none (merged f old) = false ->
  attribute check (merged f old) <> None.
Proof.
  intros B C check f old Hf Hold Hnn.
  apply attribute_merged; [now apply merged_not_null with old | exact Hf
                          | exact Hold].
Qed.

Section Validated.
Context {L : Library}.

Lemma check_rfc_same : forall a b,
  check_rfc a = Some b ->
  b = a /\ check_length 12 13 a = Some a /\
  rx_fullmatch RFC_PATTERN a = true.
Proof.
  unfold check_rfc. intros a b H.
  destruct (check_length 12 13 a) as [s'|] eqn:E; [|discriminate].
  destruct (check_length_same _ _ _ _ E) as [-> _].
  destruct (rx_fullmatch RFC_PATTERN a) eqn:Em; [|discriminate].
  injection H as <-. auto.
Qed.

Lemma validate_ClienteCreate_inv : forall body c,
  validate_ClienteCreate body = inr c ->
  check_length 1 255 (ClienteCreate.razon_social c)
  = Some (ClienteCreate.razon_social c) /\
  check_length 1 255 (ClienteCreate.nombre_comercial c)
  = Some (ClienteCreate.nombre_comercial c) /\
  check_rfc (ClienteCreate.rfc c) = Some (ClienteCreate.rfc c) /\
  validate_email (ClienteCreate.correo_electronico c)
  = Some (ClienteCreate.correo_electronico c) /\
  check_length 10 20 (ClienteCreate.telefono c)
  = Some (ClienteCreate.telefono c).
Proof.
  intros body c H. unfold validate_ClienteCreate in H.
  destruct (required (check_length 1 255) (ClienteJSON.razon_social body))
    as [v1|] eqn:E1; [|discriminate].
  destruct (required (check_length 1 255)
                     (ClienteJSON.nombre_comercial body))
    as [v2|] eqn:E2; [|discriminate].
  destruct (required check_rfc (ClienteJSON.rfc body))
    as [v3|] eqn:E3; [|discriminate].
  destruct (required validate_email (ClienteJSON.correo_electronico body))
    as [v4|] eqn:E4; [|discriminate].
  destruct (required (check_length 10 20) (ClienteJSON.telefono body))
    as [v5|] eqn:E5; [|discriminate].
  injection H as <-. simpl.
  apply required_value in E1 as [a1 [_ E1]], E2 as [a2 [_ E2]],
    E3 as [a3 [_ E3]], E4 as [a4 [_ E4]], E5 as [a5 [_ E5]].
  repeat split.
  - exact (check_length_idem _ _ _ _ E1).
  - exact (check_length_idem _ _ _ _ E2).
  - destruct (check_rfc_same _ _ E3) as [-> _]. exact E3.
  - exact (@validate_email_normal L _ _ E4).
  - exact (check_length_idem _ _ _ _ E5).
Qed.

Lemma validate_DomicilioCreate_inv : forall body c,
  validate_DomicilioCreate body = inr c ->
  check_length 1 500 (DomicilioCreate.domicilio c)
  = Some (DomicilioCreate.domicilio c) /\
  check_length 1 255 (DomicilioCreate.colonia c)
  = Some (DomicilioCreate.colonia c) /\
  check_length 1 255 (DomicilioCreate.municipio c)
  = Some (DomicilioCreate.municipio c) /\
  check_length 1 255 (DomicilioCreate.estado c)
  = Some (DomicilioCreate.estado c).
Proof.
  intros body c H. unfold validate_DomicilioCreate in H.
  destruct (required (check_length 1 500) (DomicilioJSON.domicilio body))
    as [v1|] eqn:E1; [|discriminate].
  destruct (required (check_length 1 255) (DomicilioJSON.colonia body))
    as [v2|] eqn:E2; [|discriminate].
  destruct (required (check_length 1 255) (DomicilioJSON.municipio body))
    as [v3|] eqn:E3; [|discriminate].
  destruct (required (check_length 1 255) (DomicilioJSON.estado body))
    as [v4|] eqn:E4; [|discriminate].
  destruct (required check_tipo_direccion
                     (DomicilioJSON.tipo_direccion body))
    as [v5|] eqn:E5; [|discriminate].
  injection H as <-. simpl.
  apply required_value in E1 as [a1 [_ E1]], E2 as [a2 [_ E2]],
    E3 as [a3 [_ E3]], E4 as [a4 [_ E4]].
  repeat split; eapply check_length_idem; eassumption.
Qed.

Lemma validate_ProductoCreate_inv : forall body c,
  validate_ProductoCreate body = inr c ->
  check_length 1 255 (ProductoCreate.nombre c)
  = Some (ProductoCreate.nombre c) /\
  check_length 1 50 (ProductoCreate.unidad_medida c)
  = Some (ProductoCreate.unidad_medida c) /\
  check_precio (ProductoCreate.precio_base c)
  = Some (ProductoCreate.precio_base c).
Proof.
  intros body c H. unfold validate_ProductoCreate in H.
  destruct (required (check_length 1 255) (ProductoJSON.nombre body))
    as [v1|] eqn:E1; [|discriminate].
  destruct (required (check_length 1 50) (ProductoJSON.unidad_medida body))
    as [v2|] eqn:E2; [|discriminate].
  destruct (required check_precio (ProductoJSON.precio_base body))
    as [v3|] eqn:E3; [|discriminate].
  injection H as <-. simpl.
  apply required_value in E1 as [a1 [_ E1]], E2 as [a2 [_ E2]],
    E3 as [a3 [_ E3]].
  repeat split.
  - exact (check_length_idem _ _ _ _ E1).
  - exact (check_length_idem _ _ _ _ E2).
  - exact (check_precio_idem _ _ E3).
Qed.

(** The response a validated create is answered with. *)
Lemma ClienteResponse_of_create : forall body c i,
  validate_ClienteCreate body = inr c ->
  ClienteResponse_validate (Cliente_new i c)
  = Some (ClienteResponse.mk
            (ClienteCreate.razon_social c) (ClienteCreate.nombre_comercial c)
            (ClienteCreate.rfc c) (ClienteCreate.correo_electronico c)
            (ClienteCreate.telefono c) i).
Proof.
  intros body c i H.
  destruct (validate_ClienteCreate_inv _ _ H) as [H1 [H2 [H3 [H4 H5]]]].
  unfold ClienteResponse_validate, Cliente_new. simpl.
  now rewrite H1, H2, H3, H4, H5.
Qed.

Lemma DomicilioResponse_of_create : forall body c i cliente_id,
  validate_DomicilioCreate body = inr c ->
  DomicilioResponse_validate (Domicilio_new i c cliente_id)
  = Some (DomicilioResponse.mk
            (DomicilioCreate.domicilio c) (DomicilioCreate.colonia c)
            (DomicilioCreate.municipio c) (DomicilioCreate.estado c)
            (DomicilioCreate.tipo_direccion c) i cliente_id).
Proof.
  intros body c i cid H.
  destruct (validate_DomicilioCreate_inv _ _ H) as [H1 [H2 [H3 H4]]].
  unfold DomicilioResponse_validate, Domicilio_new. simpl.
  now rewrite H1, H2, H3, H4.
Qed.

Lemma ProductoResponse_of_create : forall body c i,
  validate_ProductoCreate body = inr c ->
  ProductoResponse_validate (Producto_new i c)
  = Some (ProductoResponse.mk
            (ProductoCreate.nombre c) (ProductoCreate.unidad_medida c)
            (ProductoCreate.precio_base c) i).
Proof.
  intros body c i H.
  destruct (validate_ProductoCreate_inv _ _ H) as [H1 [H2 H3]].
  unfold ProductoResponse_validate, Producto_new. simpl.
  now rewrite H1, H2, H3.
Qed.

Lemma Cliente_new_stored_ok : forall body c i,
  validate_ClienteCreate body = inr c -> Cliente_stored_ok (Cliente_new i c).
Proof.
  intros body c i H.
  destruct (validate_ClienteCreate_inv _ _ H) as [H1 [H2 [H3 [H4 H5]]]].
  destruct (check_rfc_same _ _ H3) as [_ [H3' _]].
  unfold Cliente_stored_ok, Cliente_new, check_rfc_update. simpl.
  rewrite H1, H2, H3', H5. repeat split; try discriminate.
  now exists (ClienteCreate.correo_electronico c).
Qed.

End Validated.

(** ** The effect of each handler on the store *)

Lemma crear_cliente_effect : forall c db,
  snd (crear_cliente c db) = db \/
  int64 (next_id (map Cliente.id (clientes db))) = true /\
  snd (crear_cliente c db)
  = mkDB (clientes db
          ++ [Cliente_new (next_id (map Cliente.id (clientes db))) c])
         (domicilios db) (productos db).
Proof.
  intros c db. unfold crear_cliente, insert_Cliente.
  destruct (_ && _); simpl; auto.
  destruct (int64 _); simpl; auto.
Qed.

Lemma actualizar_cliente_effect : forall i u db,
  snd (actualizar_cliente i u db) = db \/
  exists c,
    row_by_id Cliente.id i (clientes db) = Some c /\
    Cliente_not_null (Cliente_merged u c) = true /\
    snd (actualizar_cliente i u db)
    = mkDB (update_by_id Cliente.id (Cliente_merged u c) (clientes db))
           (domicilios db) (productos db).
Proof.
  intros i u db. unfold actualizar_cliente. bound i; [|now left].
  destruct (row_by_id Cliente.id i (clientes db)) as [c|] eqn:E; [|now left].
  rewrite setattr_Cliente_merged. unfold update_Cliente.
  destruct (Cliente_not_null (Cliente_merged u c)) eqn:En; [|now left].
  destruct (negb _); simpl; [|now left].
  right. now exists c.
Qed.

Lemma eliminar_cliente_effect : forall i db,
  snd (eliminar_cliente i db) = db \/
  exists c,
    row_by_id Cliente.id i (clientes db) = Some c /\
    snd (eliminar_cliente i db) = delete_Cliente c db.
Proof.
  intros i db. unfold eliminar_cliente. bound i; [|now left].
  destruct (row_by_id Cliente.id i (clientes db)) as [c|] eqn:E; [|now left].
  right. now exists c.
Qed.

Lemma crear_domicilio_effect : forall i c db,
  snd (crear_domicilio i c db) = db \/
  In i (map Cliente.id (clientes db)) /\
  int64 (next_id (map Domicilio.id (domicilios db))) = true /\
  snd (crear_domicilio i c db)
  = mkDB (clientes db)
         (domicilios db
          ++ [Domicilio_new (next_id (map Domicilio.id (domicilios db))) c i])
         (productos db).
Proof.
  intros i c db. unfold crear_domicilio. bound i; [|now left].
  destruct (row_by_id Cliente.id i (clientes db)) as [x|] eqn:E; [|now left].
  unfold insert_Domicilio. simpl.
  destruct (int64 (next_id _)) eqn:Ek; [|now left].
  right. split; [|now split].
  apply row_by_id_found in E as [Hin <-]. now apply in_map.
Qed.

Lemma actualizar_domicilio_effect : forall i u db,
  snd (actualizar_domicilio i u db) = db \/
  exists d,
    row_by_id Domicilio.id i (domicilios db) = Some d /\
    Domicilio_not_null (Domicilio_merged u d) = true /\
    snd (actualizar_domicilio i u db)
    = mkDB (clientes db)
           (update_by_id Domicilio.id (Domicilio_merged u d) (domicilios db))
           (productos db).
Proof.
  intros i u db. unfold actualizar_domicilio. bound i; [|now left].
  destruct (row_by_id Domicilio.id i (domicilios db)) as [d|] eqn:E;
    [|now left].
  rewrite setattr_Domicilio_merged. unfold update_Domicilio.
  destruct (Domicilio_not_null (Domicilio_merged u d)) eqn:En; [|now left].
  right. now exists d.
Qed.

Lemma eliminar_domicilio_effect : forall i db,
  snd (eliminar_domicilio i db) = db \/
  snd (eliminar_domicilio i db)
  = mkDB (clientes db) (delete_by_id Domicilio.id i (domicilios db))
         (productos db).
Proof.
  intros i db. unfold eliminar_domicilio. bound i; [|now left].
  destruct (row_by_id Domicilio.id i (domicilios db)) as [d|] eqn:E;
    [|now left].
  right. apply row_by_id_found in E as [_ <-]. reflexivity.
Qed.

Lemma crear_producto_effect : forall c db,
  snd (crear_producto c db) = db \/
  int64 (next_id (map Producto.id (productos db))) = true /\
  snd (crear_producto c db)
  = mkDB (clientes db) (domicilios db)
         (productos db
          ++ [Producto_new (next_id (map Producto.id (productos db))) c]).
Proof.
  intros c db. unfold crear_producto, insert_Producto. simpl.
  destruct (int64 (next_id _)) eqn:Ek; [|now left]. now right.
Qed.

Lemma actualizar_producto_effect : forall i u db,
  snd (actualizar_producto i u db) = db \/
  exists p,
    row_by_id Producto.id i (productos db) = Some p /\
    Producto_not_null (Producto_merged u p) = true /\
    snd (actualizar_producto i u db)
    = mkDB (clientes db) (domicilios db)
           (update_by_id Producto.id (Producto_merged u p) (productos db)).
Proof.
  intros i u db. unfold actualizar_producto. bound i; [|now left].
  destruct (row_by_id Producto.id i (productos db)) as [p|] eqn:E;
    [|now left].
  rewrite setattr_Producto_merged. unfold update_Producto.
  destruct (Producto_not_null (Producto_merged u p)) eqn:En; [|now left].
  right. now exists p.
Qed.

Lemma eliminar_producto_effect : forall i db,
  snd (eliminar_producto i db) = db \/
  snd (eliminar_producto i db)
  = mkDB (clientes db) (domicilios db)
         (delete_by_id Producto.id i (productos db)).
Proof.
  intros i db. unfold eliminar_producto. bound i; [|now left].
  destruct (row_by_id Producto.id i (productos db)) as [p|] eqn:E;
    [|now left].
  right. apply row_by_id_found in E as [_ <-]. reflexivity.
Qed.

(** ** Every store the service builds is in good order *)

Section GoodOrder.
Context {L : Library}.

Lemma Cliente_merged_stored_ok : forall body u c,
  validate_ClienteUpdate body = inr u ->
  Cliente_stored_ok c ->
  Cliente_not_null (Cliente_merged u c) = true ->
  Cliente_stored_ok (Cliente_merged u c).
Proof.
  intros body u c Hval [O1 [O2 [O3 [[e [O4 O4']] O5]]]] Hnn.
  unfold validate_ClienteUpdate in Hval.
  destruct (optional (check_length 1 255) (ClienteJSON.razon_social body))
    as [f1|] eqn:E1; [|discriminate].
  destruct (optional (check_length 1 255)
                     (ClienteJSON.nombre_comercial body))
    as [f2|] eqn:E2; [|discriminate].
  destruct (optional check_rfc_update (ClienteJSON.rfc body))
    as [f3|] eqn:E3; [|discriminate].
  destruct (optional validate_email (ClienteJSON.correo_electronico body))
    as [f4|] eqn:E4; [|discriminate].
  destruct (optional (check_length 10 20) (ClienteJSON.telefono body))
    as [f5|] eqn:E5; [|discriminate].
  injection Hval as <-.
  unfold Cliente_not_null, Cliente_merged in Hnn. simpl in Hnn.
  rewrite !andb_true_iff, !negb_true_iff in Hnn.
  destruct Hnn as [[[[N1 N2] N3] N4] N5].
  assert (Hlen : forall lo hi a b,
             check_length lo hi a = Some b -> check_length lo hi b <> None).
  { intros lo hi a b H. now rewrite (check_length_idem _ _ _ _ H). }
  unfold Cliente_stored_ok, Cliente_merged. simpl.
  split; [|split; [|split; [|split]]].
  - apply attribute_merged_ok; auto.
    exact (optional_field_ok _ _ _ _ _ _ _ (Hlen 1 255) E1).
  - apply attribute_merged_ok; auto.
    exact (optional_field_ok _ _ _ _ _ _ _ (Hlen 1 255) E2).
  - apply attribute_merged_ok; auto.
    exact (optional_field_ok _ _ _ _ _ _ _ (Hlen 12 13) E3).
  - destruct f4 as [|[b|]]; simpl in *.
    + now exists e.
    + exists b. split; [reflexivity|].
      apply optional_value in E4 as [a Ha].
      exact (@validate_email_normal L _ _ Ha).
    + discriminate.
  - apply attribute_merged_ok; auto.
    exact (optional_field_ok _ _ _ _ _ _ _ (Hlen 10 20) E5).
Qed.

Lemma Domicilio_merged_ok : forall body u d,
  validate_DomicilioUpdate body = inr u ->
  DomicilioResponse_validate d <> None ->
  Domicilio_not_null (Domicilio_merged u d) = true ->
  DomicilioResponse_validate (Domicilio_merged u d) <> None.
Proof.
  intros body u d Hval Hd Hnn.
  unfold Domicilio_not_null, Domicilio_merged in Hnn. simpl in Hnn.
  rewrite !andb_true_iff, !negb_true_iff in Hnn.
  destruct Hnn as [[[[N1 N2] N3] N4] N5].
  apply (Domicilio_merged_valid body); auto;
    eapply merged_not_null; eassumption.
Qed.

Lemma Producto_merged_ok : forall body u p,
  validate_ProductoUpdate body = inr u ->
  ProductoResponse_validate p <> None ->
  Producto_not_null (Producto_merged u p) = true ->
  ProductoResponse_validate (Producto_merged u p) <> None.
Proof.
  intros body u p Hval Hp Hnn.
  unfold Producto_not_null, Producto_merged in Hnn. simpl in Hnn.
  rewrite !andb_true_iff, !negb_true_iff in Hnn.
  destruct Hnn as [[N1 N2] N3].
  apply (Producto_merged_valid body); auto;
    eapply merged_not_null; eassumption.
Qed.

Lemma app_wf : forall r db, db_wf db -> db_wf (snd (app r db)).
Proof.
  intros r db [Hok [Hc [Hd Hp]]].
  split; [now apply app_ok|].
  destruct r; unfold app, outcome;
    unfold POST_clientes, GET_clientes, GET_cliente, PUT_cliente,
           DELETE_cliente, POST_domicilios, GET_domicilios, GET_domicilio,
           PUT_domicilio, DELETE_domicilio, POST_productos, GET_productos,
           GET_producto, PUT_producto, DELETE_producto;
    try match goal with
        | |- context [match ?v with inl _ => _ | inr _ => _ end] =>
            let E := fresh "Eval" in destruct v as [errs|v'] eqn:E
        end;
    parsing;
    cbn [fst snd]; rewrite ?snd_render; unfold respond; cbn [fst snd];
    auto;
    try (unfold listar_clientes, listar_domicilios, listar_productos;
         match goal with
         | |- context [if ?b then _ else _] => destruct b
         end; cbn [snd]; now auto).
  - (* POST /clientes *)
    destruct (crear_cliente_effect v' db) as [-> | [Hk ->]]; [easy|].
    cbn [clientes domicilios productos]. split; [|now split].
    apply table_ok_insert; [assumption | reflexivity | exact Hk |].
    now apply (Cliente_new_stored_ok body).
  - (* GET /clientes/{id} *)
    unfold obtener_cliente. bound cliente_id; [|easy].
    now destruct (row_by_id _ _ _).
  - (* PUT /clientes/{id} *)
    destruct (actualizar_cliente_effect cliente_id v' db)
      as [-> | [c [Hc1 [Hc2 ->]]]]; [easy|].
    cbn [clientes domicilios productos]. split; [|now split].
    destruct (table_ok_found _ _ _ _ _ _ Hc Hc1) as [Hpos Hst].
    apply row_by_id_found in Hc1 as [_ Hid].
    apply table_ok_update; [assumption | | ].
    + simpl. now rewrite Hid.
    + now apply (Cliente_merged_stored_ok body).
  - (* DELETE /clientes/{id} *)
    destruct (eliminar_cliente_effect cliente_id db) as [-> | [c [_ ->]]];
      [easy|].
    unfold delete_Cliente. cbn [clientes domicilios productos].
    split; [|split]; [| |assumption].
    + now apply table_ok_delete.
    + now apply table_ok_delete_each.
  - (* POST /clientes/{id}/domicilios *)
    destruct (crear_domicilio_effect cliente_id v' db)
      as [-> | [_ [Hk ->]]]; [easy|].
    cbn [clientes domicilios productos]. split; [|split]; try assumption.
    apply table_ok_insert; [assumption | reflexivity | exact Hk |].
    now rewrite (DomicilioResponse_of_create body).
  - (* GET /domicilios/{id} *)
    unfold obtener_domicilio. bound domicilio_id; [|easy].
    now destruct (row_by_id _ _ _).
  - (* PUT /domicilios/{id} *)
    destruct (actualizar_domicilio_effect domicilio_id v' db)
      as [-> | [d [Hd1 [Hd2 ->]]]]; [easy|].
    cbn [clientes domicilios productos]. split; [|split]; try assumption.
    destruct (table_ok_found _ _ _ _ _ _ Hd Hd1) as [Hpos Hst].
    apply row_by_id_found in Hd1 as [_ Hid].
    apply table_ok_update; [assumption | | ].
    + simpl. now rewrite Hid.
    + now apply (Domicilio_merged_ok body).
  - (* DELETE /domicilios/{id} *)
    destruct (eliminar_domicilio_effect domicilio_id db) as [-> | ->];
      [easy|].
    cbn [clientes domicilios productos].
    split; [|split]; try assumption. now apply table_ok_delete.
  - (* POST /productos *)
    destruct (crear_producto_effect v' db) as [-> | [Hk ->]]; [easy|].
    cbn [clientes domicilios productos].
    split; [|split]; try assumption.
    apply table_ok_insert; [assumption | reflexivity | exact Hk |].
    now rewrite (ProductoResponse_of_create body).
  - (* GET /productos/{id} *)
    unfold obtener_producto. bound producto_id; [|easy].
    now destruct (row_by_id _ _ _).
  - (* PUT /productos/{id} *)
    destruct (actualizar_producto_effect producto_id v' db)
      as [-> | [p [Hp1 [Hp2 ->]]]]; [easy|].
    cbn [clientes domicilios productos]. split; [|split]; try assumption.
    destruct (table_ok_found _ _ _ _ _ _ Hp Hp1) as [Hpos Hst].
    apply row_by_id_found in Hp1 as [_ Hid].
    apply table_ok_update; [assumption | | ].
    + simpl. now rewrite Hid.
    + now apply (Producto_merged_ok body).
  - (* DELETE /productos/{id} *)
    destruct (eliminar_producto_effect producto_id db) as [-> | ->];
      [easy|].
    cbn [clientes domicilios productos].
    split; [|split]; try assumption. now apply table_ok_delete.
Qed.

Lemma serve_wf : forall rs db, db_wf db -> db_wf (serve rs db).
Proof.
  induction rs as [|r rs IH]; intros db H; simpl; [assumption|].
  apply IH. now apply app_wf.
Qed.

Lemma empty_db_wf : db_wf empty_db.
Proof.
  split; [apply empty_db_ok|]. split; [|split]; apply table_ok_nil.
Qed.

(** X1. Every store the service can be in is in good order: in each of the
    three tables the ids are pairwise different and are rowids, from 1 to
    2^63 - 1; no column of a client is null, the tax ids are pairwise
    different and the [cliente_id] of every address is the id of a client;
    every client passes the checks of the update schema with its e-mail in
    normal form; every address and every product passes its response
    model. *)
Theorem reachable_wf : forall db, reachable db -> db_wf db.
Proof.
  intros db [rs <-]. generalize empty_db_wf. generalize empty_db.
  induction rs as [|r rs IH]; intros db H; simpl; [assumption|].
  apply IH. now apply app_wf.
Qed.

End GoodOrder.

(** ** Create, then read *)

Lemma row_by_id_snoc : forall A (id_of : A -> Z) rows r,
  ~ In (id_of r) (map id_of rows) ->
  row_by_id id_of (id_of r) (rows ++ [r]) = Some r.
Proof.
  intros A id_of rows r H. unfold row_by_id. induction rows as [|x rows IH].
  - simpl. now rewrite Z.eqb_refl.
  - simpl in *. destruct (id_of x =? id_of r) eqn:E.
    + apply Z.eqb_eq in E. exfalso. apply H. now left.
    + apply IH. tauto.
Qed.

Lemma row_by_id_snoc_other : forall A (id_of : A -> Z) rows r j,
  j <> id_of r ->
  row_by_id id_of j (rows ++ [r]) = row_by_id id_of j rows.
Proof.
  intros A id_of rows r j H. unfold row_by_id.
  induction rows as [|x rows IH]; simpl.
  - destruct (id_of r =? j) eqn:E; [|reflexivity].
    apply Z.eqb_eq in E. congruence.
  - now destruct (id_of x =? j).
Qed.

Section CreateRead.
Context {L : Library}.

(** X2. What a create answers with 201 can be read back: a get of the id in
    the answer, on the store the create leaves, answers 200 with the same
    content, for clients, addresses and products alike. *)
Theorem crear_y_obtener : forall (db db' : DB),
  (forall body r,
     POST_clientes body db = (JSONResponse 201 r, db') ->
     GET_cliente (ClienteResponse.id r) db' = (JSONResponse 200 r, db')) /\
  (forall cliente_id body r,
     POST_domicilios cliente_id body db = (JSONResponse 201 r, db') ->
     GET_domicilio (DomicilioResponse.id r) db' = (JSONResponse 200 r, db') /\
     DomicilioResponse.cliente_id r = cliente_id) /\
  (forall body r,
     POST_productos body db = (JSONResponse 201 r, db') ->
     GET_producto (ProductoResponse.id r) db' = (JSONResponse 200 r, db')).
Proof.
  intros db db'. split; [|split].
  - intros body r H. unfold POST_clientes in H.
    destruct (validate_ClienteCreate body) as [errs|c] eqn:Ev;
      [discriminate|].
    unfold respond, crear_cliente, insert_Cliente in H.
    set (new := Cliente_new _ c) in H.
    destruct (Cliente_not_null new && _); simpl in H; [|discriminate].
    destruct (int64 (next_id _)) eqn:Hk; simpl in H; [|discriminate].
    destruct (ClienteResponse_validate new) as [r'|] eqn:Er;
      [|discriminate].
    injection H as <- <-.
    rewrite (ClienteResponse_validate_id _ _ Er).
    unfold GET_cliente, respond, obtener_cliente.
    rewrite (int_error_int64 "cliente_id" (Cliente.id new) Hk).
    rewrite (first_by_id_int64 _ _ _ _ Hk). cbn [clientes].
    change (next_id (map Cliente.id (clientes db))) with (Cliente.id new).
    rewrite row_by_id_snoc by apply next_id_fresh.
    simpl. now rewrite Er.
  - intros i body r H. unfold POST_domicilios in H.
    destruct (validate_DomicilioCreate body) as [errs|c] eqn:Ev;
      [discriminate|].
    parsed H.
    unfold respond, crear_domicilio in H.
    destruct (first_by_id Cliente.id i (clientes db)) as [e|[x|]];
      [discriminate| |discriminate].
    unfold insert_Domicilio in H.
    set (new := Domicilio_new _ c i) in H.
    destruct (Domicilio_not_null new); simpl in H; [|discriminate].
    destruct (int64 (next_id _)) eqn:Hk; simpl in H; [|discriminate].
    destruct (DomicilioResponse_validate new) as [r'|] eqn:Er;
      [|discriminate].
    injection H as <- <-.
    unfold new in Er.
    rewrite (DomicilioResponse_of_create _ _ _ _ Ev) in Er.
    injection Er as <-. simpl. split; [|reflexivity].
    unfold GET_domicilio, respond, obtener_domicilio.
    rewrite (int_error_int64 "domicilio_id" _ Hk).
    rewrite (first_by_id_int64 _ _ _ _ Hk). cbn [domicilios].
    change (next_id (map Domicilio.id (domicilios db)))
      with (Domicilio.id new).
    rewrite row_by_id_snoc by apply next_id_fresh.
    simpl. unfold new. now rewrite (DomicilioResponse_of_create _ _ _ _ Ev).
  - intros body r H. unfold POST_productos in H.
    destruct (validate_ProductoCreate body) as [errs|c] eqn:Ev.
    { unfold request_validation_error in H.
      now destruct (ProductoCreate_echo body). }
    unfold render, respond, crear_producto, insert_Producto in H.
    set (new := Producto_new _ c) in H.
    destruct (Producto_not_null new); simpl in H; [|discriminate].
    destruct (int64 (next_id _)) eqn:Hk; simpl in H; [|discriminate].
    destruct (ProductoResponse_validate new) as [r'|] eqn:Er;
      [|discriminate].
    simpl in H.
    destruct (ProductoResponse_json r') eqn:Ej; [|discriminate].
    injection H as <- <-.
    rewrite (ProductoResponse_validate_id _ _ Er).
    unfold GET_producto, render, respond, obtener_producto.
    rewrite (int_error_int64 "producto_id" (Producto.id new) Hk).
    rewrite (first_by_id_int64 _ _ _ _ Hk). cbn [productos].
    change (next_id (map Producto.id (productos db)))
      with (Producto.id new).
    rewrite row_by_id_snoc by apply next_id_fresh.
    simpl. rewrite Er. simpl. now rewrite Ej.
Qed.

End CreateRead.

(** ** Delete, then read *)

Lemma row_by_id_delete : forall A (id_of : A -> Z) rows i j,
  row_by_id id_of j (delete_by_id id_of i rows)
  = if j =? i then None else row_by_id id_of j rows.
Proof.
  intros A id_of rows i j. unfold row_by_id, delete_by_id.
  induction rows as [|x rows IH]; simpl.
  - now destruct (j =? i).
  - destruct (id_of x =? i) eqn:Ei; simpl.
    + rewrite IH. destruct (j =? i) eqn:Ej; [reflexivity|].
      apply Z.eqb_eq in Ei. apply Z.eqb_neq in Ej.
      assert (E : (id_of x =? j) = false) by (apply Z.eqb_neq; congruence).
      now rewrite E.
    + destruct (id_of x =? j) eqn:Exj.
      * apply Z.eqb_eq in Exj. apply Z.eqb_neq in Ei.
        assert (E : (j =? i) = false) by (apply Z.eqb_neq; congruence).
        now rewrite E.
      * exact IH.
Qed.

Lemma delete_by_id_absent : forall A (id_of : A -> Z) rows i,
  row_by_id id_of i rows = None -> delete_by_id id_of i rows = rows.
Proof.
  intros A id_of rows i E. unfold delete_by_id. apply forallb_filter_id.
  apply forallb_forall. intros x Hx. apply negb_true_iff.
  exact (find_none _ _ E x Hx).
Qed.

Lemma eliminar_cliente_clientes : forall i db,
  int64 i = true ->
  clientes (snd (eliminar_cliente i db))
  = delete_by_id Cliente.id i (clientes db).
Proof.
  intros i db Hi. unfold eliminar_cliente.
  rewrite (first_by_id_int64 _ _ _ _ Hi).
  destruct (row_by_id Cliente.id i (clientes db)) as [c|] eqn:E.
  - apply row_by_id_found in E as [_ <-]. reflexivity.
  - simpl. symmetry. now apply delete_by_id_absent.
Qed.

Lemma eliminar_domicilio_domicilios : forall i db,
  int64 i = true ->
  domicilios (snd (eliminar_domicilio i db))
  = delete_by_id Domicilio.id i (domicilios db).
Proof.
  intros i db Hi. unfold eliminar_domicilio.
  rewrite (first_by_id_int64 _ _ _ _ Hi).
  destruct (row_by_id Domicilio.id i (domicilios db)) as [d|] eqn:E.
  - apply row_by_id_found in E as [_ <-]. reflexivity.
  - simpl. symmetry. now apply delete_by_id_absent.
Qed.

Lemma eliminar_producto_productos : forall i db,
  int64 i = true ->
  productos (snd (eliminar_producto i db))
  = delete_by_id Producto.id i (productos db).
Proof.
  intros i db Hi. unfold eliminar_producto.
  rewrite (first_by_id_int64 _ _ _ _ Hi).
  destruct (row_by_id Producto.id i (productos db)) as [p|] eqn:E.
  - apply row_by_id_found in E as [_ <-]. reflexivity.
  - simpl. symmetry. now apply delete_by_id_absent.
Qed.

(** The query by id after a delete by id. *)
Lemma first_by_id_delete : forall A (id_of : A -> Z) rows i j,
  int64 i = true ->
  first_by_id id_of j (delete_by_id id_of i rows)
  = if j =? i then inr None else first_by_id id_of j rows.
Proof.
  intros A id_of rows i j Hi. unfold first_by_id.
  rewrite row_by_id_delete. destruct (j =? i) eqn:E.
  - apply Z.eqb_eq in E. subst j. now rewrite Hi.
  - reflexivity.
Qed.

Section DeleteRead.
Context {L : Library}.

(** X3. A delete removes the id and nothing else from its table. For an id
    that fits 64 bits, whatever the delete answered, afterwards a get of
    the id answers 404 and so does a second delete, and the query of every
    other id gives what it gave before. *)
Theorem eliminar_y_obtener : forall (db : DB) (i j : Z),
  int64 i = true ->
  (let db' := snd (DELETE_cliente i db) in
   GET_cliente i db' = (ErrorResponse 404 "Cliente no encontrado", db') /\
   DELETE_cliente i db' = (ErrorResponse 404 "Cliente no encontrado", db') /\
   first_by_id Cliente.id j (clientes db')
   = if j =? i then inr None
     else first_by_id Cliente.id j (clientes db)) /\
  (let db' := snd (DELETE_domicilio i db) in
   GET_domicilio i db'
   = (ErrorResponse 404 "Domicilio no encontrado", db') /\
   DELETE_domicilio i db'
   = (ErrorResponse 404 "Domicilio no encontrado", db') /\
   first_by_id Domicilio.id j (domicilios db')
   = if j =? i then inr None
     else first_by_id Domicilio.id j (domicilios db)) /\
  (let db' := snd (DELETE_producto i db) in
   GET_producto i db' = (ErrorResponse 404 "Producto no encontrado", db') /\
   DELETE_producto i db'
   = (ErrorResponse 404 "Producto no encontrado", db') /\
   first_by_id Producto.id j (productos db')
   = if j =? i then inr None
     else first_by_id Producto.id j (productos db)).
Proof.
  intros db i j Hint. split; [|split]; cbv zeta.
  - assert (H : forall k,
               first_by_id Cliente.id k
                 (clientes (snd (DELETE_cliente i db)))
               = if k =? i then inr None
                 else first_by_id Cliente.id k (clientes db)).
    { intros k. unfold DELETE_cliente, respond. path. cbn [snd].
      rewrite eliminar_cliente_clientes by exact Hint.
      now apply first_by_id_delete. }
    pose proof (H i) as Hi. rewrite Z.eqb_refl in Hi.
    split; [|split; [|apply H]].
    + unfold GET_cliente, respond, obtener_cliente. path. now rewrite Hi.
    + unfold DELETE_cliente at 1. path. unfold respond, eliminar_cliente.
      now rewrite Hi.
  - assert (H : forall k,
               first_by_id Domicilio.id k
                 (domicilios (snd (DELETE_domicilio i db)))
               = if k =? i then inr None
                 else first_by_id Domicilio.id k (domicilios db)).
    { intros k. unfold DELETE_domicilio, respond. path. cbn [snd].
      rewrite eliminar_domicilio_domicilios by exact Hint.
      now apply first_by_id_delete. }
    pose proof (H i) as Hi. rewrite Z.eqb_refl in Hi.
    split; [|split; [|apply H]].
    + unfold GET_domicilio, respond, obtener_domicilio. path. now rewrite Hi.
    + unfold DELETE_domicilio at 1. path. unfold respond, eliminar_domicilio.
      now rewrite Hi.
  - assert (H : forall k,
               first_by_id Producto.id k
                 (productos (snd (DELETE_producto i db)))
               = if k =? i then inr None
                 else first_by_id Producto.id k (productos db)).
    { intros k. unfold DELETE_producto, respond. path. cbn [snd].
      rewrite eliminar_producto_productos by exact Hint.
      now apply first_by_id_delete. }
    pose proof (H i) as Hi. rewrite Z.eqb_refl in Hi.
    split; [|split; [|apply H]].
    + unfold GET_producto, render, respond, obtener_producto. path.
      now rewrite Hi.
    + unfold DELETE_producto at 1. path. unfold respond, eliminar_producto.
      now rewrite Hi.
Qed.

(** ** Writing to what does not exist *)

(** X4. For an id that fits 64 bits and that no row of the table has, an
    update with a valid body and a delete are answered 404 with the message
    of the resource, and so is the creation of an address under a client id
    that no client has; the store is left as it was. *)
Theorem escribir_inexistente_404 : forall (db : DB) (i : Z),
  int64 i = true ->
  (~ In i (map Cliente.id (clientes db)) ->
   DELETE_cliente i db = (ErrorResponse 404 "Cliente no encontrado", db) /\
   (forall body u, validate_ClienteUpdate body = inr u ->
      PUT_cliente i body db
      = (ErrorResponse 404 "Cliente no encontrado", db)) /\
   (forall body c, validate_DomicilioCreate body = inr c ->
      POST_domicilios i body db
      = (ErrorResponse 404 "Cliente no encontrado", db))) /\
  (~ In i (map Domicilio.id (domicilios db)) ->
   DELETE_domicilio i db
   = (ErrorResponse 404 "Domicilio no encontrado", db) /\
   (forall body u, validate_DomicilioUpdate body = inr u ->
      PUT_domicilio i body db
      = (ErrorResponse 404 "Domicilio no encontrado", db))) /\
  (~ In i (map Producto.id (productos db)) ->
   DELETE_producto i db
   = (ErrorResponse 404 "Producto no encontrado", db) /\
   (forall body u, validate_ProductoUpdate body = inr u ->
      PUT_producto i body db
      = (ErrorResponse 404 "Producto no encontrado", db))).
Proof.
  intros db i Hi. split; [|split]; intros H;
    apply row_by_id_absent in H.
  - split; [|split].
    + unfold DELETE_cliente, respond, eliminar_cliente. path.
      now rewrite (first_by_id_int64 _ _ _ _ Hi), H.
    + intros body u Hv. unfold PUT_cliente, respond, actualizar_cliente.
      rewrite Hv. path. now rewrite (first_by_id_int64 _ _ _ _ Hi), H.
    + intros body c Hv. unfold POST_domicilios, respond, crear_domicilio.
      rewrite Hv. path. now rewrite (first_by_id_int64 _ _ _ _ Hi), H.
  - split.
    + unfold DELETE_domicilio, respond, eliminar_domicilio. path.
      now rewrite (first_by_id_int64 _ _ _ _ Hi), H.
    + intros body u Hv. unfold PUT_domicilio, respond, actualizar_domicilio.
      rewrite Hv. path. now rewrite (first_by_id_int64 _ _ _ _ Hi), H.
  - split.
    + unfold DELETE_producto, respond, eliminar_producto. path.
      now rewrite (first_by_id_int64 _ _ _ _ Hi), H.
    + intros body u Hv.
      unfold PUT_producto, render, respond, actualizar_producto.
      rewrite Hv. path. now rewrite (first_by_id_int64 _ _ _ _ Hi), H.
Qed.

(** ** Creating under the right conditions *)

(** X5. An address posted with a valid body under the id of a client of the
    store is answered 201 with the values of the body, a fresh id and that
    [cliente_id], as long as the table has a rowid left; its row is
    appended to the addresses and nothing else changes. Afterwards the list
    of that client ends with the new row, and the list of every other
    client id that fits 64 bits is what it was. *)
Theorem crear_domicilio_201 : forall (db : DB) (i : Z) body c,
  validate_DomicilioCreate body = inr c ->
  int64 i = true ->
  In i (map Cliente.id (clientes db)) ->
  let k := next_id (map Domicilio.id (domicilios db)) in
  let new := Domicilio_new k c i in
  let db' := mkDB (clientes db) (domicilios db ++ [new]) (productos db) in
  int64 k = true ->
  ~ In k (map Domicilio.id (domicilios db)) /\
  POST_domicilios i body db
  = (JSONResponse 201
       (DomicilioResponse.mk
          (DomicilioCreate.domicilio c) (DomicilioCreate.colonia c)
          (DomicilioCreate.municipio c) (DomicilioCreate.estado c)
          (DomicilioCreate.tipo_direccion c) k i),
     db') /\
  forall j,
    int64 j = true ->
    listar_domicilios j db'
    = (Return (if j =? i
               then filter (fun d => Domicilio.cliente_id d =? i)
                           (domicilios db) ++ [new]
               else filter (fun d => Domicilio.cliente_id d =? j)
                           (domicilios db)),
       db').
Proof.
  intros db i body c Hv Hi Hin k new db' Hk.
  split; [apply next_id_fresh|]. split.
  - destruct (row_by_id_present _ Cliente.id i (clientes db) Hin)
      as [x Hx].
    unfold POST_domicilios, respond, crear_domicilio.
    rewrite Hv. path. rewrite (first_by_id_int64 _ _ _ _ Hi), Hx.
    unfold insert_Domicilio. simpl.
    fold k. rewrite Hk. simpl. fold new.
    unfold new. now rewrite (DomicilioResponse_of_create _ _ _ _ Hv).
  - intros j Hj. unfold listar_domicilios. rewrite Hj. f_equal. f_equal.
    unfold db'. cbn [domicilios]. rewrite filter_app. simpl.
    destruct (j =? i) eqn:E.
    + apply Z.eqb_eq in E. subst j. now rewrite Z.eqb_refl.
    + rewrite Z.eqb_sym, E. apply app_nil_r.
Qed.

(** X6. A client posted with a valid body whose tax id no client of the
    store holds is answered 201 with the validated values and a fresh id,
    as long as the table has a rowid left; its row is appended to the
    clients and nothing else changes. *)
Theorem crear_cliente_201 : forall (db : DB) body c,
  validate_ClienteCreate body = inr c ->
  ~ In (Some (ClienteCreate.rfc c)) (map Cliente.rfc (clientes db)) ->
  let k := next_id (map Cliente.id (clientes db)) in
  int64 k = true ->
  ~ In k (map Cliente.id (clientes db)) /\
  POST_clientes body db
  = (JSONResponse 201
       (ClienteResponse.mk
          (ClienteCreate.razon_social c) (ClienteCreate.nombre_comercial c)
          (ClienteCreate.rfc c) (ClienteCreate.correo_electronico c)
          (ClienteCreate.telefono c) k),
     mkDB (clientes db ++ [Cliente_new k c]) (domicilios db)
          (productos db)).
Proof.
  intros db body c Hv Hfree k Hk. split; [apply next_id_fresh|].
  unfold POST_clientes, respond, crear_cliente, insert_Cliente.
  rewrite Hv. fold k.
  assert (Hex : existsb (same_rfc (Cliente_new k c)) (clientes db) = false).
  { destruct (existsb _ (clientes db)) eqn:E; [|reflexivity].
    apply existsb_exists in E as [r [Hr E]]. apply same_rfc_true in E.
    exfalso. apply Hfree. change (Some (ClienteCreate.rfc c))
      with (Cliente.rfc (Cliente_new k c)).
    rewrite <- E. now apply in_map. }
  rewrite Hex. simpl. rewrite Hk. simpl.
  now rewrite (ClienteResponse_of_create _ _ _ Hv).
Qed.

End DeleteRead.

(** ** Repeating an update *)

Lemma merged_idem : forall A (f : field A) old,
  merged f (merged f old) = merged f old.
Proof.
  intros A [|v] old; reflexivity.
Qed.

Lemma Cliente_merged_idem : forall u c,
  Cliente_merged u (Cliente_merged u c) = Cliente_merged u c.
Proof.
  intros u c. unfold Cliente_merged. simpl. now rewrite !merged_idem.
Qed.

Lemma Domicilio_merged_idem : forall u d,
  Domicilio_merged u (Domicilio_merged u d) = Domicilio_merged u d.
Proof.
  intros u d. unfold Domicilio_merged. simpl. now rewrite !merged_idem.
Qed.

Lemma Producto_merged_idem : forall u p,
  Producto_merged u (Producto_merged u p) = Producto_merged u p.
Proof.
  intros u p. unfold Producto_merged. simpl. now rewrite !merged_idem.
Qed.

Lemma update_by_id_idem : forall A (id_of : A -> Z) r rows,
  update_by_id id_of r (update_by_id id_of r rows)
  = update_by_id id_of r rows.
Proof.
  intros A id_of r rows. unfold update_by_id. rewrite map_map.
  apply map_ext. intros x. destruct (id_of x =? id_of r) eqn:E.
  - now rewrite Z.eqb_refl.
  - now rewrite E.
Qed.

Lemma existsb_others_update : forall A (id_of : A -> Z) (Q : A -> bool)
  r rows,
  existsb (fun x => negb (id_of x =? id_of r) && Q x)
          (update_by_id id_of r rows)
  = existsb (fun x => negb (id_of x =? id_of r) && Q x) rows.
Proof.
  intros A id_of Q r rows. induction rows as [|x rows IH]; simpl;
    [reflexivity|].
  rewrite IH. destruct (id_of x =? id_of r) eqn:E.
  - now rewrite Z.eqb_refl.
  - now rewrite E.
Qed.

Section Repeat.
Context {L : Library}.

(** X7. An update is idempotent: when it is answered 200, sending the same
    body to the same id again is answered 200 with the same content and
    leaves the store as the first update left it. *)
Theorem actualizar_idempotente : forall (db db' : DB) (i : Z),
  (forall body r,
     PUT_cliente i body db = (JSONResponse 200 r, db') ->
     PUT_cliente i body db' = (JSONResponse 200 r, db')) /\
  (forall body r,
     PUT_domicilio i body db = (JSONResponse 200 r, db') ->
     PUT_domicilio i body db' = (JSONResponse 200 r, db')) /\
  (forall body r,
     PUT_producto i body db = (JSONResponse 200 r, db') ->
     PUT_producto i body db' = (JSONResponse 200 r, db')).
Proof.
  intros db db' i. split; [|split]; intros body r H.
  - unfold PUT_cliente in *.
    destruct (validate_ClienteUpdate body) as [errs|u]; [discriminate|].
    parsed H.
    unfold respond, actualizar_cliente in H.
    unfold first_by_id in H.
    destruct (int64 i) eqn:Hi; [|discriminate]. cbv beta iota in H.
    destruct (row_by_id Cliente.id i (clientes db)) as [c|] eqn:E;
      [|discriminate].
    rewrite setattr_Cliente_merged in H. unfold update_Cliente in H.
    set (m := Cliente_merged u c) in *.
    destruct (Cliente_not_null m) eqn:En; [|discriminate].
    destruct (existsb _ (clientes db)) eqn:Ex; [discriminate|].
    simpl in H.
    destruct (ClienteResponse_validate m) as [r'|] eqn:Er; [|discriminate].
    injection H as <- <-.
    assert (Hid : Cliente.id m = i)
      by (now apply row_by_id_found in E as [_ <-]).
    unfold respond, actualizar_cliente.
    rewrite (first_by_id_int64 _ _ _ _ Hi). cbn [clientes].
    assert (Hfind : row_by_id Cliente.id i (update_by_id Cliente.id m (clientes db))
                    = Some m).
    { rewrite <- Hid at 1.
      apply (row_by_id_update_same _ _ _ _ c). now rewrite Hid. }
    rewrite Hfind.
    rewrite setattr_Cliente_merged.
    replace (Cliente_merged u m) with m
      by (unfold m; now rewrite Cliente_merged_idem).
    unfold update_Cliente. cbn [clientes domicilios productos].
    rewrite En, existsb_others_update, Ex, update_by_id_idem.
    simpl. now rewrite Er.
  - unfold PUT_domicilio in *.
    destruct (validate_DomicilioUpdate body) as [errs|u]; [discriminate|].
    parsed H.
    unfold respond, actualizar_domicilio in H.
    unfold first_by_id in H.
    destruct (int64 i) eqn:Hi; [|discriminate]. cbv beta iota in H.
    destruct (row_by_id Domicilio.id i (domicilios db)) as [d|] eqn:E;
      [|discriminate].
    rewrite setattr_Domicilio_merged in H. unfold update_Domicilio in H.
    set (m := Domicilio_merged u d) in *.
    destruct (Domicilio_not_null m) eqn:En; [|discriminate].
    simpl in H.
    destruct (DomicilioResponse_validate m) as [r'|] eqn:Er;
      [|discriminate].
    injection H as <- <-.
    assert (Hid : Domicilio.id m = i)
      by (now apply row_by_id_found in E as [_ <-]).
    unfold respond, actualizar_domicilio.
    rewrite (first_by_id_int64 _ _ _ _ Hi). cbn [domicilios].
    assert (Hfind : row_by_id Domicilio.id i (update_by_id Domicilio.id m (domicilios db))
                    = Some m).
    { rewrite <- Hid at 1.
      apply (row_by_id_update_same _ _ _ _ d). now rewrite Hid. }
    rewrite Hfind.
    rewrite setattr_Domicilio_merged.
    replace (Domicilio_merged u m) with m
      by (unfold m; now rewrite Domicilio_merged_idem).
    unfold update_Domicilio. cbn [clientes domicilios productos].
    rewrite En, update_by_id_idem. simpl. now rewrite Er.
  - unfold PUT_producto in *.
    destruct (validate_ProductoUpdate body) as [errs|u].
    { unfold request_validation_error in H.
      now destruct (ProductoUpdate_echo body). }
    parsed H.
    unfold render, respond, actualizar_producto in H.
    unfold first_by_id in H.
    destruct (int64 i) eqn:Hi; [|discriminate]. cbv beta iota in H.
    destruct (row_by_id Producto.id i (productos db)) as [p|] eqn:E;
      [|discriminate].
    rewrite setattr_Producto_merged in H. unfold update_Producto in H.
    set (m := Producto_merged u p) in *.
    destruct (Producto_not_null m) eqn:En; [|discriminate].
    simpl in H.
    destruct (ProductoResponse_validate m) as [r'|] eqn:Er;
      [|discriminate].
    simpl in H.
    destruct (ProductoResponse_json r') eqn:Ej; [|discriminate].
    injection H as <- <-.
    assert (Hid : Producto.id m = i)
      by (now apply row_by_id_found in E as [_ <-]).
    unfold render, respond, actualizar_producto.
    rewrite (first_by_id_int64 _ _ _ _ Hi). cbn [productos].
    assert (Hfind : row_by_id Producto.id i (update_by_id Producto.id m (productos db))
                    = Some m).
    { rewrite <- Hid at 1.
      apply (row_by_id_update_same _ _ _ _ p). now rewrite Hid. }
    rewrite Hfind.
    rewrite setattr_Producto_merged.
    replace (Producto_merged u m) with m
      by (unfold m; now rewrite Producto_merged_idem).
    unfold update_Producto. cbn [clientes domicilios productos].
    rewrite En, update_by_id_idem. simpl. rewrite Er. simpl.
    now rewrite Ej.
Qed.

End Repeat.

(** ** What leaves the store alone *)

Lemma status_of_return : forall A B (rm : A -> option B) s (o : Outcome A),
  (exists a, o = Return a) ->
  status_code (serialize_response s rm o) = s \/
  status_code (serialize_response s rm o) = 500.
Proof.
  intros A B rm s o [a ->]. simpl. destruct (rm a); simpl; auto.
Qed.

Lemma handlers_return_or_keep : forall db,
  (forall c, returns_or_keeps db (crear_cliente c db)) /\
  (forall i u, returns_or_keeps db (actualizar_cliente i u db)) /\
  (forall i, returns_or_keeps db (eliminar_cliente i db)) /\
  (forall i c, returns_or_keeps db (crear_domicilio i c db)) /\
  (forall i u, returns_or_keeps db (actualizar_domicilio i u db)) /\
  (forall i, returns_or_keeps db (eliminar_domicilio i db)) /\
  (forall c, returns_or_keeps db (crear_producto c db)) /\
  (forall i u, returns_or_keeps db (actualizar_producto i u db)) /\
  (forall i, returns_or_keeps db (eliminar_producto i db)).
Proof.
  intros db. unfold returns_or_keeps.
  repeat split; intros;
    unfold crear_cliente, actualizar_cliente, eliminar_cliente,
           crear_domicilio, actualizar_domicilio, eliminar_domicilio,
           crear_producto, actualizar_producto, eliminar_producto,
           insert_Cliente, update_Cliente, insert_Domicilio,
           update_Domicilio, insert_Producto, update_Producto,
           first_by_id;
    repeat (match goal with
            | |- context [match row_by_id ?f ?i ?l with _ => _ end] =>
                destruct (row_by_id f i l)
            | |- context [if ?b then _ else _] => destruct b
            end; cbv beta iota);
    simpl; eauto.
Qed.

Lemma status_render : forall B (json : B -> bool) (r : Response B * DB),
  status_code (fst (render json r)) = 404 \/
  status_code (fst (render json r)) = 422 ->
  status_code (fst r) = 404 \/ status_code (fst r) = 422.
Proof.
  intros B json [[s c|s d|d|e] db]; unfold render; simpl; auto.
  destruct (json c); simpl; auto. intros [H|H]; discriminate.
Qed.

Section NoEffect.
Context {L : Library}.

(** X8. A request that only reads never changes the store, whatever it is
    answered. A request answered 404 or 422 has not changed the store
    either. *)
Theorem sin_efecto : forall (r : Request) (db : DB),
  (is_read r = true -> snd (app r db) = db) /\
  (fst (app r db) = 404 \/ fst (app r db) = 422 -> snd (app r db) = db).
Proof.
  intros r db.
  destruct (handlers_return_or_keep db)
    as [H1 [H2 [H3 [H4 [H5 [H6 [H7 [H8 H9]]]]]]]].
  assert (Hkeep : forall A B (rm : A -> option B) s (h : Outcome A * DB),
             returns_or_keeps db h -> s <> 404 -> s <> 422 ->
             status_code (serialize_response s rm (fst h)) = 404 \/
             status_code (serialize_response s rm (fst h)) = 422 ->
             snd h = db).
  { intros A B rm s h [Hret|Hk] N1 N2 Hs; [|assumption].
    destruct (status_of_return _ _ rm s _ Hret) as [E|E];
      rewrite E in Hs; lia. }
  assert (Hget : forall A (id_of : A -> Z) i rows (msg : string),
             snd (match first_by_id id_of i rows with
                  | inl e => (Raise e, db)
                  | inr None => (HTTPException 404 msg, db)
                  | inr (Some x) => (Return x, db)
                  end) = db).
  { intros A id_of i rows msg.
    now destruct (first_by_id id_of i rows) as [e|[x|]]. }
  assert (Hlist : forall A (b : bool) (l : list A),
             snd (if b then (Return l, db) else (Raise OverflowError, db))
             = db).
  { intros A b l. now destruct b. }
  split.
  - destruct r; intros Hr; try discriminate; unfold app, outcome;
      cbn [snd];
      unfold GET_clientes, GET_cliente, GET_domicilios, GET_domicilio,
             GET_productos, GET_producto;
      parsing;
      rewrite ?snd_render; unfold respond; cbn [snd];
      first [reflexivity | apply Hget | apply Hlist].
  - destruct r; unfold app, outcome; cbn [fst snd];
      unfold POST_clientes, GET_clientes, GET_cliente, PUT_cliente,
             DELETE_cliente, POST_domicilios, GET_domicilios, GET_domicilio,
             PUT_domicilio, DELETE_domicilio, POST_productos, GET_productos,
             GET_producto, PUT_producto, DELETE_producto;
      try match goal with
          | |- context [match ?v with inl _ => _ | inr _ => _ end] =>
              destruct v as [errs|v']
          end;
      parsing;
      cbn [fst snd]; rewrite ?snd_render; intros Hs;
      try apply status_render in Hs;
      unfold respond in *; cbn [fst snd] in *; try reflexivity;
      first [apply Hget | apply Hlist
            | eapply Hkeep; [ | | | exact Hs]; auto; lia].
Qed.

End NoEffect.

(** ** Pages *)

Lemma firstn_plus : forall A (a b : nat) (l : list A),
  firstn (a + b) l = firstn a l ++ firstn b (skipn a l).
Proof.
  intros A a b. induction a as [|a IH]; intros l; simpl; [reflexivity|].
  destruct l as [|x l]; simpl.
  - now rewrite firstn_nil.
  - now rewrite IH.
Qed.

(** X9. Consecutive pages of a list of clients or products neither overlap
    nor leave a gap: for a skip and limits that are not negative, the page at
    [skip] of [limit1] rows followed by the page at [skip + limit1] of
    [limit2] rows is the page at [skip] of [limit1 + limit2] rows. A page
    that starts at or after the end of the table is empty, and a page that
    ends within the table is full. *)
Theorem paginas_consecutivas :
  forall (A : Type) (rows : list A) (s l1 l2 : Z),
  0 <= s -> 0 <= l1 -> 0 <= l2 ->
  offset_limit s l1 rows ++ offset_limit (s + l1) l2 rows
  = offset_limit s (l1 + l2) rows /\
  (Z.of_nat (List.length rows) <= s -> offset_limit s l1 rows = []) /\
  (s + l1 <= Z.of_nat (List.length rows) ->
   Z.of_nat (List.length (offset_limit s l1 rows)) = l1).
Proof.
  intros A rows s l1 l2 Hs H1 H2.
  rewrite !offset_limit_spec by lia. split; [|split].
  - rewrite !Z2Nat.inj_add by lia. rewrite firstn_plus.
    f_equal. f_equal. rewrite skipn_skipn. f_equal. lia.
  - intros Hlen. rewrite skipn_all2 by lia. apply firstn_nil.
  - intros Hlen. rewrite length_firstn, length_skipn. lia.
Qed.

(** ** The pattern of the tax id *)

Lemma rx_take_spec : forall c k s rest,
  rx_take c k s = Some rest <->
  exists w, s = w ++ rest /\ List.length w = k /\
            Forall (fun x => c x = true) w.
Proof.
  intros c k. induction k as [|k IH]; intros s rest; simpl.
  - split.
    + intros H. injection H as <-. exists []. repeat split. constructor.
    + intros [w [-> [Hl _]]]. destruct w; [reflexivity | discriminate].
  - destruct s as [|x s].
    + split; [discriminate|]. intros [w [Hs [Hl _]]].
      destruct w; discriminate.
    + destruct (c x) eqn:Ec.
      * rewrite IH. split.
        -- intros [w [-> [Hl Hw]]]. exists (x :: w). simpl.
           repeat split; auto.
        -- intros [w [Hs [Hl Hw]]]. destruct w as [|y w]; [discriminate|].
           injection Hs as <- ->. injection Hl as Hl.
           exists w. repeat split; auto. now inversion Hw.
      * split; [discriminate|]. intros [w [Hs [Hl Hw]]].
        destruct w as [|y w]; [discriminate|]. injection Hs as <- ->.
        inversion Hw; subst. congruence.
Qed.

(** The matcher decides what a pattern with sound bounds denotes. *)
Lemma rx_fullmatch_matches : forall r s,
  Forall (fun a => (rx_min a <= rx_max a)%nat) r ->
  rx_fullmatch r s = true <-> rx_matches r s.
Proof.
  induction r as [|a r IH]; intros s Hwf.
  - simpl. split.
    + destruct s; [constructor | discriminate].
    + intros H. now inversion H.
  - inversion Hwf as [|? ? Ha Hr]; subst.
    assert (Hunf : rx_fullmatch (a :: r) s
                   = existsb
                       (fun k =>
                          match rx_take (rx_class a) k s with
                          | Some rest => rx_fullmatch r rest
                          | None => false
                          end)
                       (seq (rx_min a) (S (rx_max a - rx_min a))))
      by reflexivity.
    rewrite Hunf, existsb_exists. clear Hunf.
    split.
    + intros [k [Hk Hm]]. apply in_seq in Hk.
      destruct (rx_take (rx_class a) k s) as [rest|] eqn:E; [|discriminate].
      apply rx_take_spec in E as [w [-> [Hl Hw]]].
      constructor; [lia | assumption | now apply IH].
    + intros H. inversion H as [|? ? w rest Hlen Hw Hm]; subst.
      exists (List.length w). split; [apply in_seq; lia|].
      assert (E : rx_take (rx_class a) (List.length w) (w ++ rest)
                  = Some rest).
      { apply rx_take_spec. exists w. auto. }
      rewrite E. now apply IH.
Qed.

Section TaxId.
Context {L : Library}.

(** X10. The pattern of [ClienteBase.rfc] accepts exactly the strings made
    of three or four characters among A-Z, N with tilde and ampersand, then
    six decimal digits, then three characters among A-Z and decimal digits.
    Such a string has 12 or 13 characters, so the length bounds declared
    beside the pattern reject nothing that the pattern accepts. *)
Theorem rfc_pattern_shape : forall s : str,
  (rx_fullmatch RFC_PATTERN s = true <->
   exists h d t,
     s = h ++ d ++ t /\
     (List.length h = 3 \/ List.length h = 4)%nat /\
     Forall (fun c => rfc_head c = true) h /\
     List.length d = 6%nat /\ Forall (fun c => unicode_Nd c = true) d /\
     List.length t = 3%nat /\ Forall (fun c => rfc_tail c = true) t) /\
  (rx_fullmatch RFC_PATTERN s = true -> len s = 12 \/ len s = 13) /\
  (check_rfc s = Some s <-> rx_fullmatch RFC_PATTERN s = true).
Proof.
  intros s.
  assert (Hwf : Forall (fun a => (rx_min a <= rx_max a)%nat) RFC_PATTERN).
  { unfold RFC_PATTERN. repeat constructor. }
  assert (Hshape : rx_fullmatch RFC_PATTERN s = true <->
     exists h d t,
       s = h ++ d ++ t /\
       (List.length h = 3 \/ List.length h = 4)%nat /\
       Forall (fun c => rfc_head c = true) h /\
       List.length d = 6%nat /\ Forall (fun c => unicode_Nd c = true) d /\
       List.length t = 3%nat /\ Forall (fun c => rfc_tail c = true) t).
  { rewrite (rx_fullmatch_matches _ _ Hwf). unfold RFC_PATTERN. split.
    - intros H.
      inversion H as [|? ? h r1 Hh Fh H1]; subst.
      inversion H1 as [|? ? d r2 Hd Fd H2]; subst.
      inversion H2 as [|? ? t r3 Ht Ft H3]; subst.
      inversion H3; subst. simpl in *.
      exists h, d, t. rewrite app_nil_r.
      repeat split; auto; lia.
    - intros [h [d [t [-> [Hh [Fh [Hd [Fd [Ht Ft]]]]]]]]].
      replace t with (t ++ []) by apply app_nil_r.
      repeat (constructor; simpl; auto; try lia). }
  assert (Hlen : rx_fullmatch RFC_PATTERN s = true ->
                 len s = 12 \/ len s = 13).
  { intros H. apply Hshape in H as [h [d [t [-> [Hh [_ [Hd [_ [Ht _]]]]]]]]].
    unfold len. rewrite !length_app. lia. }
  split; [exact Hshape|]. split; [exact Hlen|].
  unfold check_rfc, check_length. split.
  - intros H. destruct ((12 <=? len s) && (len s <=? 13)); [|discriminate].
    now destruct (rx_fullmatch RFC_PATTERN s).
  - intros H.
    assert (E : (12 <=? len s) && (len s <=? 13) = true).
    { apply andb_true_iff. rewrite !Z.leb_le. destruct (Hlen H); lia. }
    now rewrite E, H.
Qed.

End TaxId.

(** ** The kind of an address *)


(** ** The cascade, exactly *)

Lemma NoDup_map_inj : forall A B (f : A -> B) l a b,
  NoDup (map f l) -> In a l -> In b l -> f a = f b -> a = b.
Proof.
  intros A B f l a b. induction l as [|x l IH]; simpl; intros Hnd Ha Hb E;
    [contradiction|].
  apply NoDup_cons_iff in Hnd as [Hx Hnd].
  destruct Ha as [->|Ha], Hb as [->|Hb]; auto.
  - exfalso. apply Hx. rewrite E. now apply in_map.
  - exfalso. apply Hx. rewrite <- E. now apply in_map.
Qed.

Lemma filter_filter : forall A (p q : A -> bool) l,
  filter q (filter p l) = filter (fun x => p x && q x) l.
Proof.
  intros A p q l. induction l as [|x l IH]; simpl; [reflexivity|].
  destruct (p x); simpl; [|exact IH]. destruct (q x); now rewrite IH.
Qed.

Lemma delete_each_filter : forall A (id_of : A -> Z) loaded rows,
  fold_left (fun rows d => delete_by_id id_of (id_of d) rows) loaded rows
  = filter (fun r => negb (existsb (fun d => id_of r =? id_of d) loaded))
           rows.
Proof.
  intros A id_of loaded. induction loaded as [|d loaded IH]; intros rows;
    simpl.
  - symmetry. apply forallb_filter_id. now apply forallb_forall.
  - rewrite IH. unfold delete_by_id. rewrite filter_filter.
    apply filter_ext. intros r. now rewrite negb_orb.
Qed.

Lemma delete_Cliente_exact : forall c db,
  NoDup (map Domicilio.id (domicilios db)) ->
  delete_Cliente c db
  = mkDB (delete_by_id Cliente.id (Cliente.id c) (clientes db))
         (filter (fun d => negb (Domicilio.cliente_id d =? Cliente.id c))
                 (domicilios db))
         (productos db).
Proof.
  intros c db Hnd. unfold delete_Cliente. f_equal.
  rewrite delete_each_filter. apply filter_ext_in. intros r Hr. f_equal.
  destruct (Domicilio.cliente_id r =? Cliente.id c) eqn:E.
  - apply existsb_exists. exists r. split; [|apply Z.eqb_refl].
    apply filter_In. now split.
  - destruct (existsb _ _) eqn:Ex; [|reflexivity].
    apply existsb_exists in Ex as [d [Hd Heq]].
    apply filter_In in Hd as [Hd Hc]. apply Z.eqb_eq in Heq.
    rewrite (NoDup_map_inj _ _ _ _ r d Hnd Hr Hd Heq) in E. congruence.
Qed.

Section Cascade.
Context {L : Library}.

(** X12. In a store the service has built, deleting a client removes its row
    and exactly the addresses whose [cliente_id] is its id: the addresses of
    every other client stay, in their order, and the products are left as
    they were. *)
Theorem eliminar_cliente_exacto : forall (db : DB) (i : Z),
  reachable db ->
  In i (map Cliente.id (clientes db)) ->
  DELETE_cliente i db
  = (JSONResponse 204 tt,
     mkDB (delete_by_id Cliente.id i (clientes db))
          (filter (fun d => negb (Domicilio.cliente_id d =? i))
                  (domicilios db))
          (productos db)).
Proof.
  intros db i Hreach Hin.
  assert (Hwf : db_wf db).
  { destruct Hreach as [rs <-]. exact (serve_wf rs empty_db empty_db_wf). }
  destruct Hwf as [_ [[_ [Hrow _]] [[Hpk _] _]]].
  assert (Hi : int64 i = true).
  { apply in_map_iff in Hin as [c [<- Hc]]. apply int64_spec.
    specialize (Hrow c Hc). lia. }
  destruct (row_by_id_present _ Cliente.id i (clientes db) Hin) as [c Hc].
  unfold DELETE_cliente, respond, eliminar_cliente. path.
  rewrite (first_by_id_int64 _ _ _ _ Hi), Hc.
  apply row_by_id_found in Hc as [_ <-].
  rewrite (delete_Cliente_exact c db Hpk). reflexivity.
Qed.

End Cascade.

(** ** The address of the store *)

Lemma startswith_app : forall prefix rest,
  startswith (prefix ++ rest) prefix = true.
Proof.
  induction prefix as [|p prefix IH]; intros rest; simpl.
  - now destruct rest.
  - now rewrite N.eqb_refl, IH.
Qed.

Lemma startswith_split : forall prefix s,
  startswith s prefix = true -> exists rest, s = prefix ++ rest.
Proof.
  induction prefix as [|p prefix IH]; intros s H; simpl in *.
  - now exists s.
  - destruct s as [|c s]; [discriminate|].
    apply andb_true_iff in H as [E H]. apply N.eqb_eq in E. subst c.
    destruct (IH s H) as [rest ->]. now exists rest.
Qed.

Lemma replace_first_prefix : forall old new rest,
  replace_first old new (old ++ rest) = new ++ rest.
Proof.
  intros old new rest.
  assert (H : forall s, startswith s old = true ->
                        replace_first old new s
                        = new ++ skipn (List.length old) s).
  { intros s E.
    assert (U : replace_first old new s
                = if startswith s old
                  then new ++ skipn (List.length old) s
                  else match s with
                       | [] => []
                       | c :: s' => c :: replace_first old new s'
                       end) by (destruct s; reflexivity).
    now rewrite U, E. }
  rewrite H by apply startswith_app.
  now rewrite skipn_app, skipn_all, Nat.sub_diag.
Qed.

(** X13. The address of the store is normalised once at start-up: a value
    that starts with "postgres://" has that scheme, and nothing after it,
    turned into "postgresql://"; every other value is used as it is, and
    the default is the local SQLite file. The result never starts with
    "postgres://", so normalising twice changes nothing. The engine gets
    [check_same_thread=False] exactly when the address starts with
    "sqlite", and [pool_pre_ping=True] otherwise. *)
Theorem database_url_normalizada : forall environ : option str,
  startswith (DATABASE_URL environ) (cp "postgres://") = false /\
  DATABASE_URL (Some (DATABASE_URL environ)) = DATABASE_URL environ /\
  (forall rest,
     environ = Some (cp "postgres://" ++ rest) ->
     engine environ = mkEngine (cp "postgresql://" ++ rest) None true) /\
  (forall url,
     environ = Some url -> startswith url (cp "postgres://") = false ->
     DATABASE_URL environ = url) /\
  (environ = None ->
   engine environ = mkEngine (cp "sqlite:///./catalogos.db")
                             (Some false) false) /\
  (check_same_thread (engine environ) = Some false /\
   pool_pre_ping (engine environ) = false /\
   startswith (engine_url (engine environ)) (cp "sqlite") = true
   \/
   check_same_thread (engine environ) = None /\
   pool_pre_ping (engine environ) = true /\
   startswith (engine_url (engine environ)) (cp "sqlite") = false).
Proof.
  intros environ.
  assert (Hpg : forall rest,
             DATABASE_URL (Some (cp "postgres://" ++ rest))
             = cp "postgresql://" ++ rest).
  { intros rest. unfold DATABASE_URL. cbn [default].
    rewrite startswith_app. apply replace_first_prefix. }
  assert (Hno : startswith (DATABASE_URL environ) (cp "postgres://")
                = false).
  { unfold DATABASE_URL.
    destruct (startswith (default _ environ) (cp "postgres://")) eqn:E.
    - apply startswith_split in E as [rest ->].
      rewrite replace_first_prefix. reflexivity.
    - exact E. }
  split; [exact Hno|]. split; [|split; [|split; [|split]]].
  - unfold DATABASE_URL at 1. cbn [default]. now rewrite Hno.
  - intros rest ->. unfold engine. rewrite Hpg. reflexivity.
  - intros url -> E. unfold DATABASE_URL. cbn [default]. now rewrite E.
  - intros ->. reflexivity.
  - unfold engine.
    destruct (startswith (DATABASE_URL environ) (cp "sqlite")) eqn:E;
      [left | right]; cbn; auto.
Qed.

(** ** The collector at start-up and the log *)

(** X14. A collector whose client cannot be built at start-up, whatever the
    exception and the environment, holds no client and has logged one line;
    every request then passes the middleware with its response. Whatever
    the sink does, the middleware never drops a line of the log and always
    adds the latency line first; when recording the latency raises, the
    status of the request is not recorded at all. *)
Theorem metrics_log : forall (R : Type) (status : R -> Z)
  (duration : float) (utcnow : Z) (request : HTTPRequest)
  (call_next : HTTPRequest -> R) (log : Log),
  let endpoint := (method request ++ " " ++ path request)%string in
  (forall environ boto3_client ns env reg log0 e,
     (forall k s, boto3_client reg k s = inl e) ->
     let (metrics, log1) :=
       MetricsCollector_init environ boto3_client ns env reg log0 in
     cloudwatch metrics = None /\
     (exists line, log1 = log0 ++ [line]) /\
     fst (metrics_middleware metrics status duration utcnow request
                             call_next log)
     = inr (call_next request)) /\
  (forall metrics,
     exists rest,
       snd (metrics_middleware metrics status duration utcnow request
                               call_next log)
       = log ++ (INFO, Metric_latency endpoint duration
                                      (environment metrics)) :: rest) /\
  (forall metrics e log',
     record_latency metrics utcnow endpoint duration log = (Some e, log') ->
     metrics_middleware metrics status duration utcnow request call_next log
     = (inl e, log ++ [(INFO, Metric_latency endpoint duration
                                             (environment metrics))])).
Proof.
  intros R status duration utcnow request call_next log endpoint.
  split; [|split].
  - intros environ boto3_client ns env reg log0 e Hfail.
    unfold MetricsCollector_init.
    destruct ((truthy (AWS_ACCESS_KEY_ID environ)
               && truthy (AWS_SECRET_ACCESS_KEY environ))
              || truthy (AWS_PROFILE environ)).
    + rewrite Hfail. split; [reflexivity|]. split; [now eexists|].
      reflexivity.
    + split; [reflexivity|]. split; [now eexists|]. reflexivity.
  - intros metrics. unfold metrics_middleware, record_latency,
      record_http_status. fold endpoint.
    destruct (cloudwatch metrics) as [cw|].
    + repeat match goal with
             | |- context [put_metric_data cw ?n ?d] =>
                 destruct (put_metric_data cw n d) as [[]|]
             end; simpl; rewrite <- ?app_assoc; simpl; eexists; reflexivity.
    + simpl. rewrite <- app_assoc. simpl. eexists. reflexivity.
  - intros metrics e log' H. unfold metrics_middleware. fold endpoint.
    rewrite H. unfold record_latency in H.
    destruct (cloudwatch metrics) as [cw|]; [|discriminate].
    destruct (put_metric_data cw _ _) as [x|]; [|discriminate].
    destruct (isinstance_ClientError x); [discriminate|].
    now injection H as <- <-.
Qed.

(** ** Reading what exists *)

Lemma attribute_check_length : forall lo hi a v,
  attribute (check_length lo hi) a = Some v -> a = Some v.
Proof.
  intros lo hi [x|] v H; [|discriminate]. simpl in H.
  now destruct (check_length_same _ _ _ _ H) as [-> _].
Qed.

Lemma DomicilioResponse_validate_row : forall d r,
  DomicilioResponse_validate d = Some r ->
  d = Domicilio.mk (DomicilioResponse.id r)
        (Some (DomicilioResponse.domicilio r))
        (Some (DomicilioResponse.colonia r))
        (Some (DomicilioResponse.municipio r))
        (Some (DomicilioResponse.estado r))
        (Some (DomicilioResponse.tipo_direccion r))
        (DomicilioResponse.cliente_id r).
Proof.
  intros d r H. unfold DomicilioResponse_validate in H.
  destruct (attribute _ (Domicilio.domicilio d)) eqn:E1; [|discriminate].
  destruct (attribute _ (Domicilio.colonia d)) eqn:E2; [|discriminate].
  destruct (attribute _ (Domicilio.municipio d)) eqn:E3; [|discriminate].
  destruct (attribute _ (Domicilio.estado d)) eqn:E4; [|discriminate].
  destruct (Domicilio.tipo_direccion d) eqn:E5; [|discriminate].
  injection H as <-. simpl.
  apply attribute_check_length in E1, E2, E3, E4.
  destruct d. simpl in *. congruence.
Qed.

Lemma ProductoResponse_validate_row : forall p r,
  ProductoResponse_validate p = Some r ->
  p = Producto.mk (ProductoResponse.id r)
        (Some (ProductoResponse.nombre r))
        (Some (ProductoResponse.unidad_medida r))
        (Some (ProductoResponse.precio_base r)).
Proof.
  intros p r H. unfold ProductoResponse_validate in H.
  destruct (attribute _ (Producto.nombre p)) eqn:E1; [|discriminate].
  destruct (attribute _ (Producto.unidad_medida p)) eqn:E2; [|discriminate].
  destruct (attribute check_precio (Producto.precio_base p)) eqn:E3;
    [|discriminate].
  injection H as <-. simpl.
  apply attribute_check_length in E1, E2.
  destruct (Producto.precio_base p) as [x|] eqn:E4; [|discriminate].
  simpl in E3. destruct (check_precio_same _ _ E3) as [-> _].
  destruct p. simpl in *. congruence.
Qed.

Lemma validate_list_all : forall A B (f : A -> option B) l,
  Forall (fun a => f a <> None) l -> exists l', validate_list f l = Some l'.
Proof.
  intros A B f l H. induction H as [|a l Ha _ [l' IH]]; simpl.
  - now exists [].
  - destruct (f a) as [b|]; [|now elim Ha]. rewrite IH. now eexists.
Qed.

Lemma In_firstn : forall A n (l : list A) x, In x (firstn n l) -> In x l.
Proof.
  intros A n. induction n as [|n IH]; intros [|a l] x H; simpl in *;
    try contradiction.
  destruct H as [H|H]; auto.
Qed.

Lemma In_skipn : forall A n (l : list A) x, In x (skipn n l) -> In x l.
Proof.
  intros A n. induction n as [|n IH]; intros [|a l] x H; simpl in *; auto.
Qed.

Lemma offset_limit_incl : forall A (rows : list A) o l x,
  0 <= o -> 0 <= l -> In x (offset_limit o l rows) -> In x rows.
Proof.
  intros A rows o l x Ho Hl H. rewrite offset_limit_spec in H by assumption.
  apply In_firstn in H. now apply In_skipn in H.
Qed.

Lemma validate_list_In : forall A B (f : A -> option B) l l' b,
  validate_list f l = Some l' -> In b l' ->
  exists a, In a l /\ f a = Some b.
Proof.
  intros A B f. induction l as [|a l IH]; simpl; intros l' b H Hb.
  - injection H as <-. contradiction.
  - destruct (f a) as [b0|] eqn:E; [|discriminate].
    destruct (validate_list f l) as [bs|]; [|discriminate].
    injection H as <-. destruct Hb as [<-|Hb].
    + exists a. auto.
    + destruct (IH bs b eq_refl Hb) as [a' [Ha' E']]. exists a'. auto.
Qed.

Section ReadExisting.
Context {L : Library}.

(** X15. In a store the service has built, the addresses are always fit to
    be served, and so are the products whose price is finite: a get of an
    id the table has answers 200 with exactly the values of the stored row,
    the list of the addresses of a client id that fits 64 bits answers 200,
    and so does the list of products, for every skip and limit from 0 to
    2^63 - 1. None of them answers 500. *)
Theorem obtener_existente_200 : forall (db : DB) (i : Z) (q : Query),
  reachable db ->
  (forall d,
     row_by_id Domicilio.id i (domicilios db) = Some d ->
     exists r,
       GET_domicilio i db = (JSONResponse 200 r, db) /\
       d = Domicilio.mk i
             (Some (DomicilioResponse.domicilio r))
             (Some (DomicilioResponse.colonia r))
             (Some (DomicilioResponse.municipio r))
             (Some (DomicilioResponse.estado r))
             (Some (DomicilioResponse.tipo_direccion r))
             (DomicilioResponse.cliente_id r)) /\
  (forall p x,
     row_by_id Producto.id i (productos db) = Some p ->
     Producto.precio_base p = Some x -> is_finite x = true ->
     exists r,
       GET_producto i db = (JSONResponse 200 r, db) /\
       p = Producto.mk i
             (Some (ProductoResponse.nombre r))
             (Some (ProductoResponse.unidad_medida r))
             (Some (ProductoResponse.precio_base r))) /\
  (int64 i = true ->
   exists content, GET_domicilios i q db = (JSONResponse 200 content, db)) /\
  (0 <= default 0 (skip q) < 2 ^ 63 -> 0 <= default 100 (limit q) < 2 ^ 63 ->
   Forall (fun p => exists x, Producto.precio_base p = Some x /\
                              is_finite x = true) (productos db) ->
   exists content, GET_productos q db = (JSONResponse 200 content, db)).
Proof.
  intros db i q Hreach.
  assert (Hwf : db_wf db).
  { destruct Hreach as [rs <-]. exact (serve_wf rs empty_db empty_db_wf). }
  destruct Hwf as [_ [_ [[_ [Hdrow Hd]] [_ [Hprow Hp]]]]].
  rewrite Forall_forall in Hd, Hp.
  split; [|split; [|split]].
  - intros d E. destruct (row_by_id_found _ _ _ _ _ E) as [Hin Hid].
    assert (Hi : int64 i = true).
    { apply int64_spec. specialize (Hdrow d Hin). lia. }
    unfold GET_domicilio, respond, obtener_domicilio. path.
    rewrite (first_by_id_int64 _ _ _ _ Hi), E. simpl.
    destruct (DomicilioResponse_validate d) as [r|] eqn:Er;
      [|now elim (Hd d Hin)].
    exists r. split; [reflexivity|].
    rewrite <- Hid, <- (DomicilioResponse_validate_id _ _ Er).
    now apply DomicilioResponse_validate_row.
  - intros p x E Ex Hfin.
    destruct (row_by_id_found _ _ _ _ _ E) as [Hin Hid].
    assert (Hi : int64 i = true).
    { apply int64_spec. specialize (Hprow p Hin). lia. }
    unfold GET_producto, render, respond, obtener_producto. path.
    rewrite (first_by_id_int64 _ _ _ _ Hi), E. simpl.
    destruct (ProductoResponse_validate p) as [r|] eqn:Er;
      [|now elim (Hp p Hin)].
    pose proof (ProductoResponse_validate_row _ _ Er) as Hrow.
    assert (Hx : ProductoResponse.precio_base r = x).
    { rewrite Hrow in Ex. simpl in Ex. congruence. }
    simpl. unfold ProductoResponse_json. rewrite Hx, Hfin. simpl.
    exists r. split; [reflexivity|].
    rewrite <- Hid, <- (ProductoResponse_validate_id _ _ Er).
    exact Hrow.
  - intros Hi. unfold GET_domicilios, respond, listar_domicilios. path.
    rewrite Hi. simpl.
    destruct (validate_list_all _ _ DomicilioResponse_validate
                (filter (fun d => Domicilio.cliente_id d =? i)
                        (domicilios db))) as [l' E].
    { apply Forall_forall. intros d Hin. apply filter_In in Hin as [Hin _].
      now apply Hd. }
    rewrite E. now eexists.
  - intros Hs Hl Hfin. rewrite Forall_forall in Hfin.
    assert (Hs' : int64 (default 0 (skip q)) = true)
      by (apply int64_spec; lia).
    assert (Hl' : int64 (default 100 (limit q)) = true)
      by (apply int64_spec; lia).
    unfold GET_productos, render, respond, listar_productos. path.
    rewrite Hs', Hl'. simpl.
    destruct (validate_list_all _ _ ProductoResponse_validate
                (offset_limit (default 0 (skip q)) (default 100 (limit q))
                              (productos db))) as [l' E].
    { apply Forall_forall. intros p Hin.
      apply offset_limit_incl in Hin; [auto | lia | lia]. }
    rewrite E. simpl.
    assert (Hj : forallb ProductoResponse_json l' = true).
    { apply forallb_ProductoResponse_json. apply Forall_forall.
      intros r Hr.
      destruct (validate_list_In _ _ _ _ _ _ E Hr) as [p [Hin Er]].
      apply offset_limit_incl in Hin; [|lia|lia].
      destruct (Hfin p Hin) as [x [Ex Hx]].
      rewrite (ProductoResponse_validate_row _ _ Er) in Ex. simpl in Ex.
      congruence. }
    rewrite Hj. now eexists.
Qed.

(** ** A create body as an update body *)

(** X16. Every body the create schema accepts is accepted by the update
    schema of the same resource, with every field set to the validated
    value; sent as an update, it replaces every column of the row and keeps
    its keys. *)
Theorem crear_vale_para_actualizar :
  (forall body c,
     validate_ClienteCreate body = inr c ->
     exists u,
       validate_ClienteUpdate body = inr u /\
       forall row, Cliente_merged u row = Cliente_new (Cliente.id row) c) /\
  (forall body c,
     validate_DomicilioCreate body = inr c ->
     exists u,
       validate_DomicilioUpdate body = inr u /\
       forall row, Domicilio_merged u row
                   = Domicilio_new (Domicilio.id row) c
                                   (Domicilio.cliente_id row)) /\
  (forall body c,
     validate_ProductoCreate body = inr c ->
     exists u,
       validate_ProductoUpdate body = inr u /\
       forall row, Producto_merged u row = Producto_new (Producto.id row) c).
Proof.
  assert (Hopt : forall A B (check : A -> option B) r b,
             required check r = Some b ->
             optional check r = Some (Set_to (Some b))).
  { intros A B check r b H. apply required_value in H as [a [-> H]].
    simpl. now rewrite H. }
  split; [|split]; intros body c H.
  - unfold validate_ClienteCreate in H. unfold validate_ClienteUpdate.
    destruct (required (check_length 1 255) (ClienteJSON.razon_social body))
      as [v1|] eqn:E1; [|discriminate].
    destruct (required (check_length 1 255)
                       (ClienteJSON.nombre_comercial body))
      as [v2|] eqn:E2; [|discriminate].
    destruct (required check_rfc (ClienteJSON.rfc body))
      as [v3|] eqn:E3; [|discriminate].
    destruct (required validate_email (ClienteJSON.correo_electronico body))
      as [v4|] eqn:E4; [|discriminate].
    destruct (required (check_length 10 20) (ClienteJSON.telefono body))
      as [v5|] eqn:E5; [|discriminate].
    injection H as <-.
    assert (E3' : required check_rfc_update (ClienteJSON.rfc body)
                  = Some v3).
    { apply required_value in E3 as [a [-> E3]]. simpl.
      destruct (check_rfc_same _ _ E3) as [-> [E _]]. exact E. }
    rewrite (Hopt _ _ _ _ _ E1), (Hopt _ _ _ _ _ E2), (Hopt _ _ _ _ _ E3'),
      (Hopt _ _ _ _ _ E4), (Hopt _ _ _ _ _ E5).
    eexists. split; [reflexivity|]. intros row. reflexivity.
  - unfold validate_DomicilioCreate in H. unfold validate_DomicilioUpdate.
    destruct (required (check_length 1 500) (DomicilioJSON.domicilio body))
      as [v1|] eqn:E1; [|discriminate].
    destruct (required (check_length 1 255) (DomicilioJSON.colonia body))
      as [v2|] eqn:E2; [|discriminate].
    destruct (required (check_length 1 255) (DomicilioJSON.municipio body))
      as [v3|] eqn:E3; [|discriminate].
    destruct (required (check_length 1 255) (DomicilioJSON.estado body))
      as [v4|] eqn:E4; [|discriminate].
    destruct (required check_tipo_direccion
                       (DomicilioJSON.tipo_direccion body))
      as [v5|] eqn:E5; [|discriminate].
    injection H as <-.
    rewrite (Hopt _ _ _ _ _ E1), (Hopt _ _ _ _ _ E2), (Hopt _ _ _ _ _ E3),
      (Hopt _ _ _ _ _ E4), (Hopt _ _ _ _ _ E5).
    eexists. split; [reflexivity|]. intros row. reflexivity.
  - unfold validate_ProductoCreate in H. unfold validate_ProductoUpdate.
    destruct (required (check_length 1 255) (ProductoJSON.nombre body))
      as [v1|] eqn:E1; [|discriminate].
    destruct (required (check_length 1 50) (ProductoJSON.unidad_medida body))
      as [v2|] eqn:E2; [|discriminate].
    destruct (required check_precio (ProductoJSON.precio_base body))
      as [v3|] eqn:E3; [|discriminate].
    injection H as <-.
    rewrite (Hopt _ _ _ _ _ E1), (Hopt _ _ _ _ _ E2), (Hopt _ _ _ _ _ E3).
    eexists. split; [reflexivity|]. intros row. reflexivity.
Qed.

End ReadExisting.

(* ================================================================== *)
(** * The further properties at the data of the test suite *)

Lemma db_test2_reachable : reachable (L := ascii_library) db_test2.
Proof.
  exists [Post_clientes cliente_test; Post_domicilios 1 domicilio_test;
          Post_productos producto_test; Post_domicilios 1 domicilio_test].
  reflexivity.
Qed.

Lemma reachable_wf_witness : db_wf (L := ascii_library) db_test.
Proof.
  apply (@reachable_wf ascii_library db_test). exact db_test_reachable.
Defined.

Lemma crear_y_obtener_witness :
  GET_cliente (L := ascii_library) 2 db_test3
  = (JSONResponse 200
       (ClienteResponse.mk (cp "Otra Empresa SA de CV") (cp "Otra")
                           (cp "XAXX010101000") (cp "otra@empresa.com")
                           (cp "5557654321") 2),
     db_test3).
Proof.
  apply (proj1 (@crear_y_obtener ascii_library db_test db_test3) cliente_otro
               (ClienteResponse.mk (cp "Otra Empresa SA de CV") (cp "Otra")
                                   (cp "XAXX010101000")
                                   (cp "otra@empresa.com")
                                   (cp "5557654321") 2)).
  reflexivity.
Defined.

Lemma eliminar_y_obtener_witness :
  GET_producto (L := ascii_library) 1 (snd (DELETE_producto 1 db_test))
  = (ErrorResponse 404 "Producto no encontrado",
     snd (DELETE_producto 1 db_test)) /\
  DELETE_producto 1 (snd (DELETE_producto 1 db_test))
  = (ErrorResponse 404 "Producto no encontrado",
     snd (DELETE_producto 1 db_test)).
Proof.
  destruct (proj2 (proj2 (@eliminar_y_obtener ascii_library db_test 1 1
                                              eq_refl)))
    as [H1 [H2 _]].
  split; [exact H1 | exact H2].
Defined.

Lemma escribir_inexistente_404_witness :
  DELETE_producto 999999 db_test
  = (ErrorResponse 404 "Producto no encontrado", db_test) /\
  PUT_producto (L := ascii_library) 999999
    (ProductoJSON.mk Missing Missing (Value f250)) db_test
  = (ErrorResponse 404 "Producto no encontrado", db_test).
Proof.
  destruct (proj2 (proj2 (@escribir_inexistente_404 ascii_library db_test
                                                    999999 eq_refl)))
    as [H1 H2].
  - apply not_in_ids. reflexivity.
  - split; [exact H1|]. eapply H2. reflexivity.
Defined.

Lemma crear_domicilio_201_witness :
  POST_domicilios 1 domicilio_test db_test
  = (JSONResponse 201
       (DomicilioResponse.mk (cp "Calle Test 123") (cp "Centro")
                             (cp "Guadalajara") (cp "Jalisco") FACTURACION
                             2 1),
     db_test2).
Proof.
  destruct (crear_domicilio_201 db_test 1 domicilio_test
              (DomicilioCreate.mk (cp "Calle Test 123") (cp "Centro")
                                  (cp "Guadalajara") (cp "Jalisco")
                                  FACTURACION))
    as [_ [H _]].
  - reflexivity.
  - reflexivity.
  - simpl. now left.
  - reflexivity.
  - exact H.
Defined.

Lemma crear_cliente_201_witness :
  POST_clientes (L := ascii_library) cliente_otro db_test
  = (JSONResponse 201
       (ClienteResponse.mk (cp "Otra Empresa SA de CV") (cp "Otra")
                           (cp "XAXX010101000") (cp "otra@empresa.com")
                           (cp "5557654321") 2),
     db_test3).
Proof.
  destruct (@crear_cliente_201 ascii_library db_test cliente_otro
              (ClienteCreate.mk (cp "Otra Empresa SA de CV") (cp "Otra")
                                (cp "XAXX010101000") (cp "otra@empresa.com")
                                (cp "5557654321")))
    as [_ H].
  - reflexivity.
  - intros [H|[]]. discriminate H.
  - reflexivity.
  - exact H.
Defined.

Lemma actualizar_idempotente_witness :
  exists r db',
    PUT_producto (L := ascii_library) 1
                 (ProductoJSON.mk Missing Missing (Value f250)) db_test
    = (JSONResponse 200 r, db') /\
    PUT_producto (L := ascii_library) 1
                 (ProductoJSON.mk Missing Missing (Value f250)) db'
    = (JSONResponse 200 r, db').
Proof.
  eexists. eexists. split; [reflexivity|].
  apply (proj2 (proj2 (@actualizar_idempotente ascii_library db_test _ 1))).
  reflexivity.
Defined.

Lemma sin_efecto_witness :
  snd (app (L := ascii_library) (Get_clientes (mkQuery None None)) db_test)
  = db_test /\
  snd (app (L := ascii_library) (Delete_cliente 999999) db_test) = db_test.
Proof.
  split.
  - apply (proj1 (@sin_efecto ascii_library
                    (Get_clientes (mkQuery None None)) db_test)).
    reflexivity.
  - apply (proj2 (@sin_efecto ascii_library (Delete_cliente 999999)
                    db_test)).
    left. reflexivity.
Defined.

Lemma paginas_consecutivas_witness :
  offset_limit 1 1 (productos db_test4)
  ++ offset_limit 2 2 (productos db_test4)
  = offset_limit 1 3 (productos db_test4) /\
  offset_limit 4 1 (productos db_test4) = [] /\
  Z.of_nat (List.length (offset_limit 1 1 (productos db_test4))) = 1.
Proof.
  destruct (paginas_consecutivas Producto.t (productos db_test4) 1 1 2)
    as [H1 [_ H3]]; [lia | lia | lia |].
  destruct (paginas_consecutivas Producto.t (productos db_test4) 4 1 0)
    as [_ [H2 _]]; [lia | lia | lia |].
  split; [exact H1 | split].
  - apply H2. apply Z.leb_le. reflexivity.
  - apply H3. apply Z.leb_le. reflexivity.
Defined.

Lemma rfc_pattern_shape_witness :
  len (cp "XAXX010101000") = 12 \/ len (cp "XAXX010101000") = 13.
Proof.
  apply (proj1 (proj2 (@rfc_pattern_shape ascii_library
                                          (cp "XAXX010101000")))).
  reflexivity.
Defined.


Lemma eliminar_cliente_exacto_witness :
  DELETE_cliente 1 db_test2
  = (JSONResponse 204 tt, mkDB [] [] (productos db_test2)).
Proof.
  apply (@eliminar_cliente_exacto ascii_library db_test2 1).
  - exact db_test2_reachable.
  - simpl. now left.
Defined.

Lemma database_url_normalizada_witness :
  engine (Some (cp "postgres://user:pw@host:5432/catalogos"))
  = mkEngine (cp "postgresql://user:pw@host:5432/catalogos") None true.
Proof.
  apply (proj1 (proj2 (proj2 (database_url_normalizada
           (Some (cp "postgres://user:pw@host:5432/catalogos")))))
           (cp "user:pw@host:5432/catalogos")).
  reflexivity.
Defined.

Lemma metrics_log_witness :
  metrics_middleware metrics_test (fun code : Z => code) zero 0
                     health_request (fun _ => 200) []
  = (inl EndpointConnectionError,
     [(INFO, Metric_latency "GET /health" zero "local")]).
Proof.
  apply (proj2 (proj2 (metrics_log Z (fun code => code) zero 0
                                   health_request (fun _ => 200) []))
               metrics_test EndpointConnectionError
               [(INFO, Metric_latency "GET /health" zero "local")]).
  reflexivity.
Defined.

Lemma obtener_existente_200_witness :
  exists r,
    GET_producto (L := ascii_library) 1 db_test
    = (JSONResponse 200 r, db_test) /\
    Producto.mk 1 (Some (cp "Producto Test")) (Some (cp "PZA"))
                (Some f100_50)
    = Producto.mk 1 (Some (ProductoResponse.nombre r))
                  (Some (ProductoResponse.unidad_medida r))
                  (Some (ProductoResponse.precio_base r)).
Proof.
  destruct (@obtener_existente_200 ascii_library db_test 1
              (mkQuery None None) db_test_reachable)
    as [_ [H _]].
  apply (H _ f100_50); reflexivity.
Defined.

Lemma crear_vale_para_actualizar_witness :
  exists u,
    validate_ClienteUpdate (L := ascii_library) cliente_test = inr u /\
    forall row,
      Cliente_merged u row
      = Cliente_new (Cliente.id row)
          (ClienteCreate.mk (cp "Empresa Test SA de CV") (cp "Test Company")
                            (cp "TEST123456ABC") (cp "test@empresa.com")
                            (cp "5551234567")).
Proof.
  apply (proj1 (@crear_vale_para_actualizar ascii_library) cliente_test).
  reflexivity.
Defined.
